(** * gitreview-gpt: diff formatting, review merging and review requests

    A shallow embedding of [gitreview_gpt/formatter.py] and of the parts of
    [gitreview_gpt/reviewer.py] that drive it, with the properties of the
    natural-language specification stated and settled against the embedding.

    Conventions of the embedding.
    - A Python [str] is a [list ascii]; every character is a code point
      below 256.  The character classes ([isspace], [isdigit], the line
      boundaries of [splitlines], [lower]) are the ones CPython uses on that
      range.
    - A Python [int] is a [Z].  The conversion [int] of a string of digits
      is taken without the limit that CPython 3.11 and later put on the
      number of digits (4300 unless configured), beyond which it raises a
      [ValueError].
    - A Python [dict] is an association list in insertion order; assigning
      to a key that is present replaces the value in place.
    - A call that can raise returns an [outcome]. *)

From Stdlib Require Import String.
From Stdlib Require Import ZArith NArith List Ascii Bool Lia Permutation.
From Stdlib Require Decimal DecimalString DecimalZ.
Import ListNotations.

Open Scope Z_scope.

(** ** Python values *)

Module Py.

Definition str := list ascii.

(** A string literal. *)
Definition lit (s : String.string) : str := String.list_ascii_of_string s.

Definition LF : ascii := "010"%char.
Definition CR : ascii := "013"%char.

Definition is_lf (c : ascii) : bool := Ascii.eqb c LF.
Definition is_cr (c : ascii) : bool := Ascii.eqb c CR.

(** [str.isspace] on one character, which is also the class [\s] of [re]. *)
Definition isspace (c : ascii) : bool :=
  let n := N_of_ascii c in
  ((9 <=? n) && (n <=? 13) || (28 <=? n) && (n <=? 32)
   || (n =? 133) || (n =? 160))%N.

(** The class [\d] of [re] (the decimal digits below 256). *)
Definition isdigit (c : ascii) : bool :=
  let n := N_of_ascii c in ((48 <=? n) && (n <=? 57))%N.

(** The line boundaries of [str.splitlines]. *)
Definition islinebreak (c : ascii) : bool :=
  let n := N_of_ascii c in
  ((10 <=? n) && (n <=? 13) || (28 <=? n) && (n <=? 30) || (n =? 133))%N.

(** [str.lower] on one character. *)
Definition lower_char (c : ascii) : ascii :=
  let n := N_of_ascii c in
  if ((65 <=? n) && (n <=? 90)
      || (192 <=? n) && (n <=? 222) && negb (n =? 215))%N
  then ascii_of_N (n + 32) else c.

Definition lower (s : str) : str := map lower_char s.

(** [s.startswith(p)] *)
Fixpoint startswith (p s : str) : bool :=
  match p, s with
  | [], _ => true
  | _ :: _, [] => false
  | a :: p', b :: s' => Ascii.eqb a b && startswith p' s'
  end.

(** What follows the prefix [p] of [s], when [s] starts with [p]. *)
Fixpoint after_prefix (p s : str) : option str :=
  match p, s with
  | [], _ => Some s
  | _ :: _, [] => None
  | a :: p', b :: s' => if Ascii.eqb a b then after_prefix p' s' else None
  end.

(** [sub in s] *)
Fixpoint contains (sub s : str) : bool :=
  startswith sub s
  || match s with
     | [] => false
     | _ :: s' => contains sub s'
     end.

(** The text before and after the first occurrence of [sep] in [s]. *)
Fixpoint partition_first (sep s : str) : option (str * str) :=
  match after_prefix sep s with
  | Some rest => Some ([], rest)
  | None =>
      match s with
      | [] => None
      | c :: s' =>
          match partition_first sep s' with
          | Some (before, rest) => Some (c :: before, rest)
          | None => None
          end
      end
  end.

(** [s.split(sep, 1)], for a separator that is not empty. *)
Definition split1 (sep s : str) : list str :=
  match partition_first sep s with
  | Some (before, rest) => [before; rest]
  | None => [s]
  end.

Fixpoint dropwhile (f : ascii -> bool) (s : str) : str :=
  match s with
  | [] => []
  | c :: s' => if f c then dropwhile f s' else s
  end.

Fixpoint takewhile (f : ascii -> bool) (s : str) : str :=
  match s with
  | [] => []
  | c :: s' => if f c then c :: takewhile f s' else []
  end.

Definition lstrip (s : str) : str := dropwhile isspace s.
Definition rstrip (s : str) : str := rev (dropwhile isspace (rev s)).

(** [s.strip()] *)
Definition strip (s : str) : str := lstrip (rstrip s).

(** [s.rstrip("\n")] *)
Definition rstrip_lf (s : str) : str := rev (dropwhile is_lf (rev s)).

(** [s.rsplit(sep, 1)[-1]] for the one-character separator [sep]: what
    follows the last [sep], the whole of [s] when there is none. *)
Definition rsplit1_last (sep : ascii) (s : str) : str :=
  rev (takewhile (fun c => negb (Ascii.eqb c sep)) (rev s)).

(** [s.splitlines()].  [after_cr] records that the character before was a
    carriage return, whose line feed belongs to the same boundary. *)
Fixpoint splitlines_from (after_cr : bool) (s : str) : list str :=
  match s with
  | [] => []
  | c :: s' =>
      if after_cr && is_lf c then splitlines_from false s'
      else if islinebreak c then [] :: splitlines_from (is_cr c) s'
      else match splitlines_from false s' with
           | [] => [[c]]
           | l :: ls => (c :: l) :: ls
           end
  end.

Definition splitlines (s : str) : list str := splitlines_from false s.

(** [str(n)] for an [int]. *)
Definition str_of_int (n : Z) : str :=
  String.list_ascii_of_string (DecimalString.NilZero.string_of_int (Z.to_int n)).

Definition digit_value (c : ascii) : Z := Z.of_N (N_of_ascii c) - 48.

(** [int(s)] for a string of decimal digits, as [\d+] captures them. *)
Definition int_of_digits (s : str) : Z :=
  fold_left (fun acc c => 10 * acc + digit_value c) s 0.

(** [enumerate(l, start)] *)
Fixpoint enumerate {A : Type} (l : list A) (start : Z) : list (Z * A) :=
  match l with
  | [] => []
  | x :: l' => (start, x) :: enumerate l' (start + 1)
  end.

(** *** Exceptions *)

Inductive exn : Type :=
| ValueError | IndexError | KeyError | TypeError | AttributeError.

Inductive outcome (A : Type) : Type :=
| Ok (a : A)
| Raise (e : exn).
Arguments Ok {A} a.
Arguments Raise {A} e.

Definition bind {A B : Type} (m : outcome A) (k : A -> outcome B)
  : outcome B :=
  match m with
  | Ok a => k a
  | Raise e => Raise e
  end.

(** [try: m  except ValueError as e: handler e]: any other exception
    passes through. *)
Definition except_ValueError {A : Type} (m : outcome A)
    (handler : unit -> outcome A) : outcome A :=
  match m with
  | Raise ValueError => handler tt
  | _ => m
  end.

(** *** Dictionaries *)

Section Dict.
Context {K V : Type} (eqb : K -> K -> bool).

Definition dict := list (K * V).

Fixpoint dict_get (k : K) (d : dict) : option V :=
  match d with
  | [] => None
  | (k', v) :: d' => if eqb k k' then Some v else dict_get k d'
  end.

(** [d[k] = v] *)
Fixpoint dict_set (k : K) (v : V) (d : dict) : dict :=
  match d with
  | [] => [(k, v)]
  | (k', v') :: d' =>
      if eqb k k' then (k', v) :: d' else (k', v') :: dict_set k v d'
  end.

Definition dict_mem (k : K) (d : dict) : bool :=
  match dict_get k d with Some _ => true | None => false end.

Definition keys (d : dict) : list K := map fst d.
Definition values (d : dict) : list V := map snd d.
End Dict.
Arguments dict : clear implicits.

Fixpoint str_eqb (a b : str) : bool :=
  match a, b with
  | [], [] => true
  | x :: a', y :: b' => Ascii.eqb x y && str_eqb a' b'
  | _, _ => false
  end.

End Py.

Import Py.

Declare Scope py_scope.
Delimit Scope py_scope with py.
Notation "x <- m ;; k" := (bind m (fun x => k))
  (at level 61, m at next level, right associativity) : py_scope.
Notation "' pat <- m ;; k" := (bind m (fun x => match x with pat => k end))
  (at level 61, pat pattern, m at next level, right associativity) : py_scope.
Open Scope py_scope.

(** ** The regular expressions of [format_git_diff]

    Each pattern is embedded as the function that decides whether it matches
    at the head of a string, and each [re] call as the left-to-right scan
    that [re] performs with it.  None of the patterns leaves a choice to
    backtracking: a greedy run ([\+{3,}], [\d+], [.*]) is always followed by
    a character outside its class. *)

Module Re.

Definition is_plus (c : ascii) : bool := Ascii.eqb c "+"%char.
Definition not_lf (c : ascii) : bool := negb (is_lf c).

(** [\n\+{3,}\s] at the head of [s]: the length of the match. *)
Definition match_file_separator (s : str) : option nat :=
  match s with
  | c :: s1 =>
      if is_lf c then
        let k := length (takewhile is_plus s1) in
        match dropwhile is_plus s1 with
        | w :: _ =>
            if (3 <=? k)%nat && isspace w then Some (k + 2)%nat else None
        | [] => None
        end
      else None
  | [] => None
  end.

(** The scan of [re.split] for the file separator.  [splits_left] is the
    number of splits still allowed, [skip] the number of characters of the
    current match still to pass over, [piece] the piece being collected, in
    reverse. *)
Fixpoint split_file_separator_scan (splits_left skip : nat) (piece : str)
    (s : str) : list str :=
  match s with
  | [] => [rev piece]
  | c :: s' =>
      match skip with
      | S k => split_file_separator_scan splits_left k piece s'
      | O =>
          match splits_left, match_file_separator s with
          | S m, Some len =>
              rev piece :: split_file_separator_scan m (len - 1) [] s'
          | _, _ => split_file_separator_scan splits_left 0 (c :: piece) s'
          end
      end
  end.

(** [re.split(r"\n\+{3,}\s", s, maxsplit)]; a [maxsplit] of zero does not
    limit the number of splits. *)
Definition split_file_separator (s : str) (maxsplit : nat) : list str :=
  split_file_separator_scan
    (match maxsplit with O => length s | _ => maxsplit end) 0 [] s.

(** The value of the flag [re.MULTILINE]. *)
Definition MULTILINE : nat := 8.

(** [diff --git.*\n] followed by [.*\n] at the head of [s]: the lengths of
    the two groups. *)
Definition match_diff_git_pair (s : str) : option (nat * nat) :=
  match after_prefix (lit "diff --git") s with
  | Some s1 =>
      match dropwhile not_lf s1 with
      | _ :: s2 =>
          match dropwhile not_lf s2 with
          | _ :: _ =>
              Some (10 + length (takewhile not_lf s1) + 1,
                    length (takewhile not_lf s2) + 1)%nat
          | [] => None
          end
      | [] => None
      end
  | None => None
  end.

(** [re.sub(r"(diff --git.*\n)(.*\n)", lambda match: match.group(1), s)]:
    [keep] characters of a match are still to be copied and [drop]
    characters after them are still to be removed. *)
Fixpoint sub_diff_git_pair_scan (keep drop : nat) (s : str) : str :=
  match s with
  | [] => []
  | c :: s' =>
      match keep, drop with
      | S k, _ => c :: sub_diff_git_pair_scan k drop s'
      | O, S d => sub_diff_git_pair_scan 0 d s'
      | O, O =>
          match match_diff_git_pair s with
          | Some (len1, len2) => c :: sub_diff_git_pair_scan (len1 - 1) len2 s'
          | None => c :: sub_diff_git_pair_scan 0 0 s'
          end
      end
  end.

Definition sub_diff_git_pair (s : str) : str := sub_diff_git_pair_scan 0 0 s.

(** [diff --git.*\n] at the head of [s]: the length of the match. *)
Definition match_diff_git_line (s : str) : option nat :=
  match after_prefix (lit "diff --git") s with
  | Some s1 =>
      match dropwhile not_lf s1 with
      | _ :: _ => Some (10 + length (takewhile not_lf s1) + 1)%nat
      | [] => None
      end
  | None => None
  end.

(** [re.sub(r"^diff --git.*\n", "", s, flags=re.MULTILINE)]: [bol] holds at
    the start of the text and after every line feed. *)
Fixpoint sub_diff_git_line_scan (bol : bool) (drop : nat) (s : str) : str :=
  match s with
  | [] => []
  | c :: s' =>
      match drop with
      | S d => sub_diff_git_line_scan (is_lf c) d s'
      | O =>
          match (if bol then match_diff_git_line s else None) with
          | Some len => sub_diff_git_line_scan (is_lf c) (len - 1) s'
          | None => c :: sub_diff_git_line_scan (is_lf c) 0 s'
          end
      end
  end.

Definition sub_diff_git_line (s : str) : str :=
  sub_diff_git_line_scan true 0 s.

(** [\d+] at the head of [s]: the digits and what follows them. *)
Definition match_digits (s : str) : option (str * str) :=
  match takewhile isdigit s with
  | [] => None
  | ds => Some (ds, dropwhile isdigit s)
  end.

(** [@@ -(\d+),(\d+) \+(\d+),(\d+) @@] at the head of [s]: the four groups
    and what follows the match. *)
Definition match_hunk_header (s : str)
  : option ((str * str * str * str) * str) :=
  match after_prefix (lit "@@ -") s with None => None | Some s1 =>
  match match_digits s1 with None => None | Some (a, s2) =>
  match after_prefix (lit ",") s2 with None => None | Some s3 =>
  match match_digits s3 with None => None | Some (b, s4) =>
  match after_prefix (lit " +") s4 with None => None | Some s5 =>
  match match_digits s5 with None => None | Some (c, s6) =>
  match after_prefix (lit ",") s6 with None => None | Some s7 =>
  match match_digits s7 with None => None | Some (d, s8) =>
  match after_prefix (lit " @@") s8 with None => None | Some s9 =>
  Some ((a, b, c, d), s9)
  end end end end end end end end end.

(** [re.split(r"(?=@@ -\d+,\d+ \+\d+,\d+ @@)", s)]: the text is cut in
    front of every position at which the header matches, the first position
    included. *)
Fixpoint split_before_hunk_header_scan (piece : str) (s : str) : list str :=
  match s with
  | [] => [rev piece]
  | c :: s' =>
      match match_hunk_header s with
      | Some _ => rev piece :: split_before_hunk_header_scan [c] s'
      | None => split_before_hunk_header_scan (c :: piece) s'
      end
  end.

Definition split_before_hunk_header (s : str) : list str :=
  split_before_hunk_header_scan [] s.

(** [re.findall(r"@@ -(\d+),(\d+) \+(\d+),(\d+) @@", s)] *)
Fixpoint findall_hunk_header_scan (skip : nat) (s : str)
  : list (str * str * str * str) :=
  match s with
  | [] => []
  | _ :: s' =>
      match skip with
      | S k => findall_hunk_header_scan k s'
      | O =>
          match match_hunk_header s with
          | Some (groups, rest) =>
              groups :: findall_hunk_header_scan (length s' - length rest) s'
          | None => findall_hunk_header_scan 0 s'
          end
      end
  end.

Definition findall_hunk_header (s : str) : list (str * str * str * str) :=
  findall_hunk_header_scan 0 s.



End Re.

(** ** JSON values and the collaborators outside the sources *)

(** What [json.loads] returns. *)
#[local] Unset Elimination Schemes.
Inductive json : Type :=
| JNull
| JBool (b : bool)
| JInt (n : Z)
| JFloat (literal : str)
| JStr (s : str)
| JArr (items : list json)
| JObj (members : dict str json).
#[local] Set Elimination Schemes.

(** The functions that [formatter.py] and [reviewer.py] call and that are
    library code or live in modules outside the sources ([json], [utils],
    [prompt], [request], and the part of [formatter] that the sources lack).
    Nothing is assumed of them. *)
Class Collaborators : Type := {
  (** [json.loads]; a [JSONDecodeError] is a [ValueError] *)
  json_loads : str -> outcome json;
  (** [json.dumps] of a [review_per_chunk] *)
  json_dumps_review : dict Z json -> str;
  (** [json.dumps] of a string *)
  json_dumps_str : str -> str;
  (** [formatter.extract_content_from_markdown_code_block], also on [None] *)
  extract_content_from_markdown_code_block : option str -> outcome str;
  (** [utils.repair_truncated_json] *)
  repair_truncated_json : str -> outcome str;
  (** [request.send_request] of the review prompt of a code *)
  send_review_request : str -> outcome (option str);
  (** [request.send_request] of the repair prompt of a review result *)
  send_repair_request : str -> outcome (option str);
  (** [utils.count_tokens] *)
  count_tokens : str -> Z;
  (** the token count of the empty apply-review prompt *)
  prompt_tokens : Z;
  (** [utils.parse_string_to_int] *)
  parse_string_to_int : str -> Z }.

(** ** [formatter.py]: formatting a diff *)

Module Formatter.

Record CodeChunk : Type := mkCodeChunk {
  start_line : Z;
  end_line : Z;
  code : str }.

(** An entry of [chunk_dividers]. *)
Record ChunkDivider : Type := mkChunkDivider {
  original_start_line : Z;
  original_end_line : Z;
  new_start_line : Z;
  new_end_line : Z }.

Definition chunk_divider (m : str * str * str * str) : ChunkDivider :=
  let '(m0, m1, m2, m3) := m in
  {| original_start_line := int_of_digits m0;
     original_end_line := int_of_digits m1;
     new_start_line := int_of_digits m2;
     new_end_line := int_of_digits m3 |}.

(** The selection-marker groups of one file: marker text to code chunks. *)
Definition MarkerGroups : Type := dict str (list CodeChunk).

(** The local variables of [format_git_diff] that outlive one iteration. *)
Record Locals : Type := mkLocals {
  diff_formatted : str;
  file_chunks : dict Z str;
  code_change_chunks : dict Z MarkerGroups;
  file_names : list str;
  file_paths : list str }.

(** The local variables of the loop over the lines of one code change chunk
    (lines 75 to 95); [hunk_diff_formatted] is [diff_formatted]. *)
Record LineLoop : Type := mkLineLoop {
  hunk_diff_formatted : str;
  line_counter : Z;
  chunk_formatted : str;
  optional_selection_marker : str }.

(** Lines 80 to 84: the selection marker of a header line. *)
Definition selection_marker (line : str) : str :=
  match split1 (lit "def") line with
  | _ :: part1 :: _ => strip part1
  | _ => []
  end.

(** One iteration of the loop over the lines (lines 76 to 95). *)
Definition format_line (st : LineLoop) (line : str) : LineLoop :=
  if startswith (lit "@@ -") line then
    {| hunk_diff_formatted := hunk_diff_formatted st ++ line ++ [LF];
       line_counter := line_counter st;
       chunk_formatted := chunk_formatted st ++ line ++ [LF];
       optional_selection_marker := selection_marker line |}
  else if startswith (lit "---") line then st
  else if startswith (lit "-") line then st
  else
    let line_counter' := line_counter st + 1 in
    let new_line := str_of_int line_counter' ++ lit " " ++ line ++ [LF] in
    {| hunk_diff_formatted := hunk_diff_formatted st ++ new_line;
       line_counter := line_counter';
       chunk_formatted := chunk_formatted st ++ new_line;
       optional_selection_marker := optional_selection_marker st |}.

(** [l[0]] *)
Definition first_item {A : Type} (l : list A) : outcome A :=
  match l with
  | x :: _ => Ok x
  | [] => Raise IndexError
  end.

(** [d[k]] *)
Definition item {K V : Type} (eqb : K -> K -> bool) (k : K) (d : dict K V)
  : outcome V :=
  match dict_get eqb k d with
  | Some v => Ok v
  | None => Raise KeyError
  end.

(** Lines 59 to 103: one code change chunk becomes a [CodeChunk]; the result
    is the new [diff_formatted], the chunk and its selection marker. *)
Definition format_code_change_chunk (diff_formatted0 : str)
    (code_change_chunk : str) : outcome (str * CodeChunk * str) :=
  let chunk_dividers :=
    map chunk_divider (Re.findall_hunk_header code_change_chunk) in
  divider0 <- first_item chunk_dividers ;;
  let st :=
    fold_left format_line (splitlines code_change_chunk)
      {| hunk_diff_formatted := diff_formatted0;
         line_counter := -1 + new_start_line divider0;
         chunk_formatted := [];
         optional_selection_marker := [] |} in
  Ok (hunk_diff_formatted st,
      {| start_line := new_start_line divider0;
         end_line := new_end_line divider0 + new_start_line divider0 - 1;
         code := chunk_formatted st |},
      optional_selection_marker st).

(** Lines 105 to 108: the chunk joins the group of its marker. *)
Definition add_to_marker_group (groups : MarkerGroups) (marker : str)
    (code_chunk : CodeChunk) : MarkerGroups :=
  match dict_get str_eqb marker groups with
  | None => dict_set str_eqb marker [code_chunk] groups
  | Some chunks => dict_set str_eqb marker (chunks ++ [code_chunk]) groups
  end.

(** One iteration of the loop over [changes_per_file] (lines 48 to 108). *)
Definition format_change (j : Z) (acc : outcome Locals) (ic : Z * str)
  : outcome Locals :=
  st <- acc ;;
  let '(i, code_change_chunk) := ic in
  if i =? 1 then
    let name := rsplit1_last "/"%char code_change_chunk in
    Ok {| diff_formatted := diff_formatted st ++ name;
          file_chunks := dict_set Z.eqb j name (file_chunks st);
          code_change_chunks := dict_set Z.eqb j [] (code_change_chunks st);
          file_names :=
            file_names st
            ++ [rsplit1_last "/"%char (rstrip_lf code_change_chunk)];
          file_paths :=
            file_paths st ++ [rstrip_lf (skipn 2 code_change_chunk)] |}
  else
    '(diff_formatted', code_chunk, marker) <-
      format_code_change_chunk (diff_formatted st) code_change_chunk ;;
    file_chunk_j <- item Z.eqb j (file_chunks st) ;;
    groups_j <- item Z.eqb j (code_change_chunks st) ;;
    Ok {| diff_formatted := diff_formatted';
          file_chunks :=
            dict_set Z.eqb j (file_chunk_j ++ code code_chunk) (file_chunks st);
          code_change_chunks :=
            dict_set Z.eqb j (add_to_marker_group groups_j marker code_chunk)
              (code_change_chunks st);
          file_names := file_names st;
          file_paths := file_paths st |}.

(** One iteration of the loop over [parent_chunks] (lines 33 to 108). *)
Definition format_file (acc : outcome Locals) (jc : Z * str)
  : outcome Locals :=
  let '(j, file_chunk) := jc in
  if j =? -1 then acc
  else
    let file_chunk := Re.sub_diff_git_pair file_chunk in
    let file_chunk := Re.sub_diff_git_line file_chunk in
    let changes_per_file := Re.split_before_hunk_header file_chunk in
    fold_left (format_change j) (enumerate changes_per_file 1) acc.

(** [format_git_diff(diff_text)].  The third positional argument of
    [re.split] is [maxsplit], and line 32 passes [re.MULTILINE] there. *)
Definition format_git_diff (diff_text : str) : outcome Locals :=
  let parent_chunks := Re.split_file_separator diff_text Re.MULTILINE in
  fold_left format_file (enumerate parent_chunks (-1))
    (Ok {| diff_formatted := [];
           file_chunks := [];
           code_change_chunks := [];
           file_names := [];
           file_paths := [] |}).

(** *** Filtering a review result *)

(** Lines 128 to 137, on a string. *)
Definition has_not_used_or_unused (feedback : str) : bool :=
  contains (lit "not used") (lower feedback)
  || contains (lit "unused") (lower feedback)
  || contains (lit "not being used") (lower feedback)
  || contains (lit "variable name") (lower feedback)
  || contains (lit "more descriptive") (lower feedback)
  || contains (lit "more specific") (lower feedback)
  || contains (lit "never used") (lower feedback).

(** [feedback.lower()] exists on strings only. *)
Definition has_not_used_or_unused_value (feedback : json) : outcome bool :=
  match feedback with
  | JStr s => Ok (has_not_used_or_unused s)
  | _ => Raise AttributeError
  end.

(** [value["feedback"]] *)
Definition subscript_feedback (value : json) : outcome json :=
  match value with
  | JObj members => item str_eqb (lit "feedback") members
  | _ => Raise TypeError
  end.

(** [x.items()] *)
Definition items (x : json) : outcome (dict str json) :=
  match x with
  | JObj members => Ok members
  | _ => Raise AttributeError
  end.

(** The inner comprehension of lines 141 to 145, over [file_data.items()]. *)
Fixpoint keep_entries (entries : dict str json) : outcome (dict str json) :=
  match entries with
  | [] => Ok []
  | (line, value) :: entries' =>
      feedback <- subscript_feedback value ;;
      unused <- has_not_used_or_unused_value feedback ;;
      kept <- keep_entries entries' ;;
      Ok (if unused then kept else (line, value) :: kept)
  end.

(** The outer comprehension of lines 140 to 147, over
    [review_result.items()]. *)
Fixpoint keep_files (files : dict str json) : outcome (dict str json) :=
  match files with
  | [] => Ok []
  | (file, file_data) :: files' =>
      entries <- items file_data ;;
      kept <- keep_entries entries ;;
      rest <- keep_files files' ;;
      Ok ((file, JObj kept) :: rest)
  end.

Definition remove_unused_suggestions (review_result : json) : outcome json :=
  files <- items review_result ;;
  kept <- keep_files files ;;
  Ok (JObj kept).

Definition parse_review_result `{Collaborators} (review_result : str)
  : outcome json :=
  review <- json_loads review_result ;;
  remove_unused_suggestions review.

(** *** Merging a review into the code hunks *)

(** The test of the [while] loop, lines 182 to 186. *)
Definition in_hunk (code_change_hunk : CodeChunk) (line_number : Z) : bool :=
  (start_line code_change_hunk <=? line_number)
  && (line_number <? start_line code_change_hunk + end_line code_change_hunk).

(** The [while] loop of lines 182 to 191.  [stack] is what is left of
    [line_number_stack], its top first; the result is [review_per_chunk],
    [line_number] and the stack when the loop is left. *)
Fixpoint attach_while (review_json : dict str json)
    (code_change_hunk : CodeChunk) (review_per_chunk : dict Z json)
    (line_number : Z) (stack : list Z) {struct stack}
  : outcome (dict Z json * Z * list Z) :=
  if in_hunk code_change_hunk line_number then
    entry <- item str_eqb (str_of_int line_number) review_json ;;
    let review_per_chunk' :=
      dict_set Z.eqb line_number entry review_per_chunk in
    match stack with
    | [] => Ok (review_per_chunk', line_number, [])
    | next :: stack' =>
        attach_while review_json code_change_hunk review_per_chunk' next stack'
    end
  else Ok (review_per_chunk, line_number, stack).

(** Line 196: the payload of a hunk with its review. *)
Definition hunk_payload `{Collaborators} (code_change_hunk : CodeChunk)
    (review_per_chunk : dict Z json) : str :=
  code code_change_hunk ++ [LF] ++ json_dumps_review review_per_chunk ++ [LF].

(** The [for] loop of lines 180 to 200, with the stack top first. *)
Fixpoint merge_hunks `{Collaborators} (review_json : dict str json)
    (code_changes : list CodeChunk) (hunk_review_payload : list str)
    (line_number : Z) (stack : list Z) : outcome (list str * list Z) :=
  match code_changes with
  | [] => Ok (hunk_review_payload, stack)
  | code_change_hunk :: code_changes' =>
      '(review_per_chunk, line_number', stack') <-
        attach_while review_json code_change_hunk [] line_number stack ;;
      let hunk_review_payload' :=
        match review_per_chunk with
        | [] => hunk_review_payload
        | _ :: _ =>
            hunk_review_payload
            ++ [hunk_payload code_change_hunk review_per_chunk]
        end in
      match stack' with
      | [] => Ok (hunk_review_payload', [])
      | _ :: _ =>
          merge_hunks review_json code_changes' hunk_review_payload'
            line_number' stack'
      end
  end.

(** [parse_apply_review_per_code_hunk(code_changes, review_json,
    line_number_stack)].  [line_number_stack] is the Python list, whose last
    element [pop] takes; the result is the returned payload and the list as
    the call leaves it. *)
Definition parse_apply_review_per_code_hunk `{Collaborators}
    (code_changes : list CodeChunk) (review_json : dict str json)
    (line_number_stack : list Z) : outcome (list str * list Z) :=
  match rev line_number_stack with
  | [] => Raise IndexError
  | line_number :: stack =>
      '(hunk_review_payload, stack') <-
        merge_hunks review_json code_changes [] line_number stack ;;
      Ok (hunk_review_payload, rev stack')
  end.


End Formatter.

(** ** [reviewer.py] *)

Module Reviewer.

Import Formatter.

(** [request_review(api_key, code_to_review)], lines 12 to 56; [None] is
    the value that Python returns as [None]. *)
Definition request_review `{Collaborators} (code_to_review : str)
  : outcome (option json) :=
  review_result <- send_review_request code_to_review ;;
  match review_result with
  | None | Some [] => Ok None
  | Some text =>
      except_ValueError
        (review_json <- parse_review_result text ;; Ok (Some review_json))
      (fun _ =>
      except_ValueError
        (content <- extract_content_from_markdown_code_block (Some text) ;;
         review_json <- parse_review_result content ;;
         Ok (Some review_json))
      (fun _ =>
      except_ValueError
        (repaired <- repair_truncated_json text ;;
         review_json <- parse_review_result repaired ;;
         Ok (Some review_json))
      (fun _ =>
      except_ValueError
        (review_result' <- send_repair_request text ;;
         content <- extract_content_from_markdown_code_block review_result' ;;
         review_json <- parse_review_result content ;;
         Ok (Some review_json))
      (fun _ => Ok None))))
  end.

(** Lines 85 to 87 of [apply_review]: the line number stack. *)
Definition make_line_number_stack `{Collaborators}
    (review_json : dict str json) : list Z :=
  fold_left (fun line_number_stack line_number =>
               line_number_stack ++ [parse_string_to_int line_number])
    (rev (keys review_json)) [].

(** Lines 120 to 131: the chunks of one payload that fit the threshold. *)
Definition add_fitting_chunks `{Collaborators} (code_chunks_to_review : list str)
    (chunk_payload : list str) : list str :=
  fold_left (fun code_chunks_to_review chunk =>
               let chunk_tokens :=
                 count_tokens (json_dumps_str chunk) + prompt_tokens in
               if chunk_tokens <=? 2048
               then code_chunks_to_review ++ [chunk]
               else code_chunks_to_review)
    chunk_payload code_chunks_to_review.

(** The loop of lines 105 to 131 of [apply_review] over
    [selection_marker_chunks.values()]. *)
Fixpoint collect_code_chunks `{Collaborators} (groups : list (list CodeChunk))
    (review_json : dict str json) (line_number_stack : list Z)
    (code_chunks_to_review : list str) : outcome (list str) :=
  match groups with
  | [] => Ok code_chunks_to_review
  | code_chunk :: groups' =>
      match line_number_stack with
      | [] => Ok code_chunks_to_review
      | _ :: _ =>
          '(chunk_payload, line_number_stack') <-
            parse_apply_review_per_code_hunk code_chunk review_json
              line_number_stack ;;
          collect_code_chunks groups' review_json line_number_stack'
            (add_fitting_chunks code_chunks_to_review chunk_payload)
      end
  end.

(** Lines 82 to 131 of [apply_review]: [code_chunks_to_review]. *)
Definition code_chunks_to_review `{Collaborators}
    (review_json : dict str json) (selection_marker_chunks : MarkerGroups)
  : outcome (list str) :=
  collect_code_chunks (values selection_marker_chunks) review_json
    (make_line_number_stack review_json) [].

End Reviewer.

(** ** The vocabulary of the specification

    The definitions of this module follow the words of the specification;
    they are what the embedded code is compared with. *)

Module Spec.

Import Formatter Reviewer.

(** *** Hunks (sections 4.1 and 4.2) *)

(** The header line [@@ -a,b +c,d @@] followed by its trailing text. *)
Definition hunk_header (a b c d trailing : str) : str :=
  lit "@@ -" ++ a ++ lit "," ++ b ++ lit " +" ++ c ++ lit "," ++ d
  ++ lit " @@" ++ trailing.

(** The text of a hunk: the header line and the raw lines of the body, each
    closed by a line feed. *)
Definition hunk_text (header : str) (body : list str) : str :=
  header ++ [LF] ++ concat (map (fun line => line ++ [LF]) body).

(** A number as the header writes it. *)
Definition is_number (s : str) : Prop := s <> [] /\ forallb isdigit s = true.

(** A line is one line: it holds no line boundary. *)
Definition one_line (s : str) : Prop := forallb (fun c => negb (islinebreak c)) s = true.

(** A raw line of a hunk body is a context line, an added line or a removed
    line. *)
Definition is_context (line : str) : bool := startswith (lit " ") line.
Definition is_added (line : str) : bool := startswith (lit "+") line.
Definition is_removed (line : str) : bool := startswith (lit "-") line.

Definition raw_line (line : str) : Prop :=
  one_line line
  /\ (is_context line || is_added line || is_removed line) = true.

(** The added and context lines of a body, in their order. *)
Definition retained (body : list str) : list str :=
  filter (fun line => negb (is_removed line)) body.

(** A hunk is well formed when its header fields are numbers, its trailing
    text stays on the header line, its body is made of raw lines, and the
    header's new-line count is the number of added and context lines. *)
Definition well_formed_hunk (a b c d trailing : str) (body : list str)
  : Prop :=
  is_number a /\ is_number b /\ is_number c /\ is_number d
  /\ one_line trailing
  /\ Forall raw_line body
  /\ Z.of_nat (length (retained body)) = int_of_digits d.

(** The annotation of a line with its absolute line number (section 4.2). *)
Definition annotate (n : Z) (line : str) : str :=
  str_of_int n ++ lit " " ++ line.

(** The lines numbered from [n] on. *)
Fixpoint annotate_from (n : Z) (lines : list str) : list str :=
  match lines with
  | [] => []
  | line :: lines' => annotate n line :: annotate_from (n + 1) lines'
  end.

(** The annotated lines of a code unit: the lines of its text that are not
    header lines. *)
Definition annotated_lines (unit : CodeChunk) : list str :=
  filter (fun line => negb (startswith (lit "@@ -") line))
    (splitlines (code unit)).

(** Stripping the leading ["<n> "] token of an annotated line. *)
Definition strip_annotation (line : str) : str :=
  match dropwhile isdigit line with
  | c :: rest => if Ascii.eqb c " "%char then rest else c :: rest
  | [] => []
  end.

(** *** Markers (section 4.3) *)


(** The marker groups that a sequence of code units with their markers
    builds, in hunk order. *)
Definition group_by_marker (units : list (str * CodeChunk)) : MarkerGroups :=
  fold_left (fun groups mu => add_to_marker_group groups (fst mu) (snd mu))
    units [].


(** *** The closed interval of a code unit (section 4.5) *)

Definition in_closed_interval (unit : CodeChunk) (n : Z) : Prop :=
  start_line unit <= n <= end_line unit.

(** *** Filtered feedback (section 8) *)

Definition filtered_phrases : list str :=
  [lit "not used"; lit "unused"; lit "not being used"; lit "variable name";
   lit "more descriptive"; lit "more specific"; lit "never used"].

(** [feedback] contains [phrase] up to the case of its letters. *)
Definition contains_ignoring_case (phrase feedback : str) : Prop :=
  exists before middle after,
    feedback = before ++ middle ++ after /\ lower middle = phrase.

Definition mentions_filtered_phrase (feedback : str) : Prop :=
  exists phrase, In phrase filtered_phrases
                 /\ contains_ignoring_case phrase feedback.

(** The feedback text of a review entry. *)
Definition feedback_of (value : json) : option str :=
  match value with
  | JObj members =>
      match dict_get str_eqb (lit "feedback") members with
      | Some (JStr feedback) => Some feedback
      | _ => None
      end
  | _ => None
  end.

(** A review-result mapping: files to line keys to entries that carry a
    feedback text. *)
Definition ReviewMapping : Type := dict str (dict str json).

Definition review_mapping (files : ReviewMapping) : Prop :=
  Forall (fun file_data =>
            Forall (fun entry => feedback_of (snd entry) <> None)
              (snd file_data)) files.

(** The mapping as the JSON value that [json.loads] returns for it. *)
Definition json_of_mapping (files : ReviewMapping) : json :=
  JObj (map (fun file_data => (fst file_data, JObj (snd file_data))) files).

(** An entry is dropped when its feedback mentions a filtered phrase. *)
Definition dropped (entry : str * json) : bool :=
  match feedback_of (snd entry) with
  | Some feedback => has_not_used_or_unused feedback
  | None => false
  end.

(** The mapping without its dropped entries: every file stays, with the
    entries that are not dropped, in their order. *)
Definition without_dropped (files : ReviewMapping) : ReviewMapping :=
  map (fun file_data =>
         (fst file_data,
          filter (fun entry => negb (dropped entry)) (snd file_data)))
    files.

(** *** The merger observed (sections 3 and 4.5)

    The run of the merger as a sequence of visits: for each code unit that
    the loop reaches, the line numbers attached to it, in the order of their
    attachment, and the stack (top first) when the loop leaves the unit. *)

Record Visit : Type := mkVisit {
  visited : CodeChunk;
  attached : list Z;
  stack_after : list Z }.

(** The line numbers that the [while] loop attaches to a unit, with the
    line number and the stack it leaves. *)
Fixpoint attached_while (unit : CodeChunk) (line_number : Z)
    (stack : list Z) {struct stack} : list Z * Z * list Z :=
  if in_hunk unit line_number then
    match stack with
    | [] => ([line_number], line_number, [])
    | next :: stack' =>
        let '(more, line_number', stack'') :=
          attached_while unit next stack' in
        (line_number :: more, line_number', stack'')
    end
  else ([], line_number, stack).

Fixpoint visits (units : list CodeChunk) (line_number : Z) (stack : list Z)
  : list Visit :=
  match units with
  | [] => []
  | unit :: units' =>
      let '(lines, line_number', stack') :=
        attached_while unit line_number stack in
      {| visited := unit; attached := lines; stack_after := stack' |}
      :: match stack' with
         | [] => []
         | _ :: _ => visits units' line_number' stack'
         end
  end.

(** The update of [review_per_chunk] by one attached line number. *)
Definition attach_step (review_json : dict str json)
    (review_per_chunk : dict Z json) (n : Z) : dict Z json :=
  match dict_get str_eqb (str_of_int n) review_json with
  | Some entry => dict_set Z.eqb n entry review_per_chunk
  | None => review_per_chunk
  end.

(** The review entries of attached line numbers, as [review_per_chunk]
    holds them. *)
Definition review_of (review_json : dict str json) (lines : list Z)
  : dict Z json :=
  fold_left (attach_step review_json) lines [].

(** The stack that a run leaves, top first: the stack after its last visit,
    the stack it was given when it visits nothing. *)
Definition stack_left (run : list Visit) (stack : list Z) : list Z :=
  last (map stack_after run) stack.

(** The payloads of the visits that attached at least one entry. *)
Definition payloads_of `{Collaborators} (review_json : dict str json)
    (run : list Visit) : list str :=
  map (fun v => hunk_payload (visited v) (review_of review_json (attached v)))
    (filter (fun v => match attached v with [] => false | _ => true end) run).

(** Every line number of the stack is the key of a review entry. *)
Definition keyed (review_json : dict str json) (stack : list Z) : Prop :=
  Forall (fun n => dict_mem str_eqb (str_of_int n) review_json = true) stack.

(** *** The budget (section 4.4) *)

(** The token cost of a payload with the prompt overhead. *)
Definition cost `{Collaborators} (chunk : str) : Z :=
  count_tokens (json_dumps_str chunk) + prompt_tokens.

Definition ceiling : Z := 2048.

(** The payloads that the merger produces over the marker groups, before
    any of them is measured. *)
Fixpoint merged_payloads `{Collaborators} (groups : list (list CodeChunk))
    (review_json : dict str json) (line_number_stack : list Z)
  : outcome (list str) :=
  match groups with
  | [] => Ok []
  | code_chunk :: groups' =>
      match line_number_stack with
      | [] => Ok []
      | _ :: _ =>
          '(chunk_payload, line_number_stack') <-
            parse_apply_review_per_code_hunk code_chunk review_json
              line_number_stack ;;
          rest <- merged_payloads groups' review_json line_number_stack' ;;
          Ok (chunk_payload ++ rest)
      end
  end.

(** A payload fits when its cost is at most the ceiling. *)
Definition fits `{Collaborators} (chunk : str) : bool := cost chunk <=? ceiling.

(** *** The fallback layers of a review request (section 7) *)

(** The response parsed as it is. *)
Definition layer_parse `{Collaborators} (text : str) : outcome json :=
  parse_review_result text.

(** The response stripped of its markdown code fences, then parsed. *)
Definition layer_strip_fences `{Collaborators} (text : str) : outcome json :=
  content <- extract_content_from_markdown_code_block (Some text) ;;
  parse_review_result content.

(** The response repaired as truncated JSON, then parsed. *)
Definition layer_repair `{Collaborators} (text : str) : outcome json :=
  repaired <- repair_truncated_json text ;;
  parse_review_result repaired.

(** A regenerated response requested from the service, stripped of its
    fences, then parsed. *)
Definition layer_regenerate `{Collaborators} (text : str) : outcome json :=
  regenerated <- send_repair_request text ;;
  content <- extract_content_from_markdown_code_block regenerated ;;
  parse_review_result content.

Definition fallback_layers `{Collaborators} (text : str)
  : list (outcome json) :=
  [layer_parse text; layer_strip_fences text; layer_repair text;
   layer_regenerate text].

(** A layer fails when it raises a [ValueError], succeeds when it returns. *)
Definition fails (layer : outcome json) : Prop := layer = Raise ValueError.

(** The layers tried in order: the result of the first one that does not
    fail, [None] when all of them fail. *)
Fixpoint first_success (layers : list (outcome json))
  : outcome (option json) :=
  match layers with
  | [] => Ok None
  | Ok review :: _ => Ok (Some review)
  | Raise ValueError :: layers' => first_success layers'
  | Raise e :: _ => Raise e
  end.

(** The response is [None] or the empty string. *)
Definition empty_response (response : option str) : Prop :=
  response = None \/ response = Some [].

(** *** Concrete collaborators and inputs, for the examples *)

Definition sample_collaborators : Collaborators :=
  {| json_loads := fun _ => Raise ValueError;
     json_dumps_review :=
       fun review =>
         concat (map (fun e => str_of_int (fst e) ++ lit ";") review);
     json_dumps_str := fun s => s;
     extract_content_from_markdown_code_block :=
       fun r => match r with Some s => Ok s | None => Raise TypeError end;
     repair_truncated_json := fun s => Ok s;
     send_review_request := fun _ => Ok None;
     send_repair_request := fun _ => Ok None;
     count_tokens := fun s => Z.of_nat (length s);
     prompt_tokens := 100;
     parse_string_to_int := int_of_digits |}.

(** Collaborators for which every payload measures 2500 tokens. *)
Definition heavy_collaborators : Collaborators :=
  {| json_loads := json_loads (Collaborators := sample_collaborators);
     json_dumps_review :=
       json_dumps_review (Collaborators := sample_collaborators);
     json_dumps_str := json_dumps_str (Collaborators := sample_collaborators);
     extract_content_from_markdown_code_block :=
       extract_content_from_markdown_code_block
         (Collaborators := sample_collaborators);
     repair_truncated_json :=
       repair_truncated_json (Collaborators := sample_collaborators);
     send_review_request :=
       send_review_request (Collaborators := sample_collaborators);
     send_repair_request :=
       send_repair_request (Collaborators := sample_collaborators);
     count_tokens := fun _ => 2500;
     prompt_tokens := 0;
     parse_string_to_int := int_of_digits |}.

Definition sample_entry (feedback : str) : json :=
  JObj [(lit "feedback", JStr feedback)].

(** Section 8: two entries at lines 10 and 20, one unit spanning 1 to 30. *)
Definition sample_review : dict str json :=
  [(lit "10", sample_entry (lit "rename"));
   (lit "20", sample_entry (lit "simplify"))].

(** Section 8: a review whose entry of line 5 mentions an unused
    variable. *)
Definition sample_mapping : ReviewMapping :=
  [(lit "a.py",
    [(lit "5", sample_entry (lit "Unused variable"));
     (lit "7", sample_entry (lit "looks fine"))])].

(** Section 8: the hunk [@@ -1,3 +1,4 @@] that adds one line. *)
Definition sample_body : list str :=
  [lit " a"; lit " b"; lit "+c"; lit " d"].

(** A diff of one file with the hunk of section 8, inside a function. *)
Definition one_file_diff : str :=
  lit "diff --git a/src/foo.py b/src/foo.py" ++ [LF]
  ++ lit "index 1..2 100644" ++ [LF]
  ++ lit "--- a/src/foo.py" ++ [LF]
  ++ lit "+++ b/src/foo.py" ++ [LF]
  ++ hunk_text (lit "@@ -1,3 +1,4 @@ def foo(x):") sample_body.

(** The text of the code unit of that hunk. *)
Definition one_file_code : str :=
  lit "@@ -1,3 +1,4 @@ def foo(x):" ++ [LF]
  ++ lit "1  a" ++ [LF] ++ lit "2  b" ++ [LF]
  ++ lit "3 +c" ++ [LF] ++ lit "4  d" ++ [LF].

(** A diff of nine files, each with one hunk that replaces one line. *)
Definition file_diff (name : str) : str :=
  lit "diff --git a/" ++ name ++ lit " b/" ++ name ++ [LF]
  ++ lit "index 1..2 100644" ++ [LF]
  ++ lit "--- a/" ++ name ++ [LF]
  ++ lit "+++ b/" ++ name ++ [LF]
  ++ lit "@@ -1,1 +1,1 @@" ++ [LF]
  ++ lit "-x" ++ [LF]
  ++ lit "+y" ++ [LF].

Definition nine_files : list str :=
  [lit "f1.py"; lit "f2.py"; lit "f3.py"; lit "f4.py"; lit "f5.py";
   lit "f6.py"; lit "f7.py"; lit "f8.py"; lit "f9.py"].

Definition nine_file_diff : str := concat (map file_diff nine_files).

Definition sample_unit : CodeChunk :=
  {| start_line := 1; end_line := 30; code := lit "@@ -1,30 +1,30 @@" |}.

(** A diff of two files: one hunk of [a.py], inside a function, that
    replaces one line and keeps the next, then the new file [b.py]. *)
Definition changed_body : list str := [lit "-x"; lit "+y"; lit " z"].

Definition new_file_diff : str :=
  lit "diff --git a/a.py b/a.py" ++ [LF]
  ++ lit "index 1111111..2222222 100644" ++ [LF]
  ++ lit "--- a/a.py" ++ [LF]
  ++ lit "+++ b/a.py" ++ [LF]
  ++ hunk_text (lit "@@ -10,2 +10,2 @@ def f():") changed_body
  ++ lit "diff --git a/b.py b/b.py" ++ [LF]
  ++ lit "new file mode 100644" ++ [LF]
  ++ lit "index 0000000..3333333" ++ [LF]
  ++ lit "--- /dev/null" ++ [LF]
  ++ lit "+++ b/b.py" ++ [LF]
  ++ hunk_text (lit "@@ -0,0 +1,2 @@") [lit "+v"; lit "+w"].

(** The code unit that [format_git_diff] makes of the hunk of [a.py] in
    that diff. *)
Definition new_file_unit : CodeChunk :=
  {| start_line := 10;
     end_line := 11;
     code :=
       lit "@@ -10,2 +10,2 @@ def f():" ++ [LF]
       ++ lit "10 +y" ++ [LF]
       ++ lit "11  z" ++ [LF]
       ++ lit "12 index 0000000..3333333" ++ [LF] |}.

(** A diff of one file whose last line has no line feed, before the change
    and after it. *)
Definition no_newline_body : list str :=
  [lit " x"; lit "-y"; lit "\ No newline at end of file";
   lit "+z"; lit "\ No newline at end of file"].

Definition no_newline_diff : str :=
  lit "diff --git a/a.py b/a.py" ++ [LF]
  ++ lit "index 1111111..2222222 100644" ++ [LF]
  ++ lit "--- a/a.py" ++ [LF]
  ++ lit "+++ b/a.py" ++ [LF]
  ++ hunk_text (lit "@@ -1,2 +1,2 @@") no_newline_body.

(** The code unit that [format_git_diff] makes of that hunk. *)
Definition no_newline_unit : CodeChunk :=
  {| start_line := 1;
     end_line := 2;
     code :=
       lit "@@ -1,2 +1,2 @@" ++ [LF]
       ++ lit "1  x" ++ [LF]
       ++ lit "2 \ No newline at end of file" ++ [LF]
       ++ lit "3 +z" ++ [LF]
       ++ lit "4 \ No newline at end of file" ++ [LF] |}.

(** Two responses of the service: an empty review inside a code fence, and
    the review of section 8, whose keys are line numbers. *)
Definition DQ : ascii := "034"%char.

Definition quoted (s : str) : str := [DQ] ++ s ++ [DQ].

Definition fenced_response : str :=
  lit "```json" ++ [LF] ++ lit "{}" ++ [LF] ++ lit "```".

Definition line_keys_response : str :=
  lit "{" ++ quoted (lit "5") ++ lit ": {" ++ quoted (lit "feedback")
  ++ lit ": " ++ quoted (lit "unused variable") ++ lit "}}".

(** Collaborators for a service that answers with [response]: [json.loads]
    reads the two JSON texts of these responses and raises on any other
    text, and the content of the fenced response is what its fence
    holds. *)
Definition service_collaborators (response : str) : Collaborators :=
  {| json_loads :=
       fun s =>
         if str_eqb s (lit "{}") then Ok (JObj [])
         else if str_eqb s line_keys_response
              then Ok (JObj [(lit "5", sample_entry (lit "unused variable"))])
              else Raise ValueError;
     json_dumps_review :=
       json_dumps_review (Collaborators := sample_collaborators);
     json_dumps_str := json_dumps_str (Collaborators := sample_collaborators);
     extract_content_from_markdown_code_block :=
       fun r =>
         match r with
         | Some s => if str_eqb s fenced_response then Ok (lit "{}") else Ok s
         | None => Raise TypeError
         end;
     repair_truncated_json := fun s => Ok s;
     send_review_request := fun _ => Ok (Some response);
     send_repair_request := fun _ => Ok None;
     count_tokens := fun s => Z.of_nat (length s);
     prompt_tokens := 100;
     parse_string_to_int := int_of_digits |}.

(** *** More vocabulary *)

(** The result of [format_git_diff] that records nothing. *)
Definition no_files : Locals :=
  {| diff_formatted := [];
     file_chunks := [];
     code_change_chunks := [];
     file_names := [];
     file_paths := [] |}.

(** The keys [0], [1], ... of [n] files. *)
Definition file_indices (n : nat) : list Z := map Z.of_nat (seq 0 n).

(** A diff whose one hunk header is followed, on its line, by text that
    makes a second header with the closing delimiter of the first. *)
Definition overlapping_header_diff : str :=
  LF :: lit "+++ b/x" ++ [LF] ++ lit "@@ -1,2 +3,4 @@ -5,6 +7,8 @@" ++ [LF].

(** The lines of a code change chunk that the loop numbers: those that
    start neither with the header mark nor with the removal mark. *)
Definition numbered_line (line : str) : bool :=
  negb (startswith (lit "@@ -") line) && negb (startswith (lit "-") line).

(** The code units of all the groups, group after group. *)
Definition units_in (groups : MarkerGroups) : list CodeChunk :=
  concat (values groups).

(** The lines that the loop over a code change chunk writes, the counter
    being at [n] for the next numbered line. *)
Fixpoint formatted_lines (n : Z) (lines : list str) : list str :=
  match lines with
  | [] => []
  | line :: lines' =>
      if startswith (lit "@@ -") line then line :: formatted_lines n lines'
      else if startswith (lit "-") line then formatted_lines n lines'
      else annotate n line :: formatted_lines (n + 1) lines'
  end.

(** A text read as lines that a line feed closes: the closed lines, each
    without its line feed, and what follows the last line feed.  [line] is
    the line being read, in reverse. *)
Fixpoint closed_lines_from (line : str) (s : str) : list str :=
  match s with
  | [] => []
  | c :: s' =>
      if is_lf c then rev line :: closed_lines_from [] s'
      else closed_lines_from (c :: line) s'
  end.

Fixpoint open_line_from (line : str) (s : str) : str :=
  match s with
  | [] => rev line
  | c :: s' =>
      if is_lf c then open_line_from [] s'
      else open_line_from (c :: line) s'
  end.

Definition closed_lines (s : str) : list str := closed_lines_from [] s.
Definition open_line (s : str) : str := open_line_from [] s.

(** The text of closed lines followed by an open line. *)
Definition join_lines (lines : list str) (last_line : str) : str :=
  concat (map (fun line => line ++ [LF]) lines) ++ last_line.

(** The line starts with [diff --git]. *)
Definition is_diff_git_line (line : str) : bool :=
  startswith (lit "diff --git") line.

(** The state of [format_git_diff] while the file of index [n] is being
    formatted: its entries are the last of the two dictionaries. *)
Definition open_file (n : nat) (st : Locals) : Prop :=
  exists chunks text groups group,
    file_chunks st = chunks ++ [(Z.of_nat n, text)]
    /\ keys chunks = file_indices n
    /\ code_change_chunks st = groups ++ [(Z.of_nat n, group)]
    /\ keys groups = file_indices n
    /\ length (file_names st) = S n
    /\ length (file_paths st) = S n
    /\ diff_formatted st = concat (values chunks) ++ text.

(** The files of a result are aligned: the two dictionaries have the keys
    [0] to [n - 1], in this order, and the two lists have [n] elements. *)
Definition aligned (n : nat) (st : Locals) : Prop :=
  keys (file_chunks st) = file_indices n
  /\ keys (code_change_chunks st) = file_indices n
  /\ length (file_names st) = n
  /\ length (file_paths st) = n.

End Spec.

(** * Properties *)

Import Formatter Reviewer Spec.

(** A fact about one character, checked on every character. *)
Ltac by_cases_on_char c :=
  destruct c as [[] [] [] [] [] [] [] []]; vm_compute; try reflexivity;
  try discriminate; auto.

(** ** Strings *)

Lemma ascii_eqb_true (a b : ascii) : Ascii.eqb a b = true <-> a = b.
Proof. apply Ascii.eqb_eq. Qed.

Lemma str_eqb_eq (a b : str) : str_eqb a b = true <-> a = b.
Proof.
  revert b; induction a as [|x a IH]; intros [|y b]; simpl;
    try (split; [discriminate | discriminate]); try tauto.
  rewrite andb_true_iff, Ascii.eqb_eq, IH.
  split; [intros [-> ->]; reflexivity | intros [= -> ->]; auto].
Qed.

Lemma str_eqb_refl (a : str) : str_eqb a a = true.
Proof. apply str_eqb_eq; reflexivity. Qed.


Lemma after_prefix_iff (p s rest : str) :
  after_prefix p s = Some rest <-> s = p ++ rest.
Proof.
  revert s; induction p as [|a p IH]; intros s; simpl.
  - split; [intros [= ->]; reflexivity | intros ->; reflexivity].
  - destruct s as [|b s]; [split; discriminate|].
    destruct (Ascii.eqb a b) eqn:E.
    + apply Ascii.eqb_eq in E; subst b. rewrite IH.
      split; [intros ->; reflexivity | intros [= ->]; reflexivity].
    + split; [discriminate|]. intros [= -> _].
      rewrite Ascii.eqb_refl in E. discriminate.
Qed.

Lemma after_prefix_app (p rest : str) : after_prefix p (p ++ rest) = Some rest.
Proof. apply after_prefix_iff; reflexivity. Qed.

Lemma startswith_after_prefix (p s : str) :
  startswith p s = match after_prefix p s with Some _ => true | None => false end.
Proof.
  revert s; induction p as [|a p IH]; intros [|b s]; simpl; auto.
  destruct (Ascii.eqb a b); simpl; auto.
Qed.

Lemma startswith_iff (p s : str) :
  startswith p s = true <-> exists rest, s = p ++ rest.
Proof.
  rewrite startswith_after_prefix.
  destruct (after_prefix p s) as [rest|] eqn:E.
  - apply after_prefix_iff in E. split; eauto.
  - split; [discriminate|]. intros [rest Hr].
    apply after_prefix_iff in Hr. congruence.
Qed.

Lemma startswith_app (p rest : str) : startswith p (p ++ rest) = true.
Proof. apply startswith_iff; eauto. Qed.

Lemma contains_iff (sub s : str) :
  contains sub s = true <-> exists before after, s = before ++ sub ++ after.
Proof.
  induction s as [|c s IH]; simpl; rewrite orb_true_iff, startswith_iff.
  - split.
    + intros [[rest Hr] | H]; [|discriminate]. exists [], rest. exact Hr.
    + intros (before & after & H). left.
      destruct before; simpl in H.
      * eauto.
      * discriminate.
  - rewrite IH. split.
    + intros [[rest Hr] | (before & after & H)].
      * exists [], rest. exact Hr.
      * exists (c :: before), after. simpl. congruence.
    + intros (before & after & H). destruct before as [|b before]; simpl in H.
      * left; eauto.
      * right. injection H as _ H. eauto.
Qed.

(** ** The merger *)

Section Merger.
Context `{Collaborators}.

Lemma in_hunk_iff (unit : CodeChunk) (n : Z) :
  in_hunk unit n = true
  <-> start_line unit <= n < start_line unit + end_line unit.
Proof. unfold in_hunk. rewrite andb_true_iff, Z.leb_le, Z.ltb_lt. tauto. Qed.

Lemma item_raises {K V : Type} (eqb : K -> K -> bool) (k : K) (d : dict K V)
    (e : exn) :
  item eqb k d = Raise e -> e = KeyError.
Proof. unfold item. destruct (dict_get eqb k d); congruence. Qed.

Lemma attach_while_raises review_json unit stack :
  forall review_per_chunk line_number e,
    attach_while review_json unit review_per_chunk line_number stack = Raise e
    -> e = KeyError.
Proof.
  induction stack as [|next stack IH]; intros d n e; simpl;
    destruct (in_hunk unit n); try discriminate;
    destruct (item str_eqb (str_of_int n) review_json) eqn:E; simpl;
    try discriminate.
  - intros [= <-]. eapply item_raises; eauto.
  - apply IH.
  - intros [= <-]. eapply item_raises; eauto.
Qed.

Lemma merge_hunks_raises review_json code_changes :
  forall payload line_number stack e,
    merge_hunks review_json code_changes payload line_number stack = Raise e
    -> e = KeyError.
Proof.
  induction code_changes as [|unit units IH]; intros payload n stack e; simpl.
  - discriminate.
  - destruct (attach_while review_json unit [] n stack)
      as [[[d n'] stack']|e'] eqn:E; simpl.
    + destruct stack'; [discriminate | apply IH].
    + intros [= <-]. eapply attach_while_raises; eauto.
Qed.

Lemma parse_apply_raises code_changes review_json n stack e :
  parse_apply_review_per_code_hunk code_changes review_json (n :: stack)
  = Raise e -> e = KeyError.
Proof.
  unfold parse_apply_review_per_code_hunk.
  destruct (rev (n :: stack)) as [|top rest] eqn:E.
  - apply (f_equal (@length Z)) in E. rewrite length_rev in E. discriminate.
  - destruct (merge_hunks review_json code_changes [] top rest)
      as [[payload stack']|e'] eqn:M; simpl; [discriminate|].
    intros [= <-]. eapply merge_hunks_raises; eauto.
Qed.

Lemma collect_code_chunks_raises groups review_json :
  forall stack acc e,
    collect_code_chunks groups review_json stack acc = Raise e -> e = KeyError.
Proof.
  induction groups as [|g groups IH]; intros stack acc e; simpl.
  - discriminate.
  - destruct stack as [|n stack]; [discriminate|].
    destruct (parse_apply_review_per_code_hunk g review_json (n :: stack))
      as [[payload stack']|e'] eqn:E; simpl.
    + apply IH.
    + intros [= <-]. eapply parse_apply_raises; eauto.
Qed.

End Merger.

(** ** The run of the merger *)

Section MergerRun.
Context `{Collaborators}.

Lemma dict_set_not_nil {K V : Type} (eqb : K -> K -> bool) k (v : V) d :
  dict_set eqb k v d <> [].
Proof. destruct d as [|[k' v'] d]; simpl; [|destruct (eqb k k')]; discriminate. Qed.

Lemma fold_attach_step_not_nil review_json lines :
  forall d, d <> [] -> fold_left (attach_step review_json) lines d <> [].
Proof.
  induction lines as [|n lines IH]; intros d Hd; simpl; auto.
  apply IH. unfold attach_step.
  destruct (dict_get str_eqb (str_of_int n) review_json); auto.
  apply dict_set_not_nil.
Qed.

Lemma review_of_nil_iff review_json lines :
  keyed review_json lines -> (review_of review_json lines = [] <-> lines = []).
Proof.
  intros Hk. split; [|intros ->; reflexivity].
  destruct lines as [|n lines]; auto. intros Hr. exfalso.
  inversion Hk as [|? ? Hn _]; subst. unfold dict_mem in Hn.
  revert Hr. unfold review_of. simpl.
  apply fold_attach_step_not_nil. unfold attach_step.
  destruct (dict_get str_eqb (str_of_int n) review_json);
    [simpl | ]; discriminate.
Qed.

Lemma attached_while_cases unit stack :
  forall n lines n' stack',
    attached_while unit n stack = (lines, n', stack') ->
    Forall (fun m => in_hunk unit m = true) lines
    /\ ((n :: stack = lines ++ n' :: stack' /\ in_hunk unit n' = false)
        \/ (n :: stack = lines /\ stack' = [])).
Proof.
  induction stack as [|next stack IH]; intros n lines n' stack'; simpl;
    destruct (in_hunk unit n) eqn:E.
  - intros [= <- <- <-]. split; [repeat constructor; exact E | right; auto].
  - intros [= <- <- <-]. split; [constructor | left; auto].
  - destruct (attached_while unit next stack) as [[more n''] stack''] eqn:A.
    intros [= <- <- <-]. destruct (IH _ _ _ _ A) as [Hall Hcase].
    split; [constructor; assumption|].
    destruct Hcase as [[Heq Hout] | [Heq Hnil]].
    + left. split; [simpl; rewrite Heq; reflexivity | exact Hout].
    + right. split; [rewrite Heq; reflexivity | exact Hnil].
  - intros [= <- <- <-]. split; [constructor | left; auto].
Qed.

Lemma attach_while_run review_json unit stack :
  forall review_per_chunk n,
    keyed review_json (n :: stack) ->
    attach_while review_json unit review_per_chunk n stack
    = let '(lines, n', stack') := attached_while unit n stack in
      Ok (fold_left (attach_step review_json) lines review_per_chunk,
          n', stack').
Proof.
  induction stack as [|next stack IH]; intros d n Hk; simpl;
    destruct (in_hunk unit n) eqn:E; try reflexivity;
    inversion Hk as [|? ? Hn Hk']; subst; unfold dict_mem in Hn;
    unfold item, attach_step at 1;
    destruct (dict_get str_eqb (str_of_int n) review_json) as [entry|] eqn:G;
    try discriminate; simpl.
  - unfold attach_step. rewrite G. reflexivity.
  - rewrite (IH _ _ Hk').
    destruct (attached_while unit next stack) as [[more n''] stack''].
    simpl. rewrite G. reflexivity.
Qed.

Lemma keyed_app review_json (l1 l2 : list Z) :
  keyed review_json (l1 ++ l2)
  <-> keyed review_json l1 /\ keyed review_json l2.
Proof. apply Forall_app. Qed.

Lemma review_of_cons review_json l lines :
  keyed review_json (l :: lines) ->
  exists e d, review_of review_json (l :: lines) = e :: d.
Proof.
  intros Hk. destruct (review_of review_json (l :: lines)) as [|e d] eqn:R.
  - apply review_of_nil_iff in R; [discriminate | exact Hk].
  - eauto.
Qed.

Lemma last_cons {A : Type} (x d : A) (l : list A) :
  last (x :: l) d = last l x.
Proof.
  revert x d; induction l as [|y l IH]; intros x d; [reflexivity|].
  change (last (x :: y :: l) d) with (last (y :: l) d).
  rewrite (IH y d), (IH y x). reflexivity.
Qed.

Lemma stack_left_cons v run stack :
  stack_left (v :: run) stack = stack_left run (stack_after v).
Proof. unfold stack_left. simpl map. apply last_cons. Qed.

Lemma payloads_of_cons review_json v run :
  payloads_of review_json (v :: run)
  = match attached v with
    | [] => []
    | _ :: _ => [hunk_payload (visited v) (review_of review_json (attached v))]
    end ++ payloads_of review_json run.
Proof.
  unfold payloads_of. simpl. destruct (attached v) eqn:E; simpl;
    rewrite ?E; reflexivity.
Qed.

Lemma merge_hunks_run review_json units :
  forall payload n stack,
    keyed review_json (n :: stack) ->
    merge_hunks review_json units payload n stack
    = Ok (payload ++ payloads_of review_json (visits units n stack),
          stack_left (visits units n stack) stack).
Proof.
  induction units as [|unit units IH]; intros payload n stack Hk; simpl.
  - unfold payloads_of, stack_left. simpl. rewrite app_nil_r. reflexivity.
  - rewrite attach_while_run by exact Hk.
    destruct (attached_while unit n stack) as [[lines n'] stack'] eqn:A.
    destruct (attached_while_cases _ _ _ _ _ _ A) as [_ Hcase].
    assert (Hkl : keyed review_json lines).
    { destruct Hcase as [[Heq _] | [Heq _]]; rewrite Heq in Hk;
        [apply keyed_app in Hk; tauto | exact Hk]. }
    fold (review_of review_json lines).
    rewrite payloads_of_cons, stack_left_cons. cbn [bind visited attached stack_after].
    assert (Hpay :
      match review_of review_json lines with
      | [] => payload
      | _ :: _ => payload ++ [hunk_payload unit (review_of review_json lines)]
      end
      = payload ++ match lines with
                   | [] => []
                   | _ :: _ => [hunk_payload unit (review_of review_json lines)]
                   end).
    { destruct lines as [|l lines]; [simpl; rewrite app_nil_r; reflexivity|].
      destruct (review_of_cons _ _ _ Hkl) as (e & d & R). rewrite R.
      reflexivity. }
    rewrite Hpay. destruct stack' as [|top stack'].
    + unfold payloads_of, stack_left. simpl. rewrite app_nil_r. reflexivity.
    + assert (Hk' : keyed review_json (n' :: top :: stack')).
      { destruct Hcase as [[Heq _] | [_ Hn]]; [|discriminate].
        rewrite Heq in Hk. apply keyed_app in Hk. tauto. }
      rewrite (IH _ _ _ Hk'), <- app_assoc. reflexivity.
Qed.

(** The order in which the numbers leave the stack: the numbers attached
    to the visited units, unit after unit, then at most one number that was
    popped and attached to no unit, then what the run leaves. *)
Lemma visits_pop_order units :
  forall n stack,
    exists leftover,
      (length leftover <= 1)%nat
      /\ n :: stack
         = concat (map attached (visits units n stack)) ++ leftover
           ++ stack_left (visits units n stack) stack.
Proof.
  induction units as [|unit units IH]; intros n stack; simpl.
  - exists [n]. split; [simpl; lia | reflexivity].
  - destruct (attached_while unit n stack) as [[lines n'] stack'] eqn:A.
    destruct (attached_while_cases _ _ _ _ _ _ A) as [_ Hcase].
    rewrite stack_left_cons. cbn [map concat attached stack_after].
    destruct stack' as [|top stack'].
    + destruct Hcase as [[Heq _] | [Heq _]].
      * exists [n']. split; [simpl; lia|].
        rewrite Heq. unfold stack_left. simpl. rewrite app_nil_r. reflexivity.
      * exists []. split; [simpl; lia|].
        rewrite Heq. unfold stack_left. simpl. rewrite !app_nil_r. reflexivity.
    + destruct Hcase as [[Heq _] | [_ Hn]]; [|discriminate].
      destruct (IH n' (top :: stack')) as (leftover & Hlen & Hpop).
      exists leftover. split; [exact Hlen|].
      rewrite Heq, Hpop at 1. rewrite <- !app_assoc. reflexivity.
Qed.

(** The same account at every visit of the run; the number that is popped
    and not attached, if any, fails the test of the visited unit. *)
Lemma visits_pop_order_at units :
  forall n stack k v,
    nth_error (visits units n stack) k = Some v ->
    exists pending,
      (length pending <= 1)%nat
      /\ Forall (fun m => in_hunk (visited v) m = false) pending
      /\ n :: stack
         = concat (map attached (firstn (S k) (visits units n stack)))
           ++ pending ++ stack_after v.
Proof.
  induction units as [|unit units IH]; intros n stack k v; simpl.
  - destruct k; discriminate.
  - destruct (attached_while unit n stack) as [[lines n'] stack'] eqn:A.
    destruct (attached_while_cases _ _ _ _ _ _ A) as [_ Hcase].
    destruct k as [|k]; simpl.
    + intros [= <-]. cbn [attached stack_after visited].
      destruct Hcase as [[Heq Hout] | [Heq Hn]].
      * exists [n']. split; [simpl; lia|].
        split; [repeat constructor; exact Hout|].
        rewrite Heq. destruct stack'; simpl; rewrite app_nil_r; reflexivity.
      * exists []. split; [simpl; lia|]. split; [constructor|]. subst stack'.
        rewrite Heq. simpl. rewrite !app_nil_r. reflexivity.
    + destruct stack' as [|top stack']; [destruct k; discriminate|].
      intros Hv. destruct Hcase as [[Heq _] | [_ Hn]]; [|discriminate].
      destruct (IH _ _ _ _ Hv) as (pending & Hlen & Hout & Hpop).
      exists pending. split; [exact Hlen|]. split; [exact Hout|].
      rewrite Heq. cbn [attached]. rewrite <- app_assoc. f_equal. exact Hpop.
Qed.

Lemma visits_prefix units :
  forall n stack,
    map visited (visits units n stack)
    = firstn (length (visits units n stack)) units.
Proof.
  induction units as [|unit units IH]; intros n stack; simpl; auto.
  destruct (attached_while unit n stack) as [[lines n'] stack'].
  simpl. f_equal. destruct stack'; [reflexivity | apply IH].
Qed.

Lemma visits_attached_in_hunk units :
  forall n stack,
    Forall (fun v => Forall (fun m => in_hunk (visited v) m = true)
                       (attached v))
      (visits units n stack).
Proof.
  induction units as [|unit units IH]; intros n stack; simpl; auto.
  destruct (attached_while unit n stack) as [[lines n'] stack'] eqn:A.
  destruct (attached_while_cases _ _ _ _ _ _ A) as [Hall _].
  constructor; [exact Hall|]. destruct stack'; [constructor | apply IH].
Qed.

Lemma visits_stop units :
  forall n stack,
    stack_left (visits units n stack) stack = []
    \/ length (visits units n stack) = length units.
Proof.
  induction units as [|unit units IH]; intros n stack; simpl; auto.
  destruct (attached_while unit n stack) as [[lines n'] stack'].
  rewrite stack_left_cons. cbn [stack_after]. destruct stack' as [|top stack'].
  - left. reflexivity.
  - destruct (IH n' (top :: stack')) as [Hl | Hl]; [left | right]; simpl;
      congruence.
Qed.

Lemma visits_go_on units :
  forall n stack,
    Forall (fun v => stack_after v <> []) (removelast (visits units n stack)).
Proof.
  induction units as [|unit units IH]; intros n stack; simpl; auto.
  destruct (attached_while unit n stack) as [[lines n'] stack'].
  destruct stack' as [|top stack']; [constructor|].
  specialize (IH n' (top :: stack')).
  destruct (visits units n' (top :: stack')) as [|v run] eqn:V.
  - constructor.
  - change (removelast (?a :: v :: run)) with (a :: removelast (v :: run)).
    constructor; [discriminate | exact IH].
Qed.

End MergerRun.

(** ** The merger: what the claims say *)

(** C1 (the code departs from the claim).  The merger tests a line number
    with [start_line <= n < start_line + end_line], not with the closed
    interval [[start_line, end_line]]: a unit spanning lines 10 to 12
    receives the entry of line 15, and a degenerate unit, whose [end_line]
    is below its [start_line], receives the entry of line 10. *)
Theorem merger_attaches_beyond_end_line :
  forall `{Collaborators} (entry : json) (text : str),
    let unit := {| start_line := 10; end_line := 12; code := text |} in
    let degenerate := {| start_line := 10; end_line := 9; code := text |} in
    end_line unit < 15
    /\ parse_apply_review_per_code_hunk [unit] [(lit "15", entry)] [15]
       = Ok ([hunk_payload unit [(15, entry)]], [])
    /\ end_line degenerate < start_line degenerate
    /\ parse_apply_review_per_code_hunk [degenerate] [(lit "10", entry)] [10]
       = Ok ([hunk_payload degenerate [(10, entry)]], []).
Proof.
  intros C entry text unit degenerate.
  repeat split; try (simpl; lia); reflexivity.
Qed.

(** C6 (the code departs from the claim).  An entry that lies in the closed
    interval of a unit is attached to another unit: of the units spanning
    lines 10 to 12 and 15 to 18 and the entries of lines 11 and 16, whose
    stack is [[16; 11]], the first unit receives both entries, because its
    test is [start_line <= n < start_line + end_line], and the second unit
    receives none. *)
Theorem merger_attaches_to_another_unit :
  forall `{Collaborators} (e11 e16 : json) (text1 text2 : str),
    let first := {| start_line := 10; end_line := 12; code := text1 |} in
    let second := {| start_line := 15; end_line := 18; code := text2 |} in
    in_closed_interval second 16
    /\ ~ in_closed_interval first 16
    /\ parse_apply_review_per_code_hunk [first; second]
         [(lit "11", e11); (lit "16", e16)] [16; 11]
       = Ok ([hunk_payload first [(11, e11); (16, e16)]], []).
Proof.
  intros C e11 e16 text1 text2 first second.
  split; [|split].
  - unfold in_closed_interval; simpl; lia.
  - unfold in_closed_interval; simpl; lia.
  - reflexivity.
Qed.

(** What holds of every call of the merger on a stack that is not empty and
    whose line numbers are keys of the review.  The call returns the
    payloads of its run, the sequence [visits] of the units it reaches, and
    leaves the stack of that run.  The numbers leave the stack in one pass
    (first the numbers attached to the visited units, unit after unit, then
    at most one number popped and attached to nothing, then the numbers
    that stay on the stack), at every visit as at the end, so that no
    number is popped twice and none is attached to two units; the visited
    units are the first units, in order; the numbers attached at a visit
    pass the test of its unit and the first that fails it ends the visit;
    the run ends with an empty stack or after the last unit, and no visit
    before the last leaves an empty stack. *)
Lemma merger_run_is_one_pass :
  forall `{Collaborators} (code_changes : list CodeChunk)
         (review_json : dict str json) (line_number_stack : list Z)
         (n : Z) (stack : list Z),
    rev line_number_stack = n :: stack ->
    keyed review_json line_number_stack ->
    let run := visits code_changes n stack in
    parse_apply_review_per_code_hunk code_changes review_json
      line_number_stack
    = Ok (payloads_of review_json run, rev (stack_left run stack))
    /\ (exists leftover,
          (length leftover <= 1)%nat
          /\ n :: stack
             = concat (map attached run) ++ leftover ++ stack_left run stack)
    /\ (forall k v,
          nth_error run k = Some v ->
          exists pending,
            (length pending <= 1)%nat
            /\ Forall (fun n => in_hunk (visited v) n = false) pending
            /\ n :: stack
               = concat (map attached (firstn (S k) run))
                 ++ pending ++ stack_after v)
    /\ map visited run = firstn (length run) code_changes
    /\ Forall (fun v => Forall (fun n => in_hunk (visited v) n = true)
                          (attached v)) run
    /\ (stack_left run stack = [] \/ length run = length code_changes)
    /\ Forall (fun v => stack_after v <> []) (removelast run)
    /\ (NoDup line_number_stack -> NoDup (concat (map attached run))).
Proof.
  intros C units review_json pystack n stack R Hk run.
  assert (Hk' : keyed review_json (n :: stack)).
  { rewrite <- R. apply Forall_rev. exact Hk. }
  destruct (visits_pop_order units n stack) as (leftover & Hlen & Hpop).
  unfold parse_apply_review_per_code_hunk. rewrite R.
  rewrite (merge_hunks_run review_json units [] n stack Hk').
  split; [reflexivity|]. split; [|split; [|split; [|split; [|split; [|split]]]]].
  - exists leftover. split; [exact Hlen | exact Hpop].
  - intros k v Hv. apply (visits_pop_order_at units n stack k v Hv).
  - apply visits_prefix.
  - apply visits_attached_in_hunk.
  - apply visits_stop.
  - apply visits_go_on.
  - intros Hnd. apply NoDup_rev in Hnd. rewrite R, Hpop in Hnd.
    apply NoDup_app_remove_r in Hnd. exact Hnd.
Qed.

(** The number popped last stays unattached when it fails the test of the
    unit that is visited as the stack runs empty: of the entries of lines 3
    and 12 and the units spanning 1 to 5 and 10 to 20, only the first unit
    gets a payload. *)
Example merger_leaves_the_last_popped_unattached :
  forall `{Collaborators} (e3 e12 : json),
    let first := {| start_line := 1; end_line := 5; code := lit "a" |} in
    let second := {| start_line := 10; end_line := 20; code := lit "b" |} in
    parse_apply_review_per_code_hunk [first; second]
      [(lit "3", e3); (lit "12", e12)] [12; 3]
    = Ok ([hunk_payload first [(3, e3)]], []).
Proof. reflexivity. Qed.

(** C10.  The merger pops the stack before it looks at any unit: on an
    empty stack it raises [IndexError], and with no unit at all the top of
    the stack is gone when it returns.  The loop of [apply_review] calls it
    on a stack that is not empty only, so that the loop returns or raises
    the [KeyError] of a missing review entry, never the [IndexError]. *)
Theorem merger_pop_is_guarded_by_caller :
  forall `{Collaborators},
    (forall code_changes review_json,
        parse_apply_review_per_code_hunk code_changes review_json []
        = Raise IndexError)
    /\ (forall review_json stack n,
          parse_apply_review_per_code_hunk [] review_json (stack ++ [n])
          = Ok ([], stack))
    /\ (forall groups review_json line_number_stack chunks,
          (exists result,
              collect_code_chunks groups review_json line_number_stack chunks
              = Ok result)
          \/ collect_code_chunks groups review_json line_number_stack chunks
             = Raise KeyError)
    /\ (forall review_json selection_marker_chunks,
          (exists result,
              code_chunks_to_review review_json selection_marker_chunks
              = Ok result)
          \/ code_chunks_to_review review_json selection_marker_chunks
             = Raise KeyError).
Proof.
  intros C.
  assert (Hloop : forall groups review_json line_number_stack chunks,
             (exists result,
                 collect_code_chunks groups review_json line_number_stack
                   chunks = Ok result)
             \/ collect_code_chunks groups review_json line_number_stack
                   chunks = Raise KeyError).
  { intros groups review_json stack chunks.
    destruct (collect_code_chunks groups review_json stack chunks)
      as [result|e] eqn:E; [left; eauto | right].
    apply collect_code_chunks_raises in E. congruence. }
  split; [|split; [|split]].
  - intros; reflexivity.
  - intros review_json stack n. unfold parse_apply_review_per_code_hunk.
    rewrite rev_app_distr. simpl. rewrite rev_involutive. reflexivity.
  - exact Hloop.
  - intros. apply Hloop.
Qed.

(** ** The budget *)

Section Budget.
Context `{Collaborators}.

Lemma add_fitting_chunks_filter (payload : list str) :
  forall chunks, add_fitting_chunks chunks payload = chunks ++ filter fits payload.
Proof.
  unfold add_fitting_chunks.
  induction payload as [|chunk payload IH]; intros chunks; simpl.
  - rewrite app_nil_r. reflexivity.
  - rewrite IH. unfold fits at 2, cost, ceiling.
    destruct (count_tokens (json_dumps_str chunk) + prompt_tokens <=? 2048).
    + rewrite <- app_assoc. reflexivity.
    + reflexivity.
Qed.

Lemma collect_code_chunks_filter groups review_json :
  forall line_number_stack chunks,
    collect_code_chunks groups review_json line_number_stack chunks
    = (payloads <- merged_payloads groups review_json line_number_stack ;;
       Ok (chunks ++ filter fits payloads)).
Proof.
  induction groups as [|g groups IH]; intros stack chunks; simpl.
  - rewrite app_nil_r. reflexivity.
  - destruct stack as [|n stack]; [simpl; rewrite app_nil_r; reflexivity|].
    destruct (parse_apply_review_per_code_hunk g review_json (n :: stack))
      as [[payload stack']|e]; simpl; [|reflexivity].
    rewrite IH, add_fitting_chunks_filter.
    destruct (merged_payloads groups review_json stack') as [rest|e]; simpl;
      [|reflexivity].
    rewrite filter_app, app_assoc. reflexivity.
Qed.

End Budget.

(** C5.  The submission batches of [apply_review] are the payloads of the
    merger, taken over the marker groups in their order, that cost at most
    2048 tokens with the prompt overhead, in their original order: a payload
    is among the batches if and only if the merger produced it and it fits,
    and a payload above the ceiling is in no batch.  When the merger raises,
    so does the loop, with the same exception. *)
Theorem budget_splitter_keeps_the_fitting_payloads :
  forall `{Collaborators} (review_json : dict str json)
         (selection_marker_chunks : MarkerGroups),
    match merged_payloads (values selection_marker_chunks) review_json
            (make_line_number_stack review_json),
          code_chunks_to_review review_json selection_marker_chunks with
    | Ok payloads, Ok batches =>
        batches = filter fits payloads
        /\ (forall chunk,
              In chunk batches <-> In chunk payloads /\ cost chunk <= 2048)
        /\ (forall chunk, 2048 < cost chunk -> ~ In chunk batches)
    | Raise e, Raise e' => e = e'
    | _, _ => False
    end.
Proof.
  intros C review_json groups. unfold code_chunks_to_review.
  rewrite collect_code_chunks_filter.
  destruct (merged_payloads (values groups) review_json
              (make_line_number_stack review_json)) as [payloads|e]; simpl;
    [|reflexivity].
  assert (Hin : forall chunk,
             In chunk (filter fits payloads)
             <-> In chunk payloads /\ cost chunk <= 2048).
  { intros chunk. rewrite filter_In. unfold fits, ceiling.
    rewrite Z.leb_le. tauto. }
  split; [reflexivity | split; [exact Hin|]].
  intros chunk Hbig Hc. apply Hin in Hc. lia.
Qed.

(** Section 8: a payload that measures 2500 tokens is in no batch, and the
    same payload is the one batch when it measures less than the ceiling. *)
Example budget_splitter_drops_2500_tokens :
  merged_payloads (H := heavy_collaborators) [[sample_unit]] sample_review
    [20; 10]
  = Ok [hunk_payload (H := heavy_collaborators) sample_unit
          [(10, sample_entry (lit "rename"));
           (20, sample_entry (lit "simplify"))]]
  /\ code_chunks_to_review (H := heavy_collaborators) sample_review
       [([], [sample_unit])]
     = Ok []
  /\ code_chunks_to_review (H := sample_collaborators) sample_review
       [([], [sample_unit])]
     = Ok [hunk_payload (H := sample_collaborators) sample_unit
             [(10, sample_entry (lit "rename"));
              (20, sample_entry (lit "simplify"))]].
Proof. repeat split. Qed.

(** ** The review request *)

Section Request.
Context `{Collaborators}.

Lemma bind_assoc {A B C : Type} (m : outcome A) (f : A -> outcome B)
    (g : B -> outcome C) :
  bind (bind m f) g = bind m (fun a => bind (f a) g).
Proof. destruct m; reflexivity. Qed.

Lemma except_first_success (layer : outcome json)
    (layers : list (outcome json)) :
  except_ValueError (review <- layer ;; Ok (Some review))
    (fun _ => first_success layers)
  = first_success (layer :: layers).
Proof. destruct layer as [review|[]]; reflexivity. Qed.

Lemma except_ValueError_ext {A : Type} (m1 m2 : outcome A)
    (h1 h2 : unit -> outcome A) :
  m1 = m2 -> h1 tt = h2 tt ->
  except_ValueError m1 h1 = except_ValueError m2 h2.
Proof. intros -> Hh. destruct m2 as [a|[]]; simpl; congruence. Qed.

Lemma request_review_layers (code_to_review : str) :
  request_review code_to_review
  = (response <- send_review_request code_to_review ;;
     match response with
     | None | Some [] => Ok None
     | Some text => first_success (fallback_layers text)
     end).
Proof.
  unfold request_review.
  destruct (send_review_request code_to_review) as [[text|]|e];
    cbn [bind]; try reflexivity.
  destruct text as [|c text]; [reflexivity|].
  unfold fallback_layers.
  rewrite <- except_first_success.
  apply except_ValueError_ext; [reflexivity|].
  rewrite <- except_first_success.
  apply except_ValueError_ext;
    [unfold layer_strip_fences; symmetry; apply bind_assoc|].
  rewrite <- except_first_success.
  apply except_ValueError_ext;
    [unfold layer_repair; symmetry; apply bind_assoc|].
  rewrite <- except_first_success.
  apply except_ValueError_ext; [|reflexivity].
  unfold layer_regenerate. rewrite bind_assoc.
  destruct (send_repair_request (c :: text)) as [regenerated|e];
    [|reflexivity].
  cbn [bind]. symmetry. apply bind_assoc.
Qed.

Lemma first_success_None (layers : list (outcome json)) :
  first_success layers = Ok None <-> Forall fails layers.
Proof.
  induction layers as [|layer layers IH]; simpl.
  - split; [constructor | reflexivity].
  - destruct layer as [review|e].
    + split; [discriminate | intros Hf; inversion Hf; discriminate].
    + destruct e; try (split; [discriminate |
                               intros Hf; inversion Hf; discriminate]).
      rewrite IH. split.
      * intros Hf. constructor; [reflexivity | exact Hf].
      * intros Hf. inversion Hf; assumption.
Qed.

Lemma first_success_Some (layers : list (outcome json)) (review : json) :
  first_success layers = Ok (Some review)
  <-> exists failed rest,
        layers = failed ++ Ok review :: rest /\ Forall fails failed.
Proof.
  induction layers as [|layer layers IH]; simpl.
  - split; [discriminate|]. intros (failed & rest & Heq & _).
    destruct failed; discriminate.
  - destruct layer as [review'|e].
    + split.
      * intros [= ->]. exists [], layers. split; [reflexivity | constructor].
      * intros (failed & rest & Heq & Hf). destruct failed as [|f failed].
        -- injection Heq as -> _. reflexivity.
        -- injection Heq as <- _. inversion Hf; discriminate.
    + assert (Hno : forall failed rest,
                 Raise e :: layers = failed ++ Ok review :: rest ->
                 Forall fails failed ->
                 e = ValueError
                 /\ exists failed', failed = Raise ValueError :: failed'
                                    /\ layers = failed' ++ Ok review :: rest
                                    /\ Forall fails failed').
      { intros failed rest Heq Hf. destruct failed as [|f failed].
        - discriminate.
        - injection Heq as <- Heq. inversion Hf as [|? ? Hfe Hf']; subst.
          unfold fails in Hfe. injection Hfe as ->. eauto. }
      destruct e;
        try (split; [discriminate |
                     intros (failed & rest & Heq & Hf);
                     destruct (Hno _ _ Heq Hf) as [He _]; discriminate]).
      rewrite IH. split.
      * intros (failed & rest & -> & Hf).
        exists (Raise ValueError :: failed), rest.
        split; [reflexivity | constructor; [reflexivity | exact Hf]].
      * intros (failed & rest & Heq & Hf).
        destruct (Hno _ _ Heq Hf) as (_ & failed' & -> & -> & Hf').
        eauto.
Qed.

End Request.

(** C7.  [request_review] returns [None] on an empty response; otherwise it
    tries, in this order, the response as it is, the response stripped of
    its code fences, the response repaired as truncated JSON and a
    regenerated response, each parsed as a review, and returns the review of
    the first layer that does not fail.  It returns a review if and only if
    a layer succeeds after every layer before it has failed, and it returns
    [None] if and only if the response is empty or all four layers fail. *)
Theorem request_review_falls_back_in_order :
  forall `{Collaborators} (code_to_review : str),
    (request_review code_to_review
     = (response <- send_review_request code_to_review ;;
        match response with
        | None | Some [] => Ok None
        | Some text =>
            first_success
              [layer_parse text; layer_strip_fences text; layer_repair text;
               layer_regenerate text]
        end))
    /\ (forall review,
          request_review code_to_review = Ok (Some review)
          <-> exists text failed rest,
                send_review_request code_to_review = Ok (Some text)
                /\ text <> []
                /\ fallback_layers text = failed ++ Ok review :: rest
                /\ Forall fails failed)
    /\ (request_review code_to_review = Ok None
        <-> exists response,
              send_review_request code_to_review = Ok response
              /\ (empty_response response
                  \/ exists text,
                       response = Some text
                       /\ Forall fails (fallback_layers text))).
Proof.
  intros C code. split; [apply request_review_layers|].
  rewrite request_review_layers.
  destruct (send_review_request code) as [[text|]|e]; simpl.
  - destruct text as [|c text].
    + split.
      * intros review. split; [discriminate|].
        intros (text & failed & rest & [= <-] & Hne & _). contradiction.
      * split; [|reflexivity]. intros _. exists (Some []).
        split; [reflexivity | left; right; reflexivity].
    + split.
      * intros review.
        change (first_success (fallback_layers (c :: text)) = Ok (Some review)
                <-> exists text0 failed rest,
                      Ok (Some (c :: text)) = Ok (Some text0)
                      /\ text0 <> []
                      /\ fallback_layers text0 = failed ++ Ok review :: rest
                      /\ Forall fails failed).
        rewrite first_success_Some. split.
        -- intros (failed & rest & Heq & Hf).
           exists (c :: text), failed, rest.
           repeat split; [discriminate | exact Heq | exact Hf].
        -- intros (text0 & failed & rest & [= <-] & _ & Heq & Hf). eauto.
      * change (first_success (fallback_layers (c :: text)) = Ok None
                <-> exists response,
                      Ok (Some (c :: text)) = Ok response
                      /\ (empty_response response
                          \/ exists text0,
                               response = Some text0
                               /\ Forall fails (fallback_layers text0))).
        rewrite first_success_None. split.
        -- intros Hf. exists (Some (c :: text)).
           split; [reflexivity | right; eauto].
        -- intros (response & [= <-] & [[He | He] | (text0 & [= <-] & Hf)]);
             [discriminate | discriminate | exact Hf].
  - split.
    + intros review. split; [discriminate|].
      intros (text & failed & rest & Hs & _). discriminate.
    + split; [|reflexivity]. intros _. exists None.
      split; [reflexivity | left; left; reflexivity].
  - split.
    + intros review. split; [discriminate|].
      intros (text & failed & rest & Hs & _). discriminate.
    + split; [discriminate|]. intros (response & Hs & _). discriminate.
Qed.

(** ** The filter of review results *)

Lemma lower_app (a b : str) : lower (a ++ b) = lower a ++ lower b.
Proof. apply map_app. Qed.

Lemma contains_lower_iff (phrase feedback : str) :
  contains phrase (lower feedback) = true
  <-> contains_ignoring_case phrase feedback.
Proof.
  rewrite contains_iff. unfold contains_ignoring_case. split.
  - intros (before & after & Heq).
    apply map_eq_app in Heq. destruct Heq as (b & rest & -> & Hb & Hrest).
    apply map_eq_app in Hrest. destruct Hrest as (m & a & -> & Hm & Ha).
    exists b, m, a. split; [reflexivity | exact Hm].
  - intros (before & middle & after & -> & <-).
    exists (lower before), (lower after). rewrite !lower_app. reflexivity.
Qed.

Lemma has_not_used_or_unused_iff (feedback : str) :
  has_not_used_or_unused feedback = true
  <-> mentions_filtered_phrase feedback.
Proof.
  unfold has_not_used_or_unused, mentions_filtered_phrase, filtered_phrases.
  rewrite !orb_true_iff, !contains_lower_iff. split.
  - intros [[[[[[Hc | Hc] | Hc] | Hc] | Hc] | Hc] | Hc];
      eexists; (split; [|exact Hc]); simpl; tauto.
  - intros (phrase & Hin & Hc). simpl in Hin.
    destruct Hin as [<- | [<- | [<- | [<- | [<- | [<- | [<- | []]]]]]]];
      tauto.
Qed.

(** The scenario of section 8 has one level, line keys to entries, where
    the code expects files at the first level: on it the code raises. *)
Example remove_unused_suggestions_on_line_keys :
  remove_unused_suggestions
    (JObj [(lit "5", sample_entry (lit "unused variable"))])
  = Raise TypeError.
Proof. reflexivity. Qed.

Lemma feedback_of_Some (value : json) (feedback : str) :
  feedback_of value = Some feedback ->
  subscript_feedback value = Ok (JStr feedback).
Proof.
  unfold feedback_of, subscript_feedback, item.
  destruct value as [| | | | | |members]; try discriminate.
  destruct (dict_get str_eqb (lit "feedback") members) as [[]|];
    try discriminate.
  intros [= ->]. reflexivity.
Qed.

Lemma keep_entries_filter (entries : dict str json) :
  Forall (fun entry => feedback_of (snd entry) <> None) entries ->
  keep_entries entries = Ok (filter (fun entry => negb (dropped entry)) entries).
Proof.
  induction entries as [|[line value] entries IH]; intros Hall; simpl.
  - reflexivity.
  - inversion Hall as [|? ? Hfb Hall']; subst. simpl in Hfb.
    unfold dropped at 1. simpl.
    destruct (feedback_of value) as [feedback|] eqn:F; [|contradiction].
    rewrite (feedback_of_Some _ _ F). simpl. rewrite (IH Hall'). simpl.
    destruct (has_not_used_or_unused feedback); reflexivity.
Qed.

Lemma keep_files_filter (files : ReviewMapping) :
  review_mapping files ->
  keep_files (map (fun file_data => (fst file_data, JObj (snd file_data)))
                files)
  = Ok (map (fun file_data => (fst file_data, JObj (snd file_data)))
          (without_dropped files)).
Proof.
  induction files as [|[file entries] files IH]; intros Hall; simpl.
  - reflexivity.
  - inversion Hall as [|? ? Hentries Hall']; subst. simpl in Hentries.
    rewrite (keep_entries_filter _ Hentries). simpl.
    rewrite (IH Hall'). reflexivity.
Qed.

(** C9.  On a review-result mapping, [remove_unused_suggestions] returns
    the mapping with every file key, in the same order, and for every file
    the entries that are not dropped, unchanged and in their order; an entry
    is dropped if and only if its feedback contains one of the seven
    phrases, whatever the case of its letters, so that every entry whose
    feedback contains "unused" is dropped. *)
Theorem remove_unused_suggestions_drops_the_phrases :
  forall (files : ReviewMapping),
    review_mapping files ->
    remove_unused_suggestions (json_of_mapping files)
    = Ok (json_of_mapping (without_dropped files))
    /\ keys (without_dropped files) = keys files
    /\ Forall2 (fun file_data kept =>
                  forall entry,
                    In entry (snd kept)
                    <-> In entry (snd file_data) /\ dropped entry = false)
         files (without_dropped files)
    /\ (forall entry feedback,
          feedback_of (snd entry) = Some feedback ->
          (dropped entry = true <-> mentions_filtered_phrase feedback))
    /\ (forall entry feedback,
          feedback_of (snd entry) = Some feedback ->
          contains_ignoring_case (lit "unused") feedback ->
          dropped entry = true).
Proof.
  intros files Hall.
  assert (Hdrop : forall entry feedback,
             feedback_of (snd entry) = Some feedback ->
             (dropped entry = true <-> mentions_filtered_phrase feedback)).
  { intros entry feedback F. unfold dropped. rewrite F.
    apply has_not_used_or_unused_iff. }
  split; [|split; [|split; [|split]]].
  - unfold remove_unused_suggestions, json_of_mapping. simpl.
    rewrite (keep_files_filter _ Hall). reflexivity.
  - unfold keys, without_dropped. rewrite map_map. reflexivity.
  - unfold without_dropped. clear. induction files as [|fd files IH]; simpl;
      constructor; [|exact IH].
    intros entry. simpl. rewrite filter_In, negb_true_iff. tauto.
  - exact Hdrop.
  - intros entry feedback F Hc. apply (Hdrop entry feedback F).
    exists (lit "unused"). split; [simpl; tauto | exact Hc].
Qed.

Lemma remove_unused_suggestions_drops_the_phrases_witness :
  review_mapping sample_mapping
  /\ remove_unused_suggestions (json_of_mapping sample_mapping)
     = Ok (json_of_mapping
             [(lit "a.py", [(lit "7", sample_entry (lit "looks fine"))])]).
Proof.
  assert (Hm : review_mapping sample_mapping).
  { repeat constructor; discriminate. }
  split; [exact Hm|].
  exact (proj1 (remove_unused_suggestions_drops_the_phrases sample_mapping Hm)).
Defined.

(** ** Markers *)

Lemma startswith_app_short (p x y : str) :
  (length p <= length x)%nat -> startswith p (x ++ y) = startswith p x.
Proof.
  revert x; induction p as [|a p IH]; intros [|b x] Hlen; simpl in *;
    try reflexivity; try lia.
  rewrite IH by lia. reflexivity.
Qed.

Lemma contains_cons (sub : str) (c : ascii) (s : str) :
  contains sub (c :: s) = startswith sub (c :: s) || contains sub s.
Proof. reflexivity. Qed.

Lemma partition_first_cons (sep : str) (c : ascii) (s : str) :
  partition_first sep (c :: s)
  = match after_prefix sep (c :: s) with
    | Some rest => Some ([], rest)
    | None =>
        match partition_first sep s with
        | Some (before, rest) => Some (c :: before, rest)
        | None => None
        end
    end.
Proof. reflexivity. Qed.


(** The first occurrence of a separator of three characters: it does not
    occur in the text before it extended by its first two characters. *)
Lemma partition_first_def (before after : str) :
  contains (lit "def") (before ++ lit "de") = false ->
  partition_first (lit "def") (before ++ lit "def" ++ after)
  = Some (before, after).
Proof.
  induction before as [|c before IH]; intros Hc.
  - reflexivity.
  - change ((c :: before) ++ lit "de") with (c :: (before ++ lit "de")) in Hc.
    rewrite contains_cons in Hc. apply orb_false_iff in Hc.
    destruct Hc as [Hs Hc].
    change ((c :: before) ++ lit "def" ++ after)
      with (c :: (before ++ lit "def" ++ after)).
    assert (Hs' : startswith (lit "def") (c :: before ++ lit "def" ++ after)
                  = false).
    { etransitivity; [|exact Hs].
      replace (c :: before ++ lit "def" ++ after)
        with ((c :: before ++ lit "de") ++ (lit "f" ++ after))
        by (simpl; rewrite <- app_assoc; reflexivity).
      apply startswith_app_short. simpl. rewrite length_app. simpl. lia. }
    rewrite startswith_after_prefix in Hs'.
    rewrite partition_first_cons.
    destruct (after_prefix (lit "def") (c :: before ++ lit "def" ++ after));
      [discriminate|].
    rewrite (IH Hc). reflexivity.
Qed.








(** ** Lines and numbers *)

Lemma isdigit_not_linebreak (c : ascii) :
  isdigit c = true -> islinebreak c = false.
Proof. by_cases_on_char c. Qed.

Lemma isdigit_not_at (c : ascii) :
  isdigit c = true -> Ascii.eqb "@"%char c = false.
Proof. by_cases_on_char c. Qed.

Lemma digit_value_nonneg (c : ascii) : isdigit c = true -> 0 <= digit_value c.
Proof. by_cases_on_char c. Qed.

Lemma forallb_digits_one_line (s : str) :
  forallb isdigit s = true -> one_line s.
Proof.
  unfold one_line. induction s as [|c s IH]; simpl; auto.
  rewrite !andb_true_iff. intros [Hc Hs].
  rewrite (isdigit_not_linebreak _ Hc). auto.
Qed.

Lemma one_line_app (a b : str) : one_line (a ++ b) <-> one_line a /\ one_line b.
Proof. unfold one_line. rewrite forallb_app, andb_true_iff. tauto. Qed.

Lemma int_of_digits_nonneg (s : str) :
  forallb isdigit s = true -> 0 <= int_of_digits s.
Proof.
  unfold int_of_digits.
  assert (Hgen : forall acc, 0 <= acc -> forallb isdigit s = true ->
                             0 <= fold_left (fun acc c => 10 * acc + digit_value c) s acc).
  { induction s as [|c s IH]; intros acc Hacc; cbn [fold_left forallb]; auto.
    rewrite andb_true_iff. intros [Hc Hs]. apply IH; auto.
    pose proof (digit_value_nonneg c Hc). lia. }
  apply Hgen. lia.
Qed.

(** The digits that [str] writes for a number that is not negative. *)
Lemma string_of_uint_digits (d : Decimal.uint) :
  forallb isdigit
    (String.list_ascii_of_string (DecimalString.NilEmpty.string_of_uint d))
  = true.
Proof. induction d; simpl; auto. Qed.

Lemma str_of_int_digits (n : Z) :
  0 <= n -> str_of_int n <> [] /\ forallb isdigit (str_of_int n) = true.
Proof.
  intros Hn. unfold str_of_int. destruct n as [|p|p]; [| |lia].
  - split; [discriminate | reflexivity].
  - change (Z.to_int (Z.pos p)) with (Decimal.Pos (Pos.to_uint p)).
    unfold DecimalString.NilZero.string_of_int,
      DecimalString.NilZero.string_of_uint.
    destruct (Pos.to_uint p) as [| d | d | d | d | d | d | d | d | d | d] eqn:E;
      try (split; [discriminate | apply string_of_uint_digits]).
    split; [discriminate | reflexivity].
Qed.

Lemma takewhile_app_stop (f : ascii -> bool) (a rest : str) :
  forallb f a = true ->
  match rest with [] => true | c :: _ => negb (f c) end = true ->
  takewhile f (a ++ rest) = a /\ dropwhile f (a ++ rest) = rest.
Proof.
  intros Ha Hrest. induction a as [|x a IH]; simpl in *.
  - destruct rest as [|c rest]; [auto|].
    apply negb_true_iff in Hrest. simpl. rewrite Hrest. auto.
  - apply andb_true_iff in Ha. destruct Ha as [Hx Ha]. rewrite Hx.
    destruct (IH Ha) as [-> ->]. auto.
Qed.

Lemma match_digits_app (a rest : str) :
  is_number a ->
  match rest with [] => true | c :: _ => negb (isdigit c) end = true ->
  Re.match_digits (a ++ rest) = Some (a, rest).
Proof.
  intros [Hne Ha] Hrest. unfold Re.match_digits.
  destruct (takewhile_app_stop isdigit a rest Ha Hrest) as [-> ->].
  destruct a; [contradiction | reflexivity].
Qed.

Lemma match_hunk_header_app (a b c d rest : str) :
  is_number a -> is_number b -> is_number c -> is_number d ->
  Re.match_hunk_header (hunk_header a b c d rest) = Some ((a, b, c, d), rest).
Proof.
  intros Ha Hb Hc Hd. unfold Re.match_hunk_header, hunk_header.
  rewrite after_prefix_app.
  rewrite (match_digits_app a _ Ha) by reflexivity.
  rewrite after_prefix_app.
  rewrite (match_digits_app b _ Hb) by reflexivity.
  rewrite after_prefix_app.
  rewrite (match_digits_app c _ Hc) by reflexivity.
  rewrite after_prefix_app.
  rewrite (match_digits_app d _ Hd) by reflexivity.
  rewrite after_prefix_app. reflexivity.
Qed.

Lemma hunk_header_app (a b c d trailing rest : str) :
  hunk_header a b c d trailing ++ rest = hunk_header a b c d (trailing ++ rest).
Proof. unfold hunk_header. rewrite <- !app_assoc. reflexivity. Qed.

Lemma findall_hunk_header_first (a b c d rest : str) :
  is_number a -> is_number b -> is_number c -> is_number d ->
  exists more,
    Re.findall_hunk_header (hunk_header a b c d rest) = (a, b, c, d) :: more.
Proof.
  intros Ha Hb Hc Hd. unfold Re.findall_hunk_header.
  pose proof (match_hunk_header_app a b c d rest Ha Hb Hc Hd) as Hm.
  destruct (hunk_header a b c d rest) as [|x text] eqn:E; [discriminate|].
  simpl. rewrite Hm. eauto.
Qed.

Lemma splitlines_from_line (line rest : str) :
  one_line line ->
  splitlines_from false (line ++ LF :: rest)
  = line :: splitlines_from false rest.
Proof.
  unfold one_line. induction line as [|c line IH]; intros Hl.
  - reflexivity.
  - simpl in Hl. apply andb_true_iff in Hl. destruct Hl as [Hc Hl].
    apply negb_true_iff in Hc. simpl. rewrite Hc, (IH Hl). reflexivity.
Qed.

Lemma splitlines_lines (lines : list str) :
  Forall one_line lines ->
  splitlines (concat (map (fun line => line ++ [LF]) lines)) = lines.
Proof.
  unfold splitlines. induction lines as [|line lines IH]; intros Hall.
  - reflexivity.
  - inversion Hall as [|? ? Hl Hall']; subst. simpl.
    rewrite <- app_assoc. simpl. rewrite (splitlines_from_line _ _ Hl).
    rewrite (IH Hall'). reflexivity.
Qed.

(** ** The line annotator *)

Lemma one_line_hunk_header (a b c d trailing : str) :
  is_number a -> is_number b -> is_number c -> is_number d ->
  one_line trailing -> one_line (hunk_header a b c d trailing).
Proof.
  intros [_ Ha] [_ Hb] [_ Hc] [_ Hd] Ht. unfold hunk_header.
  repeat (apply one_line_app; split);
    try (apply forallb_digits_one_line; assumption);
    try exact Ht; reflexivity.
Qed.

Lemma format_line_header (st : LineLoop) (a b c d trailing : str) :
  format_line st (hunk_header a b c d trailing)
  = {| hunk_diff_formatted :=
         hunk_diff_formatted st ++ hunk_header a b c d trailing ++ [LF];
       line_counter := line_counter st;
       chunk_formatted :=
         chunk_formatted st ++ hunk_header a b c d trailing ++ [LF];
       optional_selection_marker :=
         selection_marker (hunk_header a b c d trailing) |}.
Proof.
  unfold format_line.
  replace (startswith (lit "@@ -") (hunk_header a b c d trailing)) with true;
    [reflexivity|].
  symmetry. unfold hunk_header. apply startswith_app.
Qed.

Lemma format_line_removed (st : LineLoop) (line : str) :
  is_removed line = true -> format_line st line = st.
Proof.
  unfold is_removed. rewrite startswith_iff. intros [rest ->].
  unfold format_line.
  change (startswith (lit "@@ -") (lit "-" ++ rest)) with false.
  change (startswith (lit "-") (lit "-" ++ rest)) with true.
  destruct (startswith (lit "---") (lit "-" ++ rest)); reflexivity.
Qed.

Lemma format_line_retained (st : LineLoop) (line : str) :
  (is_context line || is_added line) = true ->
  format_line st line
  = {| hunk_diff_formatted :=
         hunk_diff_formatted st ++ annotate (line_counter st + 1) line ++ [LF];
       line_counter := line_counter st + 1;
       chunk_formatted :=
         chunk_formatted st ++ annotate (line_counter st + 1) line ++ [LF];
       optional_selection_marker := optional_selection_marker st |}.
Proof.
  unfold is_context, is_added. rewrite orb_true_iff, !startswith_iff.
  unfold format_line, annotate.
  intros [[rest ->] | [rest ->]]; simpl startswith; cbv iota;
    rewrite <- !app_assoc; reflexivity.
Qed.

Lemma raw_line_cases (line : str) :
  raw_line line ->
  is_removed line = true
  \/ (is_removed line = false /\ (is_context line || is_added line) = true).
Proof.
  intros [_ Hk]. destruct (is_removed line) eqn:R; [left; reflexivity|].
  right. split; [reflexivity|]. rewrite orb_false_r in Hk. exact Hk.
Qed.

Lemma fold_format_line_body (body : list str) :
  Forall raw_line body ->
  forall st,
    fold_left format_line body st
    = {| hunk_diff_formatted :=
           hunk_diff_formatted st
           ++ concat (map (fun line => line ++ [LF])
                        (annotate_from (line_counter st + 1) (retained body)));
         line_counter := line_counter st + Z.of_nat (length (retained body));
         chunk_formatted :=
           chunk_formatted st
           ++ concat (map (fun line => line ++ [LF])
                        (annotate_from (line_counter st + 1) (retained body)));
         optional_selection_marker := optional_selection_marker st |}.
Proof.
  induction 1 as [|line body Hline Hbody IH]; intros st.
  - destruct st; simpl. rewrite !app_nil_r, Z.add_0_r. reflexivity.
  - cbn [fold_left]. rewrite IH. unfold retained; cbn [filter].
    fold (retained body).
    destruct (raw_line_cases line Hline) as [R | [R K]]; rewrite R.
    + rewrite (format_line_removed st line R). reflexivity.
    + rewrite (format_line_retained st line K).
      cbn [negb hunk_diff_formatted line_counter chunk_formatted
             optional_selection_marker annotate_from map concat length].
      rewrite <- !app_assoc. f_equal. lia.
Qed.

(** What the code makes of a well-formed hunk. *)
Lemma format_code_change_chunk_well_formed (diff_formatted0 : str)
    (a b c d trailing : str) (body : list str) :
  well_formed_hunk a b c d trailing body ->
  format_code_change_chunk diff_formatted0
    (hunk_text (hunk_header a b c d trailing) body)
  = let text :=
      hunk_header a b c d trailing ++ [LF]
      ++ concat (map (fun line => line ++ [LF])
                   (annotate_from (int_of_digits c) (retained body))) in
    Ok (diff_formatted0 ++ text,
        {| start_line := int_of_digits c;
           end_line := int_of_digits d + int_of_digits c - 1;
           code := text |},
        selection_marker (hunk_header a b c d trailing)).
Proof.
  intros (Ha & Hb & Hc & Hd & Ht & Hbody & Hcount).
  unfold format_code_change_chunk.
  assert (Hlines : splitlines (hunk_text (hunk_header a b c d trailing) body)
                   = hunk_header a b c d trailing :: body).
  { unfold hunk_text, splitlines.
    change ([LF] ++ concat (map (fun line => line ++ [LF]) body))
      with (LF :: concat (map (fun line => line ++ [LF]) body)).
    rewrite splitlines_from_line
      by (apply one_line_hunk_header; assumption).
    f_equal. apply splitlines_lines.
    eapply Forall_impl; [|exact Hbody]. intros line [Hl _]. exact Hl. }
  rewrite Hlines.
  unfold hunk_text at 1. rewrite hunk_header_app.
  destruct (findall_hunk_header_first a b c d
              (trailing ++ [LF]
               ++ concat (map (fun line => line ++ [LF]) body)) Ha Hb Hc Hd)
    as [more ->].
  cbn [map first_item bind chunk_divider new_start_line new_end_line].
  cbn [fold_left]. rewrite format_line_header.
  rewrite (fold_format_line_body body Hbody).
  cbn [hunk_diff_formatted line_counter chunk_formatted
         optional_selection_marker].
  replace (-1 + int_of_digits c + 1) with (int_of_digits c) by lia.
  rewrite <- !app_assoc. reflexivity.
Qed.

Lemma annotate_one_line (n : Z) (line : str) :
  0 <= n -> one_line line -> one_line (annotate n line).
Proof.
  intros Hn Hl. unfold annotate.
  destruct (str_of_int_digits n Hn) as [_ Hd].
  repeat (apply one_line_app; split);
    [apply forallb_digits_one_line; exact Hd | reflexivity | exact Hl].
Qed.

Lemma annotate_not_header (n : Z) (line : str) :
  0 <= n -> startswith (lit "@@ -") (annotate n line) = false.
Proof.
  intros Hn. unfold annotate.
  destruct (str_of_int_digits n Hn) as [Hne Hd].
  destruct (str_of_int n) as [|x digits]; [contradiction|].
  simpl in Hd. apply andb_true_iff in Hd. destruct Hd as [Hx _].
  change (startswith (lit "@@ -") ((x :: digits) ++ lit " " ++ line))
    with (Ascii.eqb "@"%char x
          && startswith (lit "@ -") (digits ++ lit " " ++ line)).
  rewrite (isdigit_not_at x Hx). reflexivity.
Qed.

Lemma strip_annotation_annotate (n : Z) (line : str) :
  0 <= n -> strip_annotation (annotate n line) = line.
Proof.
  intros Hn. unfold strip_annotation, annotate.
  destruct (str_of_int_digits n Hn) as [_ Hd].
  destruct (takewhile_app_stop isdigit (str_of_int n) (lit " " ++ line) Hd
              eq_refl) as [_ ->].
  reflexivity.
Qed.

Lemma annotate_from_facts (lines : list str) :
  Forall one_line lines ->
  forall n,
    0 <= n ->
    Forall one_line (annotate_from n lines)
    /\ filter (fun line => negb (startswith (lit "@@ -") line))
         (annotate_from n lines) = annotate_from n lines
    /\ map strip_annotation (annotate_from n lines) = lines
    /\ length (annotate_from n lines) = length lines.
Proof.
  induction 1 as [|line lines Hl Hlines IH]; intros n Hn.
  - repeat split; constructor.
  - destruct (IH (n + 1)) as (H1 & H2 & H3 & H4); [lia|].
    cbn [annotate_from filter map length].
    rewrite (annotate_not_header n line Hn), H2, H3, H4.
    rewrite (strip_annotation_annotate n line Hn).
    repeat split. constructor; [apply annotate_one_line; assumption | exact H1].
Qed.

Lemma retained_one_line (body : list str) :
  Forall raw_line body -> Forall one_line (retained body).
Proof.
  intros Hall. unfold retained. apply Forall_forall. intros line Hin.
  apply filter_In in Hin. destruct Hin as [Hin _].
  rewrite Forall_forall in Hall. destruct (Hall line Hin) as [Hl _]. exact Hl.
Qed.

(** The lines of the code unit that the code makes of a well-formed hunk. *)
Lemma annotated_lines_well_formed (a b c d trailing : str)
    (body : list str) :
  well_formed_hunk a b c d trailing body ->
  let numbered := annotate_from (int_of_digits c) (retained body) in
  forall unit,
    code unit
    = hunk_header a b c d trailing ++ [LF]
      ++ concat (map (fun line => line ++ [LF]) numbered) ->
    splitlines (code unit) = hunk_header a b c d trailing :: numbered
    /\ annotated_lines unit = numbered
    /\ map strip_annotation (annotated_lines unit) = retained body
    /\ Z.of_nat (length (annotated_lines unit)) = int_of_digits d.
Proof.
  intros (Ha & Hb & Hc & Hd & Ht & Hbody & Hcount) numbered unit Hcode.
  assert (Hn : 0 <= int_of_digits c)
    by (apply int_of_digits_nonneg; apply Hc).
  destruct (annotate_from_facts (retained body) (retained_one_line _ Hbody)
              (int_of_digits c) Hn) as (H1 & H2 & H3 & H4).
  fold numbered in H1, H2, H3, H4.
  assert (Hlines : splitlines (code unit)
                   = hunk_header a b c d trailing :: numbered).
  { rewrite Hcode. unfold splitlines.
    change ([LF] ++ concat (map (fun line => line ++ [LF]) numbered))
      with (LF :: concat (map (fun line => line ++ [LF]) numbered)).
    rewrite splitlines_from_line
      by (apply one_line_hunk_header; assumption).
    f_equal. apply splitlines_lines. exact H1. }
  assert (Hann : annotated_lines unit = numbered).
  { unfold annotated_lines. rewrite Hlines. cbn [filter].
    replace (startswith (lit "@@ -") (hunk_header a b c d trailing))
      with true by (symmetry; unfold hunk_header; apply startswith_app).
    exact H2. }
  rewrite Hann. repeat split; try assumption. rewrite H4. exact Hcount.
Qed.

(** A code change chunk that is a well-formed hunk with header
    [@@ -a,b +c,d @@] and nothing more.  The code returns a code unit whose
    [start_line] is [c], whose [end_line] is [c + d - 1], and whose text is
    the header line, passed through as it is, followed by the added and
    context lines of the body, numbered from [c] on: the removed lines are
    skipped and take no number, and the annotated lines are [d] in
    number. *)
Lemma annotator_numbers_a_hunk_alone :
  forall (diff_formatted0 a b c d trailing : str) (body : list str),
    well_formed_hunk a b c d trailing body ->
    exists unit,
      format_code_change_chunk diff_formatted0
        (hunk_text (hunk_header a b c d trailing) body)
      = Ok (diff_formatted0 ++ code unit, unit,
            selection_marker (hunk_header a b c d trailing))
      /\ start_line unit = int_of_digits c
      /\ end_line unit = int_of_digits c + int_of_digits d - 1
      /\ splitlines (code unit)
         = hunk_header a b c d trailing :: annotated_lines unit
      /\ annotated_lines unit
         = annotate_from (int_of_digits c) (retained body)
      /\ Z.of_nat (length (annotated_lines unit)) = int_of_digits d.
Proof.
  intros df a b c d trailing body Hwf.
  rewrite (format_code_change_chunk_well_formed df a b c d trailing body Hwf).
  cbv zeta.
  set (unit := {| start_line := int_of_digits c;
                  end_line := int_of_digits d + int_of_digits c - 1;
                  code :=
                    hunk_header a b c d trailing ++ [LF]
                    ++ concat (map (fun line => line ++ [LF])
                                 (annotate_from (int_of_digits c)
                                    (retained body))) |}).
  exists unit. split; [reflexivity|].
  destruct (annotated_lines_well_formed a b c d trailing body Hwf unit
              eq_refl) as (Hlines & Hann & _ & Hlen).
  split; [reflexivity|].
  split; [unfold unit; cbn [end_line]; lia|].
  split; [|split; assumption].
  rewrite Hann. exact Hlines.
Qed.

Lemma sample_hunk_well_formed :
  well_formed_hunk (lit "1") (lit "3") (lit "1") (lit "4") [] sample_body.
Proof.
  unfold well_formed_hunk, is_number, one_line, raw_line, one_line.
  repeat split; try discriminate; try reflexivity.
  repeat constructor.
Qed.

(** On a code change chunk that is a well-formed hunk and nothing more,
    stripping the leading number and space from each annotated line of the
    code unit gives back the added and context lines of the hunk, as they
    were and in their order. *)
Lemma stripping_recovers_a_hunk_alone :
  forall (diff_formatted0 a b c d trailing : str) (body : list str),
    well_formed_hunk a b c d trailing body ->
    exists diff_formatted' unit marker,
      format_code_change_chunk diff_formatted0
        (hunk_text (hunk_header a b c d trailing) body)
      = Ok (diff_formatted', unit, marker)
      /\ map strip_annotation (annotated_lines unit) = retained body.
Proof.
  intros df a b c d trailing body Hwf.
  rewrite (format_code_change_chunk_well_formed df a b c d trailing body Hwf).
  cbv zeta.
  set (unit := {| start_line := int_of_digits c;
                  end_line := int_of_digits d + int_of_digits c - 1;
                  code :=
                    hunk_header a b c d trailing ++ [LF]
                    ++ concat (map (fun line => line ++ [LF])
                                 (annotate_from (int_of_digits c)
                                    (retained body))) |}).
  exists (df ++ code unit), unit,
    (selection_marker (hunk_header a b c d trailing)).
  split; [reflexivity|].
  destruct (annotated_lines_well_formed a b c d trailing body Hwf unit
              eq_refl) as (_ & _ & Hstrip & _).
  exact Hstrip.
Qed.

Example annotator_numbers_the_sample_hunk :
  exists unit,
    format_code_change_chunk []
      (hunk_text (lit "@@ -1,3 +1,4 @@") sample_body)
    = Ok (code unit, unit, [])
    /\ start_line unit = 1
    /\ end_line unit = 4
    /\ length (annotated_lines unit) = 4%nat
    /\ map strip_annotation (annotated_lines unit) = sample_body.
Proof.
  destruct (annotator_numbers_a_hunk_alone
              [] (lit "1") (lit "3") (lit "1") (lit "4") [] sample_body
              sample_hunk_well_formed)
    as (unit & Hrun & Hstart & Hend & _ & Hann & Hlen).
  exists unit. split; [exact Hrun|]. split; [exact Hstart|].
  split; [exact Hend|]. split; [apply Nat2Z.inj; exact Hlen|].
  rewrite Hann. reflexivity.
Qed.

Lemma changed_hunk_well_formed :
  well_formed_hunk (lit "10") (lit "2") (lit "10") (lit "2") (lit " def f():")
    changed_body.
Proof.
  unfold well_formed_hunk, is_number, one_line, raw_line, one_line.
  repeat split; try discriminate; try reflexivity.
  repeat constructor.
Qed.

(** C4 (the code departs from the claim).  The annotator numbers every line
    of a code change chunk that starts neither with [@@ -] nor with [-],
    and the chunk of the last hunk of a file runs up to the separator of
    the next file.  In a diff whose second file is new, the hunk
    [@@ -10,2 +10,2 @@] of the first file is well formed, with two added
    and context lines for its count of 2, and its code unit has three
    annotated lines: the third, numbered 12, beyond [end_line], is the
    [index] line of the next file.  In a diff whose last line has no line
    feed, the hunk [@@ -1,2 +1,2 @@] gives four annotated lines: the two
    [\ No newline at end of file] lines take the numbers 2 and 4, and the
    added line, the second of the new file, is numbered 3. *)
Theorem annotator_numbers_lines_outside_the_hunk :
  well_formed_hunk (lit "10") (lit "2") (lit "10") (lit "2") (lit " def f():")
    changed_body
  /\ (exists st,
        format_git_diff new_file_diff = Ok st
        /\ dict_get Z.eqb 0 (code_change_chunks st)
           = Some [(lit "f():", [new_file_unit])])
  /\ start_line new_file_unit = 10
  /\ end_line new_file_unit = 10 + 2 - 1
  /\ annotated_lines new_file_unit
     = [lit "10 +y"; lit "11  z"; lit "12 index 0000000..3333333"]
  /\ length (annotated_lines new_file_unit) <> 2%nat
  /\ (exists st,
        format_git_diff no_newline_diff = Ok st
        /\ dict_get Z.eqb 0 (code_change_chunks st)
           = Some [([], [no_newline_unit])])
  /\ end_line no_newline_unit = 1 + 2 - 1
  /\ annotated_lines no_newline_unit
     = [lit "1  x"; lit "2 \ No newline at end of file"; lit "3 +z";
        lit "4 \ No newline at end of file"].
Proof.
  split; [exact changed_hunk_well_formed|].
  split; [eexists; split; [vm_compute; reflexivity | reflexivity]|].
  split; [reflexivity|]. split; [reflexivity|]. split; [reflexivity|].
  split; [discriminate|].
  split; [eexists; split; [vm_compute; reflexivity | reflexivity]|].
  split; reflexivity.
Qed.

(** C8 (the code departs from the claim).  Stripping the annotation gives
    back every line that the annotator numbered, and it numbers lines that
    are no added or context lines of the hunk (the same defect as in C4).
    For the well-formed hunk [@@ -10,2 +10,2 @@] of a file that a new file
    follows, the stripped lines are the two added and context lines and
    the [index] line of the next file; for the hunk of a file without a
    final line feed, they hold the two [\ No newline at end of file]
    lines. *)
Theorem stripping_returns_lines_outside_the_hunk :
  (exists st,
      format_git_diff new_file_diff = Ok st
      /\ map (fun group => map code (snd group))
           (concat (values (code_change_chunks st)))
         = [[code new_file_unit];
            [lit "@@ -0,0 +1,2 @@" ++ [LF] ++ lit "1 +v" ++ [LF]
             ++ lit "2 +w" ++ [LF]]])
  /\ retained changed_body = [lit "+y"; lit " z"]
  /\ map strip_annotation (annotated_lines new_file_unit)
     = [lit "+y"; lit " z"; lit "index 0000000..3333333"]
  /\ map strip_annotation (annotated_lines new_file_unit)
     <> retained changed_body
  /\ (exists st,
        format_git_diff no_newline_diff = Ok st
        /\ map (fun group => map code (snd group))
             (concat (values (code_change_chunks st)))
           = [[code no_newline_unit]])
  /\ map strip_annotation (annotated_lines no_newline_unit)
     = [lit " x"; lit "\ No newline at end of file"; lit "+z";
        lit "\ No newline at end of file"].
Proof.
  split; [eexists; split; [vm_compute; reflexivity | reflexivity]|].
  split; [reflexivity|]. split; [reflexivity|]. split; [discriminate|].
  split; [eexists; split; [vm_compute; reflexivity | reflexivity]|].
  reflexivity.
Qed.

(** ** The files of a diff *)

Lemma split_file_separator_scan_length (s : str) :
  forall splits_left skip piece,
    (length (Re.split_file_separator_scan splits_left skip piece s)
     <= splits_left + 1)%nat.
Proof.
  induction s as [|c s IH]; intros m skip piece.
  - simpl. lia.
  - cbn [Re.split_file_separator_scan].
    destruct skip as [|k]; [|apply IH].
    destruct m as [|m]; [apply IH|].
    destruct (Re.match_file_separator (c :: s)) as [len|].
    + cbn [length]. specialize (IH m (len - 1)%nat []). lia.
    + apply IH.
Qed.

Lemma split_before_hunk_header_scan_not_nil (s : str) :
  forall piece,
    exists first rest,
      Re.split_before_hunk_header_scan piece s = first :: rest.
Proof.
  induction s as [|c s IH]; intros piece.
  - simpl. eauto.
  - cbn [Re.split_before_hunk_header_scan].
    destruct (Re.match_hunk_header (c :: s)); [eauto | apply IH].
Qed.

Lemma fold_format_change_Raise (j : Z) (changes : list (Z * str)) (e : exn) :
  fold_left (format_change j) changes (Raise e) = Raise e.
Proof. induction changes as [|ic changes IH]; simpl; auto. Qed.

(** The code change chunks after the first leave the file names alone. *)
Lemma fold_format_change_names (j : Z) (changes : list str) :
  forall i st,
    2 <= i ->
    match fold_left (format_change j) (enumerate changes i) (Ok st) with
    | Ok st' => file_names st' = file_names st
    | Raise _ => True
    end.
Proof.
  induction changes as [|chunk changes IH]; intros i st Hi; simpl.
  - reflexivity.
  - replace (i =? 1) with false by (symmetry; apply Z.eqb_neq; lia).
    destruct (format_code_change_chunk (diff_formatted st) chunk)
      as [[[df unit] marker]|e]; simpl;
      [|rewrite fold_format_change_Raise; exact I].
    destruct (item Z.eqb j (file_chunks st)) as [fc|e]; simpl;
      [|rewrite fold_format_change_Raise; exact I].
    destruct (item Z.eqb j (code_change_chunks st)) as [groups|e]; simpl;
      [|rewrite fold_format_change_Raise; exact I].
    match goal with
    | |- context [fold_left _ _ (Ok ?st1)] =>
        specialize (IH (i + 1) st1 ltac:(lia))
    end.
    exact IH.
Qed.

(** Every file chunk but the head information adds one file name. *)
Lemma format_file_names (j : Z) (file_chunk : str) (acc : outcome Locals)
    (k : nat) :
  j <> -1 ->
  match acc with
  | Ok st => length (file_names st) = k
  | Raise _ => True
  end ->
  match format_file acc (j, file_chunk) with
  | Ok st => length (file_names st) = S k
  | Raise _ => True
  end.
Proof.
  intros Hj Hacc. unfold format_file.
  replace (j =? -1) with false by (symmetry; apply Z.eqb_neq; exact Hj).
  destruct acc as [st|e]; [|rewrite fold_format_change_Raise; exact I].
  destruct (split_before_hunk_header_scan_not_nil
              (Re.sub_diff_git_line (Re.sub_diff_git_pair file_chunk)) [])
    as (first & rest & Hsplit).
  unfold Re.split_before_hunk_header. rewrite Hsplit.
  cbn [enumerate fold_left]. unfold format_change at 2.
  cbn [bind]. rewrite Z.eqb_refl.
  match goal with
  | |- context [fold_left _ _ (Ok ?st1)] =>
      pose proof (fold_format_change_names j rest (1 + 1) st1 ltac:(lia))
        as Hrest;
      destruct (fold_left (format_change j) (enumerate rest (1 + 1)) (Ok st1))
        as [st'|e]; [|exact I]
  end.
  rewrite Hrest. cbn [file_names]. rewrite length_app. simpl. lia.
Qed.

Lemma fold_format_file_names (files : list str) :
  forall j acc k,
    0 <= j ->
    match acc with
    | Ok st => length (file_names st) = k
    | Raise _ => True
    end ->
    match fold_left format_file (enumerate files j) acc with
    | Ok st => length (file_names st) = (k + length files)%nat
    | Raise _ => True
    end.
Proof.
  induction files as [|file files IH]; intros j acc k Hj Hacc; simpl.
  - rewrite Nat.add_0_r. exact Hacc.
  - replace (k + S (length files))%nat with (S k + length files)%nat by lia.
    apply IH; [lia|]. apply format_file_names; [lia | exact Hacc].
Qed.

(** The number of file names is the number of pieces that the split on the
    file separator returns after the first. *)
Lemma format_git_diff_names (diff_text : str) :
  match format_git_diff diff_text with
  | Ok st =>
      length (file_names st)
      = (length (Re.split_file_separator diff_text Re.MULTILINE) - 1)%nat
  | Raise _ => True
  end.
Proof.
  unfold format_git_diff.
  destruct (Re.split_file_separator diff_text Re.MULTILINE)
    as [|head files]; [reflexivity|].
  cbn [enumerate fold_left]. unfold format_file at 2.
  change (-1 =? -1) with true. cbv iota.
  replace (length (head :: files) - 1)%nat with (0 + length files)%nat
    by (simpl; lia).
  apply fold_format_file_names; [lia | reflexivity].
Qed.

(** The whole of [format_git_diff] on the diff of one file. *)
Example format_git_diff_one_file :
  format_git_diff one_file_diff
  = Ok {| diff_formatted := lit "foo.py" ++ [LF] ++ one_file_code;
          file_chunks := [(0, lit "foo.py" ++ [LF] ++ one_file_code)];
          code_change_chunks :=
            [(0, [(lit "foo(x):",
                   [{| start_line := 1; end_line := 4;
                       code := one_file_code |}])])];
          file_names := [lit "foo.py"];
          file_paths := [lit "src/foo.py"] |}.
Proof. vm_compute. reflexivity. Qed.

(** C2 (the code departs from the claim).  Line 32 passes [re.MULTILINE],
    which is 8, where [re.split] takes [maxsplit]: the text is cut at the
    first eight file separators only.  Of a diff of nine files the ninth
    gets no record, its text stays in the chunk of the eighth; and no diff
    gets more than eight file records. *)
Theorem format_git_diff_records_eight_files_at_most :
  (exists st,
      format_git_diff nine_file_diff = Ok st
      /\ length nine_files = 9%nat
      /\ file_names st = firstn 8 nine_files
      /\ keys (file_chunks st) = [0; 1; 2; 3; 4; 5; 6; 7]
      /\ keys (code_change_chunks st) = [0; 1; 2; 3; 4; 5; 6; 7]
      /\ contains (lit "f9.py") (last (values (file_chunks st)) []) = true)
  /\ (forall diff_text,
        match format_git_diff diff_text with
        | Ok st => (length (file_names st) <= 8)%nat
        | Raise _ => True
        end).
Proof.
  split.
  - destruct (format_git_diff nine_file_diff) as [st|e] eqn:E;
      [|vm_compute in E; discriminate].
    exists st. split; [reflexivity|].
    assert (Hst : Ok st = format_git_diff nine_file_diff)
      by (symmetry; exact E).
    vm_compute in Hst. injection Hst as ->.
    repeat split; vm_compute; reflexivity.
  - intros diff_text. pose proof (format_git_diff_names diff_text) as Hn.
    destruct (format_git_diff diff_text) as [st|e]; [|exact I].
    rewrite Hn. unfold Re.split_file_separator, Re.MULTILINE.
    pose proof (split_file_separator_scan_length diff_text 8 0 []). lia.
Qed.

(** * More properties of the code *)

(** ** Splitting a file chunk into code change chunks *)

Lemma split_before_hunk_header_scan_concat (s : str) :
  forall piece,
    concat (Re.split_before_hunk_header_scan piece s) = rev piece ++ s.
Proof.
  induction s as [|c s IH]; intros piece.
  - simpl. rewrite !app_nil_r. reflexivity.
  - cbn [Re.split_before_hunk_header_scan].
    destruct (Re.match_hunk_header (c :: s)).
    + cbn [concat]. rewrite IH. reflexivity.
    + rewrite IH. cbn [rev]. rewrite <- app_assoc. reflexivity.
Qed.

(** X1.  The split in front of the hunk headers loses nothing and adds
    nothing: the pieces, put end to end, are the file chunk. *)
Theorem split_before_hunk_header_keeps_the_text :
  forall file_chunk : str,
    concat (Re.split_before_hunk_header file_chunk) = file_chunk.
Proof.
  intros s. unfold Re.split_before_hunk_header.
  apply (split_before_hunk_header_scan_concat s []).
Qed.

(** ** Removing the lines of [diff --git] *)

Lemma filter_idempotent {A : Type} (f : A -> bool) (l : list A) :
  filter f (filter f l) = filter f l.
Proof.
  induction l as [|x l IH]; simpl; [reflexivity|].
  destruct (f x) eqn:E; simpl; [rewrite E, IH|]; auto.
Qed.

Lemma takewhile_dropwhile (f : ascii -> bool) (s : str) :
  takewhile f s ++ dropwhile f s = s.
Proof.
  induction s as [|c s IH]; simpl; [reflexivity|].
  destruct (f c); simpl; [rewrite IH|]; reflexivity.
Qed.

Lemma forallb_takewhile (f : ascii -> bool) (s : str) :
  forallb f (takewhile f s) = true.
Proof.
  induction s as [|c s IH]; simpl; [reflexivity|].
  destruct (f c) eqn:E; simpl; [rewrite E, IH|]; reflexivity.
Qed.

Lemma dropwhile_head (f : ascii -> bool) (s rest : str) (c : ascii) :
  dropwhile f s = c :: rest -> f c = false.
Proof.
  induction s as [|x s IH]; simpl; [discriminate|].
  destruct (f x) eqn:E; [exact IH|]. intros [= -> _]. exact E.
Qed.

Lemma not_lf_false (c : ascii) : Re.not_lf c = false -> c = LF.
Proof.
  unfold Re.not_lf, is_lf. intros Hc. apply negb_false_iff in Hc.
  apply Ascii.eqb_eq in Hc. exact Hc.
Qed.

(** A text is one line without its end, or a line, a line feed and a rest. *)
Lemma first_line (s : str) :
  forallb Re.not_lf s = true
  \/ exists line rest, s = line ++ LF :: rest /\ forallb Re.not_lf line = true.
Proof.
  destruct (dropwhile Re.not_lf s) as [|c rest] eqn:D.
  - left. rewrite <- (takewhile_dropwhile Re.not_lf s), D, app_nil_r.
    apply forallb_takewhile.
  - right. exists (takewhile Re.not_lf s), rest. split.
    + rewrite <- (takewhile_dropwhile Re.not_lf s) at 1. rewrite D.
      rewrite (not_lf_false c (dropwhile_head _ _ _ _ D)). reflexivity.
    + apply forallb_takewhile.
Qed.

Lemma match_diff_git_line_of_line (line rest : str) :
  forallb Re.not_lf line = true ->
  Re.match_diff_git_line (line ++ LF :: rest)
  = if startswith (lit "diff --git") line
    then Some (S (length line)) else None.
Proof.
  intros Hl. unfold Re.match_diff_git_line.
  rewrite (startswith_after_prefix (lit "diff --git") line).
  destruct (after_prefix (lit "diff --git") line) as [tail|] eqn:A.
  - apply after_prefix_iff in A. subst line.
    rewrite <- app_assoc, after_prefix_app.
    rewrite forallb_app in Hl. apply andb_true_iff in Hl.
    destruct Hl as [_ Ht].
    destruct (takewhile_app_stop Re.not_lf tail (LF :: rest) Ht eq_refl)
      as [-> ->].
    rewrite length_app. simpl. f_equal. lia.
  - destruct (after_prefix (lit "diff --git") (line ++ LF :: rest))
      as [tail|] eqn:A'; [|reflexivity].
    exfalso. apply after_prefix_iff in A'.
    assert (Hs : startswith (lit "diff --git") (line ++ LF :: rest) = true)
      by (apply startswith_iff; eauto).
    destruct (Nat.le_gt_cases (length (lit "diff --git")) (length line))
      as [Hlen | Hlen].
    + rewrite (startswith_app_short _ _ _ Hlen) in Hs.
      rewrite startswith_after_prefix, A in Hs. discriminate.
    + (* the line feed would be one of the ten characters *)
      apply (f_equal (fun x => nth_error x (length line))) in A'.
      rewrite nth_error_app2 in A' by lia. rewrite Nat.sub_diag in A'.
      rewrite nth_error_app1 in A' by exact Hlen.
      simpl in A'. simpl in Hlen.
      do 10 (destruct line as [|? line]; [simpl in A'; discriminate|]).
      simpl in Hlen. lia.
Qed.

Lemma match_diff_git_line_no_lf (s : str) :
  forallb Re.not_lf s = true -> Re.match_diff_git_line s = None.
Proof.
  intros Hs. unfold Re.match_diff_git_line.
  destruct (after_prefix (lit "diff --git") s) as [tail|] eqn:A;
    [|reflexivity].
  apply after_prefix_iff in A. subst s.
  rewrite forallb_app in Hs. apply andb_true_iff in Hs. destruct Hs as [_ Ht].
  destruct (takewhile_app_stop Re.not_lf tail [] Ht eq_refl) as [_ Hd].
  rewrite app_nil_r in Hd. rewrite Hd. reflexivity.
Qed.

Lemma sub_diff_git_line_scan_drop (line rest : str) :
  forall bol,
    Re.sub_diff_git_line_scan bol (S (length line)) (line ++ LF :: rest)
    = Re.sub_diff_git_line_scan true 0 rest.
Proof.
  induction line as [|c line IH]; intros bol; [reflexivity|].
  cbn [app length Re.sub_diff_git_line_scan]. apply IH.
Qed.

Lemma sub_diff_git_line_scan_copy (line rest : str) :
  forallb Re.not_lf line = true ->
  Re.sub_diff_git_line_scan false 0 (line ++ LF :: rest)
  = line ++ LF :: Re.sub_diff_git_line_scan true 0 rest.
Proof.
  induction line as [|c line IH]; intros Hl; [reflexivity|].
  simpl in Hl. apply andb_true_iff in Hl. destruct Hl as [Hc Hl].
  cbn [app Re.sub_diff_git_line_scan].
  replace (is_lf c) with false
    by (symmetry; apply negb_true_iff; exact Hc).
  rewrite (IH Hl). reflexivity.
Qed.

Lemma sub_diff_git_line_scan_line (line rest : str) (bol : bool) :
  forallb Re.not_lf line = true ->
  Re.sub_diff_git_line_scan bol 0 (line ++ LF :: rest)
  = if bol && startswith (lit "diff --git") line
    then Re.sub_diff_git_line_scan true 0 rest
    else line ++ LF :: Re.sub_diff_git_line_scan true 0 rest.
Proof.
  intros Hl. destruct bol; [|apply sub_diff_git_line_scan_copy; exact Hl].
  cbn [andb].
  pose proof (match_diff_git_line_of_line line rest Hl) as Hm.
  destruct line as [|c line]; [reflexivity|].
  cbn [app] in *. cbn [Re.sub_diff_git_line_scan]. rewrite Hm.
  simpl in Hl. apply andb_true_iff in Hl. destruct Hl as [Hc Hl].
  destruct (startswith (lit "diff --git") (c :: line)).
  - replace (S (length (c :: line)) - 1)%nat with (S (length line))
      by (simpl; lia).
    apply sub_diff_git_line_scan_drop.
  - replace (is_lf c) with false
      by (symmetry; apply negb_true_iff; exact Hc).
    rewrite (sub_diff_git_line_scan_copy line rest Hl). reflexivity.
Qed.

Lemma sub_diff_git_line_scan_no_lf (s : str) :
  forallb Re.not_lf s = true ->
  forall bol, Re.sub_diff_git_line_scan bol 0 s = s.
Proof.
  induction s as [|c s IH]; intros Hs bol; [reflexivity|].
  pose proof (match_diff_git_line_no_lf _ Hs) as Hm.
  simpl in Hs. apply andb_true_iff in Hs. destruct Hs as [_ Hs].
  cbn [Re.sub_diff_git_line_scan]. rewrite Hm.
  destruct bol; rewrite (IH Hs); reflexivity.
Qed.

Lemma lines_from_no_lf (s : str) :
  forallb Re.not_lf s = true ->
  forall line,
    closed_lines_from line s = []
    /\ open_line_from line s = rev line ++ s.
Proof.
  induction s as [|c s IH]; intros Hs line.
  - simpl. rewrite app_nil_r. auto.
  - simpl in Hs. apply andb_true_iff in Hs. destruct Hs as [Hc Hs].
    cbn [closed_lines_from open_line_from].
    replace (is_lf c) with false
      by (symmetry; apply negb_true_iff; exact Hc).
    destruct (IH Hs (c :: line)) as [-> ->]. cbn [rev].
    rewrite <- app_assoc. auto.
Qed.

Lemma lines_from_line (l rest : str) :
  forallb Re.not_lf l = true ->
  forall line,
    closed_lines_from line (l ++ LF :: rest)
    = (rev line ++ l) :: closed_lines rest
    /\ open_line_from line (l ++ LF :: rest) = open_line rest.
Proof.
  induction l as [|c l IH]; intros Hl line.
  - simpl. rewrite app_nil_r. auto.
  - simpl in Hl. apply andb_true_iff in Hl. destruct Hl as [Hc Hl].
    cbn [app closed_lines_from open_line_from].
    replace (is_lf c) with false
      by (symmetry; apply negb_true_iff; exact Hc).
    destruct (IH Hl (c :: line)) as [-> ->]. cbn [rev].
    rewrite <- app_assoc. auto.
Qed.

(** Reading a text as lines loses nothing, and the lines hold no line
    feed. *)
Lemma join_lines_of_text (n : nat) :
  forall s,
    (length s <= n)%nat ->
    join_lines (closed_lines s) (open_line s) = s
    /\ Forall (fun line => forallb Re.not_lf line = true) (closed_lines s)
    /\ forallb Re.not_lf (open_line s) = true.
Proof.
  unfold closed_lines, open_line.
  induction n as [|n IH]; intros s Hlen.
  - destruct s; [|simpl in Hlen; lia]. repeat split. constructor.
  - destruct (first_line s) as [Hs | (line & rest & -> & Hl)].
    + destruct (lines_from_no_lf s Hs []) as [-> ->].
      repeat split; [constructor | exact Hs].
    + assert (Hrest : (length rest <= n)%nat).
      { rewrite length_app in Hlen. simpl in Hlen. lia. }
      destruct (lines_from_line line rest Hl []) as [-> ->].
      destruct (IH rest Hrest) as (Hjoin & Hall & Hopen).
      unfold closed_lines, open_line in *. cbn [rev app].
      split; [|split; [constructor; assumption | exact Hopen]].
      unfold join_lines in *. cbn [map concat].
      rewrite <- !app_assoc. cbn [app]. rewrite Hjoin. reflexivity.
Qed.

(** Lines without a line feed are the lines of their text. *)
Lemma lines_of_join_lines (lines : list str) (last_line : str) :
  Forall (fun line => forallb Re.not_lf line = true) lines ->
  forallb Re.not_lf last_line = true ->
  closed_lines (join_lines lines last_line) = lines
  /\ open_line (join_lines lines last_line) = last_line.
Proof.
  intros Hall Hlast. unfold closed_lines, open_line, join_lines.
  induction Hall as [|line lines Hl Hall IH].
  - simpl. destruct (lines_from_no_lf last_line Hlast []) as [-> ->]. auto.
  - cbn [map concat]. rewrite <- !app_assoc. cbn [app].
    destruct (lines_from_line line
                (concat (map (fun l => l ++ [LF]) lines) ++ last_line) Hl [])
      as [-> ->].
    unfold closed_lines, open_line. destruct IH as [-> ->]. auto.
Qed.

Lemma sub_diff_git_line_scan_lines (n : nat) :
  forall s,
    (length s <= n)%nat ->
    Re.sub_diff_git_line_scan true 0 s
    = join_lines
        (filter (fun line => negb (is_diff_git_line line)) (closed_lines s))
        (open_line s).
Proof.
  unfold closed_lines, open_line.
  induction n as [|n IH]; intros s Hlen.
  - destruct s; [|simpl in Hlen; lia]. reflexivity.
  - destruct (first_line s) as [Hs | (line & rest & -> & Hl)].
    + rewrite (sub_diff_git_line_scan_no_lf s Hs).
      destruct (lines_from_no_lf s Hs []) as [-> ->]. reflexivity.
    + assert (Hrest : (length rest <= n)%nat).
      { rewrite length_app in Hlen. simpl in Hlen. lia. }
      rewrite (sub_diff_git_line_scan_line line rest true Hl).
      destruct (lines_from_line line rest Hl []) as [-> ->].
      unfold closed_lines, open_line. cbn [rev app andb filter].
      rewrite (IH rest Hrest).
      change (is_diff_git_line line)
        with (startswith (lit "diff --git") line).
      destruct (startswith (lit "diff --git") line); cbn [negb];
        [reflexivity|].
      unfold join_lines. cbn [map concat]. rewrite <- !app_assoc.
      reflexivity.
Qed.

(** X2.  The second substitution of [format_git_diff] removes from the file
    chunk the lines that start with [diff --git] and that a line feed
    closes, and nothing else: the other closed lines stay, in their order,
    and so does what follows the last line feed, even when it starts with
    [diff --git].  No closed line of the result starts with [diff --git],
    and a second run of the substitution changes nothing. *)
Theorem sub_diff_git_line_drops_the_closed_lines :
  forall file_chunk : str,
    let kept :=
      filter (fun line => negb (is_diff_git_line line))
        (closed_lines file_chunk) in
    join_lines (closed_lines file_chunk) (open_line file_chunk) = file_chunk
    /\ Re.sub_diff_git_line file_chunk
       = join_lines kept (open_line file_chunk)
    /\ closed_lines (Re.sub_diff_git_line file_chunk) = kept
    /\ open_line (Re.sub_diff_git_line file_chunk) = open_line file_chunk
    /\ Forall (fun line => is_diff_git_line line = false)
         (closed_lines (Re.sub_diff_git_line file_chunk))
    /\ Re.sub_diff_git_line (Re.sub_diff_git_line file_chunk)
       = Re.sub_diff_git_line file_chunk.
Proof.
  intros s kept.
  destruct (join_lines_of_text (length s) s (Nat.le_refl _))
    as (Hjoin & Hall & Hopen).
  assert (Hsub : Re.sub_diff_git_line s = join_lines kept (open_line s)).
  { apply (sub_diff_git_line_scan_lines (length s)). lia. }
  assert (Hkept : Forall (fun line => forallb Re.not_lf line = true) kept).
  { apply Forall_forall. intros line Hin. apply filter_In in Hin.
    rewrite Forall_forall in Hall. apply Hall. apply Hin. }
  destruct (lines_of_join_lines kept (open_line s) Hkept Hopen)
    as [Hclosed Hlast].
  split; [exact Hjoin|]. split; [exact Hsub|].
  rewrite Hsub, Hclosed, Hlast.
  split; [reflexivity|]. split; [reflexivity|]. split.
  - apply Forall_forall. intros line Hin. apply filter_In in Hin.
    destruct Hin as [_ Hd]. apply negb_true_iff in Hd. exact Hd.
  - unfold Re.sub_diff_git_line.
    rewrite (sub_diff_git_line_scan_lines _ _ (Nat.le_refl _)).
    rewrite Hclosed, Hlast. unfold kept. rewrite filter_idempotent.
    reflexivity.
Qed.

(** A last line [diff --git] that no line feed closes stays, as the
    pattern ends with a line feed. *)
Example sub_diff_git_line_keeps_an_open_line :
  let file_chunk :=
    lit "b/x" ++ [LF] ++ lit "diff --git a/y b/y" ++ [LF]
    ++ lit "diff --git a/z b/z" in
  closed_lines file_chunk = [lit "b/x"; lit "diff --git a/y b/y"]
  /\ open_line file_chunk = lit "diff --git a/z b/z"
  /\ Re.sub_diff_git_line file_chunk
     = lit "b/x" ++ [LF] ++ lit "diff --git a/z b/z".
Proof. repeat split. Qed.

(** ** A diff without files *)

Lemma takewhile_three_plus (s : str) :
  (3 <=? length (takewhile Re.is_plus s))%nat = true ->
  startswith (lit "+++") s = true.
Proof.
  unfold Re.is_plus.
  destruct s as [|a [|b [|c s]]]; simpl;
    repeat match goal with
           | |- context [Ascii.eqb ?x "+"%char] =>
               let E := fresh "E" in
               destruct (Ascii.eqb x "+"%char) eqn:E;
               [apply Ascii.eqb_eq in E; subst x|]; simpl
           end;
    try discriminate; reflexivity.
Qed.

Lemma match_file_separator_starts (s : str) (len : nat) :
  Re.match_file_separator s = Some len ->
  startswith (LF :: lit "+++") s = true.
Proof.
  unfold Re.match_file_separator. destruct s as [|c s]; [discriminate|].
  destruct (is_lf c) eqn:E; [|discriminate].
  apply Ascii.eqb_eq in E. subst c.
  destruct (dropwhile Re.is_plus s) as [|w rest]; [discriminate|].
  destruct (3 <=? length (takewhile Re.is_plus s))%nat eqn:T;
    [|discriminate].
  intros _. cbn [startswith]. rewrite Ascii.eqb_refl.
  apply (takewhile_three_plus s T).
Qed.

Lemma split_file_separator_scan_no_match (s : str) :
  contains (LF :: lit "+++") s = false ->
  forall splits_left piece,
    Re.split_file_separator_scan splits_left 0 piece s = [rev piece ++ s].
Proof.
  induction s as [|c s IH]; intros Hc m piece.
  - simpl. rewrite app_nil_r. reflexivity.
  - rewrite contains_cons in Hc. apply orb_false_iff in Hc.
    destruct Hc as [Hs Hc]. cbn [Re.split_file_separator_scan].
    assert (Hm : Re.match_file_separator (c :: s) = None).
    { destruct (Re.match_file_separator (c :: s)) as [len|] eqn:M;
        [|reflexivity].
      apply match_file_separator_starts in M. congruence. }
    rewrite Hm.
    assert (Hgo : Re.split_file_separator_scan m 0 (c :: piece) s
                  = [rev piece ++ c :: s]).
    { rewrite (IH Hc). cbn [rev]. rewrite <- app_assoc. reflexivity. }
    destruct m; exact Hgo.
Qed.

(** X3.  A text without a line feed followed by three plus signs holds no
    file separator: [format_git_diff] returns, and records nothing.  The
    empty text is such a text, and so is a diff whose [+++] line is its
    first line. *)
Theorem format_git_diff_without_separator :
  forall diff_text : str,
    contains (LF :: lit "+++") diff_text = false ->
    format_git_diff diff_text = Ok no_files.
Proof.
  intros s Hc. unfold format_git_diff, Re.split_file_separator.
  cbn [Re.MULTILINE]. unfold Re.MULTILINE.
  rewrite (split_file_separator_scan_no_match s Hc). reflexivity.
Qed.

Lemma format_git_diff_without_separator_witness :
  format_git_diff (lit "+++ b/x" ++ [LF] ++ lit "@@ -1,1 +1,1 @@" ++ [LF])
  = Ok no_files.
Proof. apply format_git_diff_without_separator. reflexivity. Defined.

(** ** The records of [format_git_diff] *)

Section DictFacts.
Context {K V : Type} (eqb : K -> K -> bool).
Hypothesis eqb_eq : forall a b, eqb a b = true <-> a = b.

Lemma dict_get_absent (k : K) (d : dict K V) :
  ~ In k (keys d) -> dict_get eqb k d = None.
Proof.
  induction d as [|[k' v] d IH]; simpl; intros Hn; [reflexivity|].
  destruct (eqb k k') eqn:E.
  - apply eqb_eq in E. subst k'. tauto.
  - apply IH. tauto.
Qed.

Lemma dict_get_present (k : K) (d : dict K V) (v : V) :
  dict_get eqb k d = Some v -> In k (keys d).
Proof.
  induction d as [|[k' v'] d IH]; simpl; [discriminate|].
  destruct (eqb k k') eqn:E.
  - apply eqb_eq in E. subst k'. auto.
  - auto.
Qed.

Lemma dict_set_absent (k : K) (v : V) (d : dict K V) :
  dict_get eqb k d = None -> dict_set eqb k v d = d ++ [(k, v)].
Proof.
  induction d as [|[k' v'] d IH]; simpl; [reflexivity|].
  destruct (eqb k k'); [discriminate|]. intros Hn. rewrite (IH Hn).
  reflexivity.
Qed.

Lemma dict_get_last (k : K) (v : V) (d : dict K V) :
  dict_get eqb k d = None -> dict_get eqb k (d ++ [(k, v)]) = Some v.
Proof.
  induction d as [|[k' v'] d IH]; simpl.
  - intros _. rewrite (proj2 (eqb_eq k k) eq_refl). reflexivity.
  - destruct (eqb k k'); [discriminate | exact IH].
Qed.

Lemma dict_set_last (k : K) (v old : V) (d : dict K V) :
  dict_get eqb k d = None ->
  dict_set eqb k v (d ++ [(k, old)]) = d ++ [(k, v)].
Proof.
  induction d as [|[k' v'] d IH]; simpl.
  - intros _. rewrite (proj2 (eqb_eq k k) eq_refl). reflexivity.
  - destruct (eqb k k'); [discriminate|]. intros Hn. rewrite (IH Hn).
    reflexivity.
Qed.

Lemma keys_dict_set (k : K) (v : V) (d : dict K V) :
  keys (dict_set eqb k v d)
  = match dict_get eqb k d with
    | Some _ => keys d
    | None => keys d ++ [k]
    end.
Proof.
  induction d as [|[k' v'] d IH]; simpl; [reflexivity|].
  destruct (eqb k k') eqn:E; simpl; [reflexivity|].
  rewrite IH. destruct (dict_get eqb k d); reflexivity.
Qed.

End DictFacts.

Lemma file_indices_fresh {V : Type} (n : nat) (d : dict Z V) :
  keys d = file_indices n -> dict_get Z.eqb (Z.of_nat n) d = None.
Proof.
  intros Hk. apply (dict_get_absent Z.eqb Z.eqb_eq). rewrite Hk.
  unfold file_indices. rewrite in_map_iff. intros (m & Hm & Hin).
  apply Nat2Z.inj in Hm. subst m. apply in_seq in Hin. lia.
Qed.

Lemma file_indices_S (n : nat) :
  file_indices (S n) = file_indices n ++ [Z.of_nat n].
Proof. unfold file_indices. rewrite seq_S, map_app. reflexivity. Qed.

Lemma format_line_appends (st : LineLoop) (line : str) :
  exists text,
    hunk_diff_formatted (format_line st line)
    = hunk_diff_formatted st ++ text
    /\ chunk_formatted (format_line st line) = chunk_formatted st ++ text.
Proof.
  unfold format_line.
  destruct (startswith (lit "@@ -") line); [eexists; split; reflexivity|].
  destruct (startswith (lit "---") line);
    [exists []; rewrite !app_nil_r; auto|].
  destruct (startswith (lit "-") line);
    [exists []; rewrite !app_nil_r; auto|].
  eexists; split; reflexivity.
Qed.

Lemma fold_format_line_appends (lines : list str) :
  forall st,
    exists text,
      hunk_diff_formatted (fold_left format_line lines st)
      = hunk_diff_formatted st ++ text
      /\ chunk_formatted (fold_left format_line lines st)
         = chunk_formatted st ++ text.
Proof.
  induction lines as [|line lines IH]; intros st; simpl.
  - exists []. rewrite !app_nil_r. auto.
  - destruct (format_line_appends st line) as (x & Hd & Hc).
    destruct (IH (format_line st line)) as (y & Hd' & Hc').
    exists (x ++ y). rewrite Hd', Hc', Hd, Hc, <- !app_assoc. auto.
Qed.

(** A code change chunk without a header raises; with one, the text of
    its code unit is what [diff_formatted] receives. *)
Lemma format_code_change_chunk_cases (diff_formatted0 chunk : str) :
  format_code_change_chunk diff_formatted0 chunk = Raise IndexError
  \/ exists unit marker,
       format_code_change_chunk diff_formatted0 chunk
       = Ok (diff_formatted0 ++ code unit, unit, marker).
Proof.
  unfold format_code_change_chunk.
  destruct (map chunk_divider (Re.findall_hunk_header chunk))
    as [|divider0 more]; [left; reflexivity|].
  right. cbn [first_item bind].
  match goal with
  | |- context [fold_left format_line ?lines ?st0] =>
      destruct (fold_format_line_appends lines st0) as (text & Hd & Hc)
  end.
  cbn [hunk_diff_formatted chunk_formatted] in Hd, Hc.
  rewrite Hd, Hc. simpl app.
  exists {| start_line := new_start_line divider0;
            end_line := new_end_line divider0 + new_start_line divider0 - 1;
            code := text |}.
  eexists. reflexivity.
Qed.

Lemma format_change_first (n : nat) (st : Locals) (chunk : str) :
  aligned n st ->
  diff_formatted st = concat (values (file_chunks st)) ->
  exists st',
    format_change (Z.of_nat n) (Ok st) (1, chunk) = Ok st'
    /\ open_file n st'.
Proof.
  intros (Hfc & Hcc & Hn & Hp) Hdf. unfold format_change. cbn [bind].
  change (1 =? 1) with true. cbv iota. eexists. split; [reflexivity|].
  unfold open_file.
  cbn [file_chunks code_change_chunks file_names file_paths diff_formatted].
  rewrite (dict_set_absent Z.eqb _ _ _ (file_indices_fresh n _ Hfc)).
  rewrite (dict_set_absent Z.eqb _ _ _ (file_indices_fresh n _ Hcc)).
  do 4 eexists. split; [reflexivity|]. split; [exact Hfc|].
  split; [reflexivity|]. split; [exact Hcc|].
  rewrite !length_app, Hn, Hp, Hdf. simpl. repeat split; lia.
Qed.

Lemma format_change_next (n : nat) (st : Locals) (i : Z) (chunk : str) :
  i <> 1 ->
  open_file n st ->
  format_change (Z.of_nat n) (Ok st) (i, chunk) = Raise IndexError
  \/ exists st',
       format_change (Z.of_nat n) (Ok st) (i, chunk) = Ok st'
       /\ open_file n st'.
Proof.
  intros Hi (chunks & text & groups & group & Hfc & Hkc & Hcc & Hkg & Hn & Hp
             & Hdf).
  unfold format_change. cbn [bind].
  replace (i =? 1) with false by (symmetry; apply Z.eqb_neq; exact Hi).
  destruct (format_code_change_chunk_cases (diff_formatted st) chunk)
    as [-> | (unit & marker & ->)]; [left; reflexivity|].
  right. cbn [bind]. unfold item. rewrite Hfc, Hcc.
  rewrite (dict_get_last Z.eqb Z.eqb_eq _ _ _ (file_indices_fresh n _ Hkc)).
  rewrite (dict_get_last Z.eqb Z.eqb_eq _ _ _ (file_indices_fresh n _ Hkg)).
  cbn [bind]. eexists. split; [reflexivity|].
  unfold open_file.
  cbn [file_chunks code_change_chunks file_names file_paths diff_formatted].
  rewrite (dict_set_last Z.eqb Z.eqb_eq _ _ _ _
             (file_indices_fresh n _ Hkc)).
  rewrite (dict_set_last Z.eqb Z.eqb_eq _ _ _ _
             (file_indices_fresh n _ Hkg)).
  do 4 eexists. split; [reflexivity|]. split; [exact Hkc|].
  split; [reflexivity|]. split; [exact Hkg|].
  split; [exact Hn|]. split; [exact Hp|].
  rewrite Hdf, <- app_assoc. reflexivity.
Qed.

Lemma fold_format_change_open (n : nat) (changes : list str) :
  forall i st,
    2 <= i ->
    open_file n st ->
    fold_left (format_change (Z.of_nat n)) (enumerate changes i) (Ok st)
    = Raise IndexError
    \/ exists st',
         fold_left (format_change (Z.of_nat n)) (enumerate changes i) (Ok st)
         = Ok st'
         /\ open_file n st'.
Proof.
  induction changes as [|chunk changes IH]; intros i st Hi Ho.
  - right. exists st. split; [reflexivity | exact Ho].
  - cbn [enumerate fold_left].
    destruct (format_change_next n st i chunk ltac:(lia) Ho)
      as [-> | (st' & -> & Ho')].
    + left. apply fold_format_change_Raise.
    + apply IH; [lia | exact Ho'].
Qed.

Lemma open_file_closed (n : nat) (st : Locals) :
  open_file n st ->
  aligned (S n) st /\ diff_formatted st = concat (values (file_chunks st)).
Proof.
  intros (chunks & text & groups & group & Hfc & Hkc & Hcc & Hkg & Hn & Hp
          & Hdf).
  unfold aligned, keys, values in *. rewrite Hfc, Hcc, !map_app, Hkc, Hkg.
  rewrite file_indices_S, concat_app, Hdf. simpl. rewrite app_nil_r.
  repeat split; assumption.
Qed.

(** What a prefix of the file chunks leaves: a result that records [n]
    files, or the [IndexError] of a code change chunk without a header. *)
Lemma format_file_recorded (n : nat) (file_chunk : str)
    (acc : outcome Locals) :
  match acc with
  | Ok st =>
      aligned n st /\ diff_formatted st = concat (values (file_chunks st))
  | Raise e => e = IndexError
  end ->
  match format_file acc (Z.of_nat n, file_chunk) with
  | Ok st =>
      aligned (S n) st
      /\ diff_formatted st = concat (values (file_chunks st))
  | Raise e => e = IndexError
  end.
Proof.
  intros Hacc. unfold format_file.
  replace (Z.of_nat n =? -1) with false by (symmetry; apply Z.eqb_neq; lia).
  destruct acc as [st|e];
    [|rewrite fold_format_change_Raise; exact Hacc].
  destruct Hacc as [Hal Hdf].
  destruct (split_before_hunk_header_scan_not_nil
              (Re.sub_diff_git_line (Re.sub_diff_git_pair file_chunk)) [])
    as (first & rest & Hsplit).
  unfold Re.split_before_hunk_header. rewrite Hsplit.
  cbn [enumerate fold_left].
  destruct (format_change_first n st first Hal Hdf) as (st1 & -> & Ho).
  destruct (fold_format_change_open n rest (1 + 1) st1 ltac:(lia) Ho)
    as [-> | (st' & -> & Ho')]; [reflexivity|].
  apply open_file_closed. exact Ho'.
Qed.

Lemma fold_format_file_recorded (files : list str) :
  forall n acc,
    match acc with
    | Ok st =>
        aligned n st /\ diff_formatted st = concat (values (file_chunks st))
    | Raise e => e = IndexError
    end ->
    match fold_left format_file (enumerate files (Z.of_nat n)) acc with
    | Ok st =>
        aligned (n + length files) st
        /\ diff_formatted st = concat (values (file_chunks st))
    | Raise e => e = IndexError
    end.
Proof.
  induction files as [|file files IH]; intros n acc Hacc.
  - simpl. rewrite Nat.add_0_r. exact Hacc.
  - cbn [enumerate fold_left length].
    replace (n + S (length files))%nat with (S n + length files)%nat by lia.
    replace (Z.of_nat n + 1) with (Z.of_nat (S n)) by lia.
    apply IH. apply format_file_recorded. exact Hacc.
Qed.

Lemma format_git_diff_recorded (diff_text : str) :
  match format_git_diff diff_text with
  | Ok st =>
      aligned (length (Re.split_file_separator diff_text Re.MULTILINE) - 1) st
      /\ diff_formatted st = concat (values (file_chunks st))
  | Raise e => e = IndexError
  end.
Proof.
  unfold format_git_diff.
  destruct (Re.split_file_separator diff_text Re.MULTILINE)
    as [|head files].
  - simpl. repeat split.
  - cbn [enumerate fold_left]. unfold format_file at 2.
    change (-1 =? -1) with true. cbv iota.
    replace (length (head :: files) - 1)%nat with (0 + length files)%nat
      by (simpl; lia).
    change (-1 + 1) with (Z.of_nat 0).
    apply fold_format_file_recorded. repeat split.
Qed.

(** X4.  [format_git_diff] never raises a [KeyError]: the entries of
    [file_chunks] and [code_change_chunks] that lines 104 to 108 read are
    always there, since the first piece of every file has made them.  The
    [IndexError] of line 71 is another matter: it is raised on a code
    change chunk in which [findall] finds no header, and such a chunk
    exists, when the text that follows a header on its line makes a second
    header with the closing delimiter of the first.  (The conversions
    [int] of lines 65 to 68 are taken without the limit that an interpreter
    may put on the number of digits; beyond it they raise a [ValueError],
    no [KeyError].) *)
Theorem format_git_diff_raises_no_KeyError :
  (forall diff_text, format_git_diff diff_text <> Raise KeyError)
  /\ format_git_diff overlapping_header_diff = Raise IndexError.
Proof.
  split; [|reflexivity].
  intros diff_text Hr. pose proof (format_git_diff_recorded diff_text) as He.
  rewrite Hr in He. discriminate.
Qed.

(** X5.  When [format_git_diff] returns, its four collections describe the
    same files: [file_chunks] and [code_change_chunks] have the keys 0 to
    n - 1, in this order, and [file_names] and [file_paths] have n
    elements, where n is the number of pieces after the head information. *)
Theorem format_git_diff_aligns_its_records :
  forall diff_text : str,
    match format_git_diff diff_text with
    | Ok st =>
        let n :=
          (length (Re.split_file_separator diff_text Re.MULTILINE) - 1)%nat in
        keys (file_chunks st) = file_indices n
        /\ keys (code_change_chunks st) = file_indices n
        /\ length (file_names st) = n
        /\ length (file_paths st) = n
    | Raise _ => True
    end.
Proof.
  intros diff_text. pose proof (format_git_diff_recorded diff_text) as Hr.
  destruct (format_git_diff diff_text) as [st|e]; [|exact I].
  destruct Hr as [Hal _]. exact Hal.
Qed.

(** X6.  When [format_git_diff] returns, the formatted diff is the texts of
    [file_chunks] put end to end, in the order of the files. *)
Theorem diff_formatted_is_the_file_chunks :
  forall diff_text : str,
    match format_git_diff diff_text with
    | Ok st => diff_formatted st = concat (values (file_chunks st))
    | Raise _ => True
    end.
Proof.
  intros diff_text. pose proof (format_git_diff_recorded diff_text) as Hr.
  destruct (format_git_diff diff_text) as [st|e]; [|exact I].
  destruct Hr as [_ Hdf]. exact Hdf.
Qed.

(** ** The line annotator on any code change chunk *)

Lemma match_digits_number (s ds rest : str) :
  Re.match_digits s = Some (ds, rest) -> is_number ds.
Proof.
  unfold Re.match_digits, is_number.
  pose proof (forallb_takewhile isdigit s) as Hd.
  destruct (takewhile isdigit s) as [|x xs]; [discriminate|].
  intros [= <- _]. split; [discriminate | exact Hd].
Qed.

Lemma match_hunk_header_numbers (s a b c d rest : str) :
  Re.match_hunk_header s = Some ((a, b, c, d), rest) ->
  is_number a /\ is_number b /\ is_number c /\ is_number d.
Proof.
  unfold Re.match_hunk_header.
  destruct (after_prefix (lit "@@ -") s) as [s1|]; [|discriminate].
  destruct (Re.match_digits s1) as [[a' s2]|] eqn:Da; [|discriminate].
  destruct (after_prefix (lit ",") s2) as [s3|]; [|discriminate].
  destruct (Re.match_digits s3) as [[b' s4]|] eqn:Db; [|discriminate].
  destruct (after_prefix (lit " +") s4) as [s5|]; [|discriminate].
  destruct (Re.match_digits s5) as [[c' s6]|] eqn:Dc; [|discriminate].
  destruct (after_prefix (lit ",") s6) as [s7|]; [|discriminate].
  destruct (Re.match_digits s7) as [[d' s8]|] eqn:Dd; [|discriminate].
  destruct (after_prefix (lit " @@") s8) as [s9|]; [|discriminate].
  intros [= <- <- <- <- _].
  repeat split;
    try (apply (proj1 (match_digits_number _ _ _ Da)));
    try (apply (proj2 (match_digits_number _ _ _ Da)));
    try (apply (proj1 (match_digits_number _ _ _ Db)));
    try (apply (proj2 (match_digits_number _ _ _ Db)));
    try (apply (proj1 (match_digits_number _ _ _ Dc)));
    try (apply (proj2 (match_digits_number _ _ _ Dc)));
    try (apply (proj1 (match_digits_number _ _ _ Dd)));
    try (apply (proj2 (match_digits_number _ _ _ Dd))).
Qed.

Lemma findall_hunk_header_scan_numbers (s : str) :
  forall skip,
    Forall (fun groups =>
              let '(a, b, c, d) := groups in
              is_number a /\ is_number b /\ is_number c /\ is_number d)
      (Re.findall_hunk_header_scan skip s).
Proof.
  induction s as [|x s IH]; intros skip; [constructor|].
  cbn [Re.findall_hunk_header_scan].
  destruct skip as [|k]; [|apply IH].
  destruct (Re.match_hunk_header (x :: s)) as [[[[[a b] c] d] rest]|] eqn:M;
    [|apply IH].
  constructor; [|apply IH].
  apply (match_hunk_header_numbers _ _ _ _ _ _ M).
Qed.

Lemma splitlines_from_one_line (s : str) :
  forall after_cr, Forall one_line (splitlines_from after_cr s).
Proof.
  induction s as [|c s IH]; intros after_cr; [constructor|].
  cbn [splitlines_from].
  destruct (after_cr && is_lf c); [apply IH|].
  destruct (islinebreak c) eqn:B.
  - constructor; [reflexivity | apply IH].
  - specialize (IH false).
    destruct (splitlines_from false s) as [|l ls].
    + repeat constructor. unfold one_line. simpl. rewrite B. reflexivity.
    + inversion IH as [|? ? Hl Hls]; subst. constructor; [|exact Hls].
      unfold one_line in *. simpl. rewrite B, Hl. reflexivity.
Qed.

Lemma startswith_three_dashes (line : str) :
  startswith (lit "---") line = true -> startswith (lit "-") line = true.
Proof.
  destruct line as [|c line]; [discriminate|].
  cbn [lit String.list_ascii_of_string startswith].
  intros Hs. apply andb_true_iff in Hs. destruct Hs as [-> _]. reflexivity.
Qed.

Lemma fold_format_line_formatted (lines : list str) :
  forall st,
    chunk_formatted (fold_left format_line lines st)
    = chunk_formatted st
      ++ concat (map (fun line => line ++ [LF])
                   (formatted_lines (line_counter st + 1) lines)).
Proof.
  induction lines as [|line lines IH]; intros st.
  - simpl. rewrite app_nil_r. reflexivity.
  - cbn [fold_left formatted_lines]. rewrite IH. unfold format_line.
    destruct (startswith (lit "@@ -") line).
    + cbn [chunk_formatted line_counter map concat].
      rewrite <- !app_assoc. reflexivity.
    + destruct (startswith (lit "---") line) eqn:D3.
      * rewrite (startswith_three_dashes line D3). reflexivity.
      * destruct (startswith (lit "-") line); [reflexivity|].
        cbn [chunk_formatted line_counter map concat]. unfold annotate.
        rewrite <- !app_assoc. reflexivity.
Qed.

Lemma formatted_lines_facts (lines : list str) :
  Forall one_line lines ->
  forall n,
    0 <= n ->
    Forall one_line (formatted_lines n lines)
    /\ filter (fun line => negb (startswith (lit "@@ -") line))
         (formatted_lines n lines)
       = annotate_from n (filter numbered_line lines).
Proof.
  induction 1 as [|line lines Hl Hlines IH]; intros n Hn.
  - split; constructor.
  - cbn [formatted_lines filter]. unfold numbered_line at 1.
    destruct (startswith (lit "@@ -") line) eqn:H1.
    + destruct (IH n Hn) as [Ho Hf]. cbn [filter negb andb]. rewrite H1.
      cbn [negb]. split; [constructor; assumption | exact Hf].
    + cbn [negb andb]. destruct (startswith (lit "-") line).
      * apply IH. exact Hn.
      * destruct (IH (n + 1) ltac:(lia)) as [Ho Hf].
        cbn [negb filter annotate_from].
        rewrite (annotate_not_header n line Hn). cbn [negb].
        rewrite Hf. split; [|reflexivity].
        constructor; [apply annotate_one_line; assumption | exact Ho].
Qed.

(** X7.  Whatever the body of a code change chunk, when the header pattern
    is found in it the code returns a code unit whose [start_line] and
    [end_line] come from the first header alone ([c] and [c + d - 1]), and
    whose annotated lines are the lines of the chunk that start neither
    with [@@ -] nor with [-], numbered [c], [c + 1], ... without a gap: the
    count [d] of the header plays no part in the numbering. *)
Theorem annotator_numbers_without_gap :
  forall (diff_formatted0 chunk a b c d : str)
         (more : list (str * str * str * str)),
    Re.findall_hunk_header chunk = (a, b, c, d) :: more ->
    exists unit marker,
      format_code_change_chunk diff_formatted0 chunk
      = Ok (diff_formatted0 ++ code unit, unit, marker)
      /\ start_line unit = int_of_digits c
      /\ end_line unit = int_of_digits c + int_of_digits d - 1
      /\ annotated_lines unit
         = annotate_from (int_of_digits c)
             (filter numbered_line (splitlines chunk)).
Proof.
  intros df chunk a b c d more Hfind.
  pose proof (findall_hunk_header_scan_numbers chunk 0) as Hnum.
  fold (Re.findall_hunk_header chunk) in Hnum. rewrite Hfind in Hnum.
  inversion Hnum as [|? ? Hg _]; subst. cbv beta iota in Hg.
  destruct Hg as (_ & _ & Hc & _).
  assert (Hn : 0 <= int_of_digits c)
    by (apply int_of_digits_nonneg; apply Hc).
  destruct (formatted_lines_facts (splitlines chunk)
              (splitlines_from_one_line chunk false) (int_of_digits c) Hn)
    as [Hone Hfilter].
  unfold format_code_change_chunk. rewrite Hfind.
  cbn [map first_item bind].
  change (new_start_line (chunk_divider (a, b, c, d)))
    with (int_of_digits c).
  change (new_end_line (chunk_divider (a, b, c, d)))
    with (int_of_digits d).
  match goal with
  | |- context [fold_left format_line ?lines ?st0] =>
      destruct (fold_format_line_appends lines st0) as (text & Hd & Hcf);
      pose proof (fold_format_line_formatted lines st0) as Hform;
      set (st := fold_left format_line lines st0) in *
  end.
  cbn [hunk_diff_formatted chunk_formatted line_counter] in Hd, Hcf, Hform.
  replace (-1 + int_of_digits c + 1) with (int_of_digits c) in Hform by lia.
  simpl app in Hcf, Hform.
  exists {| start_line := int_of_digits c;
            end_line := int_of_digits d + int_of_digits c - 1;
            code := chunk_formatted st |},
    (optional_selection_marker st).
  cbn [code start_line end_line].
  split; [rewrite Hd, Hcf; reflexivity|].
  split; [reflexivity|]. split; [lia|].
  unfold annotated_lines. cbn [code]. rewrite Hform.
  rewrite (splitlines_lines _ Hone). exact Hfilter.
Qed.

Lemma annotator_numbers_without_gap_witness :
  exists unit marker,
    format_code_change_chunk []
      (hunk_text (lit "@@ -1,1 +5,9 @@") [lit "+a"; lit "-b"; lit " c"])
    = Ok (code unit, unit, marker)
    /\ start_line unit = 5
    /\ end_line unit = 13
    /\ annotated_lines unit = [lit "5 +a"; lit "6  c"].
Proof.
  exact (annotator_numbers_without_gap
           [] (hunk_text (lit "@@ -1,1 +5,9 @@") [lit "+a"; lit "-b"; lit " c"])
           (lit "1") (lit "1") (lit "5") (lit "9") [] eq_refl).
Defined.

(** ** Markers and their groups *)

Lemma dropwhile_length (f : ascii -> bool) (s : str) :
  (length (dropwhile f s) <= length s)%nat.
Proof.
  induction s as [|c s IH]; simpl; [lia|]. destruct (f c); simpl; lia.
Qed.

Lemma dropwhile_fixed (f : ascii -> bool) (s : str) :
  dropwhile f s = s
  <-> match s with [] => True | c :: _ => f c = false end.
Proof.
  destruct s as [|c s]; simpl; [tauto|].
  destruct (f c) eqn:E; split; try reflexivity; try discriminate.
  intros Hd. pose proof (dropwhile_length f s) as Hl.
  rewrite Hd in Hl. simpl in Hl. lia.
Qed.

Lemma dropwhile_idempotent (f : ascii -> bool) (s : str) :
  dropwhile f (dropwhile f s) = dropwhile f s.
Proof.
  apply dropwhile_fixed.
  destruct (dropwhile f s) as [|c rest] eqn:D; [exact I|].
  apply (dropwhile_head f s rest c D).
Qed.

Lemma dropwhile_suffix (f : ascii -> bool) (s : str) :
  exists dropped, s = dropped ++ dropwhile f s.
Proof.
  exists (takewhile f s). symmetry. apply takewhile_dropwhile.
Qed.

Lemma strip_idempotent (s : str) : strip (strip s) = strip s.
Proof.
  unfold strip, lstrip, rstrip.
  set (z := rev (dropwhile isspace (rev s))).
  assert (Hz : dropwhile isspace (rev z) = rev z).
  { unfold z. rewrite rev_involutive. apply dropwhile_idempotent. }
  destruct (dropwhile_suffix isspace z) as [p Hp].
  set (y := dropwhile isspace z) in *.
  assert (Hy : dropwhile isspace (rev y) = rev y).
  { apply dropwhile_fixed. destruct (rev y) as [|c r] eqn:R; [exact I|].
    rewrite Hp, rev_app_distr, R in Hz. apply dropwhile_fixed in Hz.
    exact Hz. }
  rewrite Hy, rev_involutive. unfold y. apply dropwhile_idempotent.
Qed.

(** X8.  A selection marker is trimmed: stripping it again changes
    nothing, so that headers whose text after [def] differs in surrounding
    whitespace only have the same marker. *)
Theorem selection_marker_is_trimmed :
  forall line : str,
    strip (selection_marker line) = selection_marker line
    /\ forall before after1 after2,
         contains (lit "def") (before ++ lit "de") = false ->
         strip after1 = strip after2 ->
         selection_marker (before ++ lit "def" ++ after1)
         = selection_marker (before ++ lit "def" ++ after2).
Proof.
  intros line. split.
  - unfold selection_marker.
    destruct (split1 (lit "def") line) as [|part0 [|part1 parts]];
      try reflexivity.
    apply strip_idempotent.
  - intros before after1 after2 Hc Hs. unfold selection_marker, split1.
    rewrite !(partition_first_def _ _ Hc). exact Hs.
Qed.

Lemma dict_get_Some_set_units (marker : str) (unit : CodeChunk)
    (groups : MarkerGroups) :
  forall units,
    dict_get str_eqb marker groups = Some units ->
    Permutation (units_in (dict_set str_eqb marker (units ++ [unit]) groups))
      (unit :: units_in groups).
Proof.
  unfold units_in, values.
  induction groups as [|[m us] groups IH]; intros units; simpl;
    [discriminate|].
  destruct (str_eqb marker m).
  - intros [= ->]. simpl. rewrite <- app_assoc.
    apply Permutation_sym. apply Permutation_middle.
  - intros Hg. simpl.
    etransitivity; [apply Permutation_app_head; apply (IH _ Hg)|].
    apply Permutation_sym. apply Permutation_middle.
Qed.

Lemma add_to_marker_group_units (groups : MarkerGroups) (marker : str)
    (unit : CodeChunk) :
  Permutation (units_in (add_to_marker_group groups marker unit))
    (unit :: units_in groups).
Proof.
  unfold add_to_marker_group.
  destruct (dict_get str_eqb marker groups) as [units|] eqn:G.
  - apply dict_get_Some_set_units. exact G.
  - rewrite (dict_set_absent str_eqb _ _ _ G). unfold units_in, values.
    rewrite map_app, concat_app. simpl.
    apply Permutation_sym. apply Permutation_cons_append.
Qed.

Lemma add_to_marker_group_markers (groups : MarkerGroups) (marker : str)
    (unit : CodeChunk) (k : str) :
  In k (keys (add_to_marker_group groups marker unit))
  <-> k = marker \/ In k (keys groups).
Proof.
  unfold add_to_marker_group.
  assert (Hin : dict_get str_eqb marker groups <> None ->
                In marker (keys groups)).
  { clear. induction groups as [|[m us] groups IH]; simpl; [congruence|].
    destruct (str_eqb marker m) eqn:E.
    - apply str_eqb_eq in E. auto.
    - auto. }
  destruct (dict_get str_eqb marker groups) as [units|] eqn:G;
    rewrite keys_dict_set, G.
  - split; [auto|]. intros [-> | Hk]; [|exact Hk].
    apply Hin. discriminate.
  - rewrite in_app_iff. simpl. split.
    + intros [Hk | [<- | []]]; auto.
    + intros [-> | Hk]; auto.
Qed.

Lemma add_to_marker_group_keys (groups : MarkerGroups) (marker : str)
    (unit : CodeChunk) :
  NoDup (keys groups) -> NoDup (keys (add_to_marker_group groups marker unit)).
Proof.
  intros Hnd. unfold add_to_marker_group.
  destruct (dict_get str_eqb marker groups) as [units|] eqn:G;
    rewrite keys_dict_set, G; [exact Hnd|].
  apply NoDup_app; [exact Hnd | repeat constructor; intros [] |].
  intros k Hin [<- | []]. clear Hnd.
  induction groups as [|[m us] groups IH]; simpl in *; [tauto|].
  destruct (str_eqb marker m) eqn:E; [discriminate|].
  destruct Hin as [<- | Hin].
  - rewrite str_eqb_refl in E. discriminate.
  - auto.
Qed.

Lemma selection_marker_is_trimmed_witness :
  selection_marker (lit "@@ -1,3 +1,4 @@ def foo(x):  ")
  = selection_marker (lit "@@ -1,3 +1,4 @@ def   foo(x):").
Proof.
  apply (proj2 (selection_marker_is_trimmed [])
           (lit "@@ -1,3 +1,4 @@ ") (lit " foo(x):  ") (lit "   foo(x):"));
    reflexivity.
Defined.

(** X9.  Grouping by marker keeps every code unit once and keeps the
    markers apart: the units of the groups, group after group, are the
    units that were added, each as often as it was added, in another
    order at most; the keys of the groups are distinct; and they are the
    markers of the units. *)
Theorem marker_groups_keep_every_unit :
  forall units : list (str * CodeChunk),
    Permutation (units_in (group_by_marker units)) (map snd units)
    /\ NoDup (keys (group_by_marker units))
    /\ (forall marker,
          In marker (keys (group_by_marker units))
          <-> In marker (map fst units)).
Proof.
  intros units. unfold group_by_marker.
  assert (Hgen : forall groups : MarkerGroups,
             NoDup (keys groups) ->
             let result :=
               fold_left
                 (fun groups mu =>
                    add_to_marker_group groups (fst mu) (snd mu))
                 units groups in
             Permutation (units_in result) (units_in groups ++ map snd units)
             /\ NoDup (keys result)
             /\ (forall marker,
                   In marker (keys result)
                   <-> In marker (keys groups)
                       \/ In marker (map fst units))).
  { induction units as [|[m u] units IH]; intros groups Hnd; simpl.
    - rewrite app_nil_r. split; [apply Permutation_refl|].
      split; [exact Hnd|]. tauto.
    - destruct (IH (add_to_marker_group groups m u)
                  (add_to_marker_group_keys groups m u Hnd))
        as (H1 & H2 & H3).
      split; [|split; [exact H2|]].
      + etransitivity; [exact H1|].
        etransitivity;
          [apply Permutation_app_tail; apply add_to_marker_group_units|].
        simpl. apply Permutation_cons_app. apply Permutation_refl.
      + intros marker. rewrite H3, add_to_marker_group_markers.
        intuition congruence. }
  destruct (Hgen [] (NoDup_nil _)) as (H1 & H2 & H3).
  split; [exact H1|]. split; [exact H2|].
  intros marker. rewrite H3. simpl. tauto.
Qed.

(** ** The filter of review results, on any JSON value *)

Lemma keep_entries_shape (entries : dict str json) :
  forall kept,
    keep_entries entries = Ok kept ->
    Forall (fun entry => feedback_of (snd entry) <> None) entries.
Proof.
  induction entries as [|[line value] entries IH]; intros kept Hk.
  - constructor.
  - cbn [keep_entries] in Hk.
    destruct (subscript_feedback value) as [feedback|e] eqn:S;
      [|discriminate].
    cbn [bind] in Hk.
    destruct (has_not_used_or_unused_value feedback) as [unused|e] eqn:U;
      [|discriminate].
    cbn [bind] in Hk.
    destruct (keep_entries entries) as [kept'|e] eqn:K; [|discriminate].
    constructor; [|eapply IH; reflexivity].
    cbn [snd]. unfold feedback_of.
    destruct value as [| | | | | |members]; try discriminate S.
    unfold subscript_feedback, item in S.
    destruct (dict_get str_eqb (lit "feedback") members) as [found|];
      [|discriminate S].
    injection S as ->. destruct feedback; try discriminate U. discriminate.
Qed.

Lemma keep_files_shape (members : dict str json) :
  forall kept,
    keep_files members = Ok kept ->
    exists files : ReviewMapping,
      members = map (fun file_data => (fst file_data, JObj (snd file_data)))
                  files
      /\ review_mapping files.
Proof.
  induction members as [|[file file_data] members IH]; intros kept Hk.
  - exists []. split; [reflexivity | constructor].
  - cbn [keep_files] in Hk.
    destruct file_data as [| | | | | |entries]; try discriminate Hk.
    cbn [items bind] in Hk.
    destruct (keep_entries entries) as [kept_entries|e] eqn:K;
      [|discriminate].
    cbn [bind] in Hk.
    destruct (keep_files members) as [rest|e] eqn:F; [|discriminate].
    destruct (IH rest eq_refl) as (files & -> & Hfiles).
    exists ((file, entries) :: files). split; [reflexivity|].
    constructor; [|exact Hfiles].
    apply (keep_entries_shape entries kept_entries K).
Qed.

Lemma remove_unused_suggestions_shape (review_result result : json) :
  remove_unused_suggestions review_result = Ok result ->
  exists files : ReviewMapping,
    review_result = json_of_mapping files /\ review_mapping files.
Proof.
  unfold remove_unused_suggestions. intros Hk.
  destruct review_result as [| | | | | |members]; try discriminate Hk.
  cbn [items bind] in Hk.
  destruct (keep_files members) as [kept|e] eqn:F; [|discriminate].
  destruct (keep_files_shape members kept F) as (files & -> & Hf).
  exists files. split; [reflexivity | exact Hf].
Qed.

Lemma remove_unused_suggestions_mapping (files : ReviewMapping) :
  review_mapping files ->
  remove_unused_suggestions (json_of_mapping files)
  = Ok (json_of_mapping (without_dropped files)).
Proof.
  intros Hf. unfold remove_unused_suggestions, json_of_mapping. simpl.
  rewrite (keep_files_filter _ Hf). reflexivity.
Qed.

(** X10.  [remove_unused_suggestions] returns if and only if its argument
    is a dictionary of dictionaries of entries that are dictionaries with a
    string under ["feedback"]; on any other JSON value it raises. *)
Theorem remove_unused_suggestions_returns_on_mappings_only :
  forall review_result : json,
    (exists result, remove_unused_suggestions review_result = Ok result)
    <-> exists files : ReviewMapping,
          review_result = json_of_mapping files /\ review_mapping files.
Proof.
  intros review_result. split.
  - intros [result Hr]. eapply remove_unused_suggestions_shape; eauto.
  - intros (files & -> & Hf). eexists.
    apply remove_unused_suggestions_mapping. exact Hf.
Qed.

Lemma without_dropped_mapping (files : ReviewMapping) :
  review_mapping files -> review_mapping (without_dropped files).
Proof.
  unfold review_mapping, without_dropped. intros Hf.
  apply Forall_map. eapply Forall_impl; [|exact Hf].
  intros [file entries] He. simpl in *. apply Forall_forall.
  intros entry Hin. apply filter_In in Hin. destruct Hin as [Hin _].
  rewrite Forall_forall in He. apply He. exact Hin.
Qed.

Lemma without_dropped_idempotent (files : ReviewMapping) :
  without_dropped (without_dropped files) = without_dropped files.
Proof.
  unfold without_dropped. rewrite map_map. apply map_ext.
  intros [file entries]. simpl. rewrite filter_idempotent. reflexivity.
Qed.

(** X11.  Filtering is idempotent: what [remove_unused_suggestions] returns
    it returns again, unchanged, when it is applied to it. *)
Theorem remove_unused_suggestions_is_idempotent :
  forall review_result result : json,
    remove_unused_suggestions review_result = Ok result ->
    remove_unused_suggestions result = Ok result.
Proof.
  intros review_result result Hr.
  destruct (remove_unused_suggestions_shape _ _ Hr) as (files & -> & Hf).
  rewrite (remove_unused_suggestions_mapping files Hf) in Hr.
  injection Hr as <-.
  rewrite (remove_unused_suggestions_mapping _ (without_dropped_mapping _ Hf)).
  rewrite without_dropped_idempotent. reflexivity.
Qed.

Lemma remove_unused_suggestions_is_idempotent_witness :
  remove_unused_suggestions
    (json_of_mapping
       [(lit "a.py", [(lit "7", sample_entry (lit "looks fine"))])])
  = Ok (json_of_mapping
          [(lit "a.py", [(lit "7", sample_entry (lit "looks fine"))])]).
Proof.
  apply (remove_unused_suggestions_is_idempotent
           (json_of_mapping sample_mapping)).
  reflexivity.
Defined.

Lemma keep_entries_raises (entries : dict str json) (e : exn) :
  keep_entries entries = Raise e ->
  e = AttributeError \/ e = TypeError \/ e = KeyError.
Proof.
  induction entries as [|[line value] entries IH]; intros Hk;
    [discriminate|].
  cbn [keep_entries] in Hk.
  destruct (subscript_feedback value) as [feedback|e1] eqn:S.
  - cbn [bind] in Hk.
    destruct (has_not_used_or_unused_value feedback) as [unused|e2] eqn:U.
    + cbn [bind] in Hk.
      destruct (keep_entries entries) as [kept|e3]; [discriminate|].
      injection Hk as <-. apply IH. reflexivity.
    + injection Hk as <-. destruct feedback; try discriminate U;
        injection U as <-; auto.
  - injection Hk as <-. unfold subscript_feedback, item in S.
    destruct value; try (injection S as <-; auto).
    destruct (dict_get str_eqb (lit "feedback") members);
      [discriminate | injection S as <-; auto].
Qed.

Lemma keep_files_raises (members : dict str json) (e : exn) :
  keep_files members = Raise e ->
  e = AttributeError \/ e = TypeError \/ e = KeyError.
Proof.
  induction members as [|[file file_data] members IH]; intros Hk;
    [discriminate|].
  cbn [keep_files] in Hk.
  destruct (items file_data) as [entries|e1] eqn:I.
  - cbn [bind] in Hk.
    destruct (keep_entries entries) as [kept|e2] eqn:K.
    + cbn [bind] in Hk.
      destruct (keep_files members) as [rest|e3]; [discriminate|].
      injection Hk as <-. apply IH. reflexivity.
    + injection Hk as <-. apply (keep_entries_raises _ _ K).
  - injection Hk as <-. destruct file_data; try discriminate I;
      injection I as <-; auto.
Qed.

Lemma remove_unused_suggestions_raises (review_result : json) (e : exn) :
  remove_unused_suggestions review_result = Raise e ->
  e = AttributeError \/ e = TypeError \/ e = KeyError.
Proof.
  unfold remove_unused_suggestions. intros Hk.
  destruct (items review_result) as [members|e1] eqn:I.
  - cbn [bind] in Hk.
    destruct (keep_files members) as [kept|e2] eqn:K; [discriminate|].
    injection Hk as <-. apply (keep_files_raises _ _ K).
  - injection Hk as <-. destruct review_result; try discriminate I;
      injection I as <-; auto.
Qed.

(** X12.  [remove_unused_suggestions] raises no [ValueError]: on a JSON
    value of another shape it raises [AttributeError], [TypeError] or
    [KeyError].  So [parse_review_result] raises a [ValueError] exactly
    when [json.loads] does, and the fallback layers of [request_review],
    which catch [ValueError] only, never take over after a review of the
    wrong shape. *)
Theorem parse_review_result_raises_ValueError_of_json_loads_only :
  forall `{Collaborators},
    (forall review_result : json,
        (exists result, remove_unused_suggestions review_result = Ok result)
        \/ remove_unused_suggestions review_result = Raise AttributeError
        \/ remove_unused_suggestions review_result = Raise TypeError
        \/ remove_unused_suggestions review_result = Raise KeyError)
    /\ (forall text : str,
          parse_review_result text = Raise ValueError
          <-> json_loads text = Raise ValueError).
Proof.
  intros C. split.
  - intros review_result.
    destruct (remove_unused_suggestions review_result) as [result|e] eqn:R;
      [left; eauto | right].
    destruct (remove_unused_suggestions_raises _ _ R) as [-> | [-> | ->]];
      auto.
  - intros text. unfold parse_review_result.
    destruct (json_loads text) as [review|e]; cbn [bind].
    + split; [|discriminate]. intros R.
      destruct (remove_unused_suggestions_raises _ _ R) as [E | [E | E]];
        discriminate.
    + tauto.
Qed.

(** ** More on the merger *)

Section MergerEdges.
Context `{Collaborators}.

Lemma attach_while_out review_json unit review_per_chunk n stack :
  in_hunk unit n = false ->
  attach_while review_json unit review_per_chunk n stack
  = Ok (review_per_chunk, n, stack).
Proof. intros Hout. destruct stack; simpl; rewrite Hout; reflexivity. Qed.

Lemma merge_hunks_blocked review_json units n :
  Forall (fun unit => in_hunk unit n = false) units ->
  forall payload stack,
    merge_hunks review_json units payload n stack = Ok (payload, stack).
Proof.
  induction 1 as [|unit units Hout Hall IH]; intros payload stack;
    [reflexivity|].
  cbn [merge_hunks]. rewrite (attach_while_out _ _ _ _ _ Hout). cbn [bind].
  destruct stack; [reflexivity | apply IH].
Qed.

Lemma attached_while_all unit stack :
  forall n,
    Forall (fun m => in_hunk unit m = true) (n :: stack) ->
    exists last, attached_while unit n stack = (n :: stack, last, []).
Proof.
  induction stack as [|next stack IH]; intros n Hall;
    inversion Hall as [|? ? Hn Hrest]; subst; simpl; rewrite Hn.
  - eauto.
  - destruct (IH next Hrest) as [last ->]. eauto.
Qed.

Lemma stack_left_length units :
  forall n stack,
    (length (stack_left (visits units n stack) stack) <= length stack)%nat.
Proof.
  induction units as [|unit units IH]; intros n stack;
    [unfold stack_left; simpl; lia|].
  cbn [visits].
  destruct (attached_while unit n stack) as [[lines n'] stack'] eqn:A.
  destruct (attached_while_cases _ _ _ _ _ _ A) as [_ Hcase].
  rewrite stack_left_cons. cbn [stack_after].
  assert (Hlen : (length stack' <= length stack)%nat).
  { destruct Hcase as [[Heq _] | [_ ->]]; [|simpl; lia].
    apply (f_equal (@length Z)) in Heq. rewrite length_app in Heq.
    simpl in Heq. lia. }
  destruct stack' as [|top stack']; [unfold stack_left; simpl; lia|].
  specialize (IH n' (top :: stack')). lia.
Qed.

Lemma payloads_of_length review_json (run : list Visit) :
  (length (payloads_of review_json run) <= length run)%nat
  /\ (length (payloads_of review_json run)
      <= length (concat (map attached run)))%nat.
Proof.
  induction run as [|v run [IH1 IH2]]; [simpl; lia|].
  rewrite payloads_of_cons. cbn [map concat length].
  rewrite !length_app. destruct (attached v); simpl; lia.
Qed.

End MergerEdges.

Section DictUpdate.
Context {K V : Type} (eqb : K -> K -> bool).
Hypothesis eqb_eq : forall a b, eqb a b = true <-> a = b.

Lemma dict_get_dict_set (k k' : K) (v : V) (d : dict K V) :
  dict_get eqb k' (dict_set eqb k v d)
  = if eqb k' k then Some v else dict_get eqb k' d.
Proof.
  induction d as [|[k0 v0] d IH]; simpl.
  - reflexivity.
  - destruct (eqb k k0) eqn:E; simpl.
    + apply eqb_eq in E. subst k0. destruct (eqb k' k); reflexivity.
    + rewrite IH. destruct (eqb k' k0) eqn:E0; [|reflexivity].
      destruct (eqb k' k) eqn:E1; [|reflexivity].
      apply eqb_eq in E0, E1. subst. 
      rewrite (proj2 (eqb_eq k0 k0) eq_refl) in E. discriminate.
Qed.

End DictUpdate.

Lemma review_fold_get (review_json : dict str json) (lines : list Z) (n : Z) :
  keyed review_json lines ->
  forall review_per_chunk,
    dict_get Z.eqb n (fold_left (attach_step review_json) lines review_per_chunk)
    = if existsb (Z.eqb n) lines
      then dict_get str_eqb (str_of_int n) review_json
      else dict_get Z.eqb n review_per_chunk.
Proof.
  induction 1 as [|l lines Hl Hlines IH]; intros d; [reflexivity|].
  cbn [fold_left existsb]. rewrite IH. unfold attach_step.
  unfold dict_mem in Hl.
  destruct (dict_get str_eqb (str_of_int l) review_json) as [entry|] eqn:G;
    [|discriminate].
  rewrite (dict_get_dict_set Z.eqb Z.eqb_eq).
  destruct (existsb (Z.eqb n) lines); [rewrite orb_true_r; reflexivity|].
  rewrite orb_false_r. destruct (Z.eqb n l) eqn:E; [|reflexivity].
  apply Z.eqb_eq in E. subst l. symmetry. exact G.
Qed.

(** X13.  A popped line number that passes the test of no unit blocks the
    call: the merger returns no payload and leaves the rest of the stack
    as it is, whatever the entries behind that number. *)
Theorem merger_is_blocked_by_a_number_outside_the_units :
  forall `{Collaborators} (code_changes : list CodeChunk)
         (review_json : dict str json) (stack : list Z) (n : Z),
    Forall (fun unit => in_hunk unit n = false) code_changes ->
    parse_apply_review_per_code_hunk code_changes review_json (stack ++ [n])
    = Ok ([], stack).
Proof.
  intros C units review_json stack n Hall.
  unfold parse_apply_review_per_code_hunk.
  rewrite rev_app_distr. cbn [rev app].
  rewrite (merge_hunks_blocked review_json units n Hall). cbn [bind].
  rewrite rev_involutive. reflexivity.
Qed.

Lemma merger_is_blocked_by_a_number_outside_the_units_witness :
  parse_apply_review_per_code_hunk (H := sample_collaborators)
    [sample_unit] sample_review [20; 10; 100]
  = Ok ([], [20; 10]).
Proof.
  apply (merger_is_blocked_by_a_number_outside_the_units
           (H := sample_collaborators) [sample_unit] sample_review
           [20; 10] 100).
  repeat constructor.
Defined.

(** X14.  A popped line number that passes the test of the first unit and
    is no key of the review makes the merger raise [KeyError]. *)
Theorem merger_raises_KeyError_on_a_missing_entry :
  forall `{Collaborators} (unit : CodeChunk) (code_changes : list CodeChunk)
         (review_json : dict str json) (stack : list Z) (n : Z),
    in_hunk unit n = true ->
    dict_get str_eqb (str_of_int n) review_json = None ->
    parse_apply_review_per_code_hunk (unit :: code_changes) review_json
      (stack ++ [n])
    = Raise KeyError.
Proof.
  intros C unit units review_json stack n Hin Hget.
  unfold parse_apply_review_per_code_hunk.
  rewrite rev_app_distr. cbn [rev app merge_hunks].
  assert (Ha : attach_while review_json unit [] n (rev stack)
               = Raise KeyError).
  { destruct (rev stack); simpl; rewrite Hin; unfold item; rewrite Hget;
      reflexivity. }
  rewrite Ha. reflexivity.
Qed.

Lemma merger_raises_KeyError_on_a_missing_entry_witness :
  parse_apply_review_per_code_hunk (H := sample_collaborators)
    [sample_unit] sample_review [20; 10; 7]
  = Raise KeyError.
Proof.
  apply (merger_raises_KeyError_on_a_missing_entry
           (H := sample_collaborators) sample_unit [] sample_review
           [20; 10] 7); reflexivity.
Defined.

(** X15.  When every line number of the stack passes the test of the first
    unit and is a key of the review, the merger empties the stack and
    returns one payload, that of the first unit, whose review holds under
    every line number of the stack the entry of the review, and nothing
    else. *)
Theorem merger_attaches_a_whole_stack_to_one_unit :
  forall `{Collaborators} (unit : CodeChunk) (code_changes : list CodeChunk)
         (review_json : dict str json) (line_number_stack : list Z),
    line_number_stack <> [] ->
    keyed review_json line_number_stack ->
    Forall (fun n => in_hunk unit n = true) line_number_stack ->
    exists review_per_chunk,
      parse_apply_review_per_code_hunk (unit :: code_changes) review_json
        line_number_stack
      = Ok ([hunk_payload unit review_per_chunk], [])
      /\ (forall n,
            In n line_number_stack ->
            dict_get Z.eqb n review_per_chunk
            = dict_get str_eqb (str_of_int n) review_json)
      /\ (forall n,
            ~ In n line_number_stack ->
            dict_get Z.eqb n review_per_chunk = None).
Proof.
  intros C unit units review_json pystack Hne Hk Hall.
  destruct (rev pystack) as [|n stack] eqn:R.
  { apply (f_equal (@rev Z)) in R. rewrite rev_involutive in R.
    contradiction. }
  assert (Hk' : keyed review_json (n :: stack))
    by (rewrite <- R; apply Forall_rev; exact Hk).
  assert (Hall' : Forall (fun m => in_hunk unit m = true) (n :: stack))
    by (rewrite <- R; apply Forall_rev; exact Hall).
  destruct (attached_while_all unit stack n Hall') as [last Ha].
  exists (review_of review_json (n :: stack)).
  split; [|split].
  - unfold parse_apply_review_per_code_hunk. rewrite R.
    rewrite (merge_hunks_run review_json (unit :: units) [] n stack Hk').
    cbn [visits]. rewrite Ha. cbn [bind app].
    rewrite payloads_of_cons. cbn [attached visited].
    unfold stack_left, payloads_of. reflexivity.
  - intros m Hm. unfold review_of.
    rewrite (review_fold_get review_json (n :: stack) m Hk').
    replace (existsb (Z.eqb m) (n :: stack)) with true; [reflexivity|].
    symmetry. apply existsb_exists. exists m.
    split; [|apply Z.eqb_refl]. rewrite <- R. apply -> in_rev. exact Hm.
  - intros m Hm. unfold review_of.
    rewrite (review_fold_get review_json (n :: stack) m Hk').
    replace (existsb (Z.eqb m) (n :: stack)) with false; [reflexivity|].
    symmetry. apply not_true_is_false. intros He.
    apply existsb_exists in He. destruct He as (x & Hx & E).
    apply Z.eqb_eq in E. subst x. apply Hm. apply in_rev. rewrite R.
    exact Hx.
Qed.

Lemma merger_attaches_a_whole_stack_to_one_unit_witness :
  exists review_per_chunk,
    parse_apply_review_per_code_hunk (H := sample_collaborators)
      [sample_unit] sample_review [20; 10]
    = Ok ([hunk_payload (H := sample_collaborators) sample_unit
             review_per_chunk], [])
    /\ dict_get Z.eqb 10 review_per_chunk
       = Some (sample_entry (lit "rename")).
Proof.
  destruct (merger_attaches_a_whole_stack_to_one_unit
              (H := sample_collaborators) sample_unit [] sample_review
              [20; 10])
    as (review & Hrun & Hin & _);
    [discriminate | repeat constructor | repeat constructor |].
  exists review. split; [exact Hrun|].
  rewrite (Hin 10); [reflexivity | simpl; auto].
Defined.

(** X16.  On a stack that is not empty and whose numbers are keys of the
    review, a call of the merger takes at least one number from the stack,
    and returns at most one payload for each unit and at most one for each
    number it was given. *)
Theorem merger_makes_progress :
  forall `{Collaborators} (code_changes : list CodeChunk)
         (review_json : dict str json) (line_number_stack : list Z),
    line_number_stack <> [] ->
    keyed review_json line_number_stack ->
    exists payload rest,
      parse_apply_review_per_code_hunk code_changes review_json
        line_number_stack
      = Ok (payload, rest)
      /\ (length rest < length line_number_stack)%nat
      /\ (length payload <= length code_changes)%nat
      /\ (length payload <= length line_number_stack)%nat.
Proof.
  intros C units review_json pystack Hne Hk.
  destruct (rev pystack) as [|n stack] eqn:R.
  { apply (f_equal (@rev Z)) in R. rewrite rev_involutive in R.
    contradiction. }
  assert (Hk' : keyed review_json (n :: stack))
    by (rewrite <- R; apply Forall_rev; exact Hk).
  assert (Hlen : length pystack = S (length stack)).
  { rewrite <- (length_rev pystack), R. reflexivity. }
  unfold parse_apply_review_per_code_hunk. rewrite R.
  rewrite (merge_hunks_run review_json units [] n stack Hk'). cbn [bind app].
  do 2 eexists. split; [reflexivity|].
  destruct (payloads_of_length review_json (visits units n stack))
    as [Hp1 Hp2].
  destruct (visits_pop_order units n stack) as (leftover & _ & Hpop).
  pose proof (stack_left_length units n stack) as Hleft.
  pose proof (f_equal (@length Z) Hpop) as Hpl.
  rewrite !length_app in Hpl. simpl in Hpl.
  pose proof (f_equal (@length CodeChunk) (visits_prefix units n stack))
    as Hvis.
  rewrite length_map, length_firstn in Hvis.
  rewrite length_rev. repeat split; lia.
Qed.

Lemma merger_makes_progress_witness :
  exists payload rest,
    parse_apply_review_per_code_hunk (H := sample_collaborators)
      [sample_unit] sample_review [20; 10]
    = Ok (payload, rest)
    /\ (length rest < 2)%nat.
Proof.
  destruct (merger_makes_progress (H := sample_collaborators)
              [sample_unit] sample_review [20; 10])
    as (payload & rest & Hrun & Hlt & _);
    [discriminate | repeat constructor |].
  exists payload, rest. split; assumption.
Defined.

(** ** The loop of [apply_review] *)

Section ApplyLoop.
Context `{Collaborators}.

Lemma dict_mem_of_key {V : Type} (k : str) (d : dict str V) :
  In k (keys d) -> dict_mem str_eqb k d = true.
Proof.
  unfold dict_mem. intros Hin.
  destruct (dict_get str_eqb k d) eqn:G; [reflexivity|].
  exfalso. revert Hin G.
  induction d as [|[k' v] d IH]; simpl; [tauto|].
  intros [<- | Hin].
  - rewrite str_eqb_refl. discriminate.
  - destruct (str_eqb k k'); [discriminate | auto].
Qed.

Lemma make_line_number_stack_map (review_json : dict str json) :
  make_line_number_stack review_json
  = map parse_string_to_int (rev (keys review_json)).
Proof.
  unfold make_line_number_stack.
  assert (Hgen : forall (l : list str) acc,
             fold_left (fun stack line_number =>
                          stack ++ [parse_string_to_int line_number]) l acc
             = acc ++ map parse_string_to_int l).
  { induction l as [|k l IH]; intros acc; simpl.
    - rewrite app_nil_r. reflexivity.
    - rewrite IH, <- app_assoc. reflexivity. }
  apply (Hgen (rev (keys review_json)) []).
Qed.

Lemma parse_apply_keeps_keyed (code_changes : list CodeChunk)
    (review_json : dict str json) (stack : list Z) :
  stack <> [] ->
  keyed review_json stack ->
  exists payload rest,
    parse_apply_review_per_code_hunk code_changes review_json stack
    = Ok (payload, rest)
    /\ keyed review_json rest.
Proof.
  intros Hne Hk. destruct (rev stack) as [|n top_first] eqn:R.
  { apply (f_equal (@rev Z)) in R. rewrite rev_involutive in R.
    contradiction. }
  assert (Hk' : keyed review_json (n :: top_first))
    by (rewrite <- R; apply Forall_rev; exact Hk).
  unfold parse_apply_review_per_code_hunk. rewrite R.
  rewrite (merge_hunks_run review_json code_changes [] n top_first Hk').
  cbn [bind app]. do 2 eexists. split; [reflexivity|].
  destruct (visits_pop_order code_changes n top_first)
    as (leftover & _ & Hpop).
  apply Forall_rev. rewrite Hpop in Hk'.
  apply keyed_app in Hk'. destruct Hk' as [_ Hk'].
  apply keyed_app in Hk'. tauto.
Qed.

Lemma collect_code_chunks_returns (groups : list (list CodeChunk))
    (review_json : dict str json) :
  forall stack chunks,
    keyed review_json stack ->
    exists result,
      collect_code_chunks groups review_json stack chunks = Ok result.
Proof.
  induction groups as [|g groups IH]; intros stack chunks Hk; simpl.
  - eauto.
  - destruct stack as [|n stack]; [eauto|].
    destruct (parse_apply_keeps_keyed g review_json (n :: stack)
                ltac:(discriminate) Hk) as (payload & rest & -> & Hrest).
    cbn [bind]. apply IH. exact Hrest.
Qed.

End ApplyLoop.

(** X17.  When [parse_string_to_int] and [str] give every key of the
    review back (the keys are line numbers written as [str] writes them),
    the loop of [apply_review] over the marker groups returns: no review
    entry is missing when the merger looks it up. *)
Theorem apply_review_loop_returns_on_line_number_keys :
  forall `{Collaborators} (review_json : dict str json)
         (selection_marker_chunks : MarkerGroups),
    (forall key,
        In key (keys review_json) ->
        str_of_int (parse_string_to_int key) = key) ->
    exists batches,
      code_chunks_to_review review_json selection_marker_chunks = Ok batches.
Proof.
  intros C review_json groups Hround. unfold code_chunks_to_review.
  apply collect_code_chunks_returns.
  rewrite make_line_number_stack_map. unfold keyed.
  apply Forall_map. apply Forall_forall. intros key Hin.
  apply in_rev in Hin. rewrite (Hround key Hin).
  apply dict_mem_of_key. exact Hin.
Qed.

Lemma apply_review_loop_returns_on_line_number_keys_witness :
  exists batches,
    code_chunks_to_review (H := sample_collaborators) sample_review
      [([], [sample_unit])]
    = Ok batches.
Proof.
  apply (apply_review_loop_returns_on_line_number_keys
           (H := sample_collaborators)).
  intros key [<- | [<- | []]]; reflexivity.
Defined.

(** ** The limit of the split on the file separator *)

Lemma split_file_separator_scan_bound (s : str) :
  forall splits_left skip piece,
    (length (Re.split_file_separator_scan splits_left skip piece s)
     <= length s + 1)%nat.
Proof.
  induction s as [|c s IH]; intros m skip piece.
  - simpl. lia.
  - cbn [Re.split_file_separator_scan length].
    destruct skip as [|k]; [|specialize (IH m k piece); lia].
    destruct m as [|m]; [specialize (IH 0%nat 0%nat (c :: piece)); lia|].
    destruct (Re.match_file_separator (c :: s)) as [len|].
    + cbn [length]. specialize (IH m (len - 1)%nat []). lia.
    + specialize (IH (S m) 0%nat (c :: piece)). lia.
Qed.

Lemma split_file_separator_scan_not_nil (s : str) :
  forall splits_left skip piece,
    (1 <= length (Re.split_file_separator_scan splits_left skip piece s))%nat.
Proof.
  induction s as [|c s IH]; intros m skip piece.
  - simpl. lia.
  - cbn [Re.split_file_separator_scan].
    destruct skip as [|k]; [|apply IH].
    destruct m as [|m]; [apply IH|].
    destruct (Re.match_file_separator (c :: s)); [simpl; lia | apply IH].
Qed.

Lemma split_file_separator_scan_limit (s : str) :
  forall m m' skip piece,
    (m <= m')%nat ->
    (length (Re.split_file_separator_scan m' skip piece s) <= m + 1)%nat ->
    Re.split_file_separator_scan m skip piece s
    = Re.split_file_separator_scan m' skip piece s.
Proof.
  induction s as [|c s IH]; intros m m' skip piece Hle Hlen.
  - reflexivity.
  - cbn [Re.split_file_separator_scan] in *.
    destruct skip as [|k]; [|apply IH; assumption].
    destruct (Re.match_file_separator (c :: s)) as [len|].
    + destruct m' as [|m'].
      * replace m with 0%nat by lia. reflexivity.
      * cbn [length] in Hlen.
        pose proof (split_file_separator_scan_not_nil s m' (len - 1) []).
        destruct m as [|m]; [lia|].
        f_equal. apply IH; lia.
    + destruct m, m'; try lia; apply IH; assumption.
Qed.

(** X18.  The limit of eight splits matters from the ninth file on only:
    on a text that the split without a limit cuts into nine pieces at
    most, the split of line 32 returns the same pieces. *)
Theorem split_limit_is_idle_up_to_eight_files :
  forall diff_text : str,
    (length (Re.split_file_separator diff_text 0) <= 9)%nat ->
    Re.split_file_separator diff_text Re.MULTILINE
    = Re.split_file_separator diff_text 0.
Proof.
  intros s Hlen. unfold Re.split_file_separator, Re.MULTILINE in *.
  cbv iota in *.
  destruct (Nat.le_gt_cases 8 (length s)) as [Hs | Hs].
  - apply split_file_separator_scan_limit; [exact Hs | exact Hlen].
  - symmetry. apply split_file_separator_scan_limit; [lia|].
    apply split_file_separator_scan_bound.
Qed.

Lemma split_limit_is_idle_up_to_eight_files_witness :
  Re.split_file_separator one_file_diff Re.MULTILINE
  = Re.split_file_separator one_file_diff 0.
Proof.
  apply split_limit_is_idle_up_to_eight_files. vm_compute. lia.
Defined.

(** ** The review request, once more *)

Lemma first_success_raises (layers : list (outcome json)) (e : exn) :
  first_success layers = Raise e -> e <> ValueError.
Proof.
  induction layers as [|layer layers IH]; simpl; [discriminate|].
  destruct layer as [review|e']; [discriminate|].
  destruct e'; try (intros [= <-]; discriminate). exact IH.
Qed.

(** X19.  Once the service has answered, [request_review] raises no
    [ValueError]: the [ValueError] of every layer is caught.  Any other
    exception of a layer that is reached is raised by [request_review]
    itself. *)
Theorem request_review_absorbs_every_ValueError :
  forall `{Collaborators} (code_to_review : str) (response : option str),
    send_review_request code_to_review = Ok response ->
    request_review code_to_review <> Raise ValueError
    /\ forall text e,
         response = Some text -> text <> [] ->
         parse_review_result text = Raise e -> e <> ValueError ->
         request_review code_to_review = Raise e.
Proof.
  intros C code response Hs. rewrite request_review_layers, Hs. cbn [bind].
  split.
  - destruct response as [[|c text]|]; try discriminate.
    intros Hr. apply first_success_raises in Hr. congruence.
  - intros text e -> Hne Hp He. destruct text as [|c text]; [contradiction|].
    unfold fallback_layers, layer_parse. rewrite Hp. simpl.
    destruct e; try reflexivity. contradiction.
Qed.

Lemma request_review_absorbs_every_ValueError_witness :
  parse_review_result (H := service_collaborators fenced_response)
    fenced_response
  = Raise ValueError
  /\ request_review (H := service_collaborators fenced_response)
       (lit "x = 1")
     <> Raise ValueError
  /\ parse_review_result (H := service_collaborators line_keys_response)
       line_keys_response
     = Raise TypeError
  /\ request_review (H := service_collaborators line_keys_response)
       (lit "x = 1")
     = Raise TypeError.
Proof.
  split; [reflexivity|]. split; [|split; [reflexivity|]].
  - exact (proj1 (request_review_absorbs_every_ValueError
                    (H := service_collaborators fenced_response)
                    (lit "x = 1") (Some fenced_response) eq_refl)).
  - apply (proj2 (request_review_absorbs_every_ValueError
                    (H := service_collaborators line_keys_response)
                    (lit "x = 1") (Some line_keys_response) eq_refl)
             line_keys_response TypeError);
      [reflexivity | discriminate | reflexivity | discriminate].
Defined.

(** On the fenced response the first layer raises the [ValueError] of
    [json.loads] and the second layer returns the review. *)
Example request_review_reads_the_fenced_response :
  request_review (H := service_collaborators fenced_response) (lit "x = 1")
  = Ok (Some (JObj [])).
Proof. reflexivity. Qed.

(** ** [parse_repair_review] *)




